(** * Machine-identity reset and restore: a shallow embedding

    The development embeds the parts of [reset_machine_manual.py],
    [restore_machine_id.py] and [bypass_version.py] that generate, commit
    and restore the identity set and that patch the application bundle,
    and proves properties of them.

    Python strings are modelled as [string] (sequences of 8-bit
    characters); the character-level algorithms of [str] work on
    [list ascii].  Effects (files, the SQLite database, the random
    source, the clock, the console) live in an explicit world that every
    operation threads; exceptions are values of an outcome type. *)

From Stdlib Require Import ZArith Ascii String List Lia Bool.
From Stdlib Require Import Strings.Byte.
From Stdlib Require DecimalString.
From stdpp Require Import base gmap strings list.

Set Warnings "-register-all".

Open Scope string_scope.
Open Scope list_scope.

(** ** Python [str] operations *)

Module PyStr.

Definition chars (s : string) : list ascii := list_ascii_of_string s.
Definition str (l : list ascii) : string := string_of_list_ascii l.

(** [s.startswith(p)] on character lists. *)
Fixpoint starts_with (p s : list ascii) : bool :=
  match p, s with
  | [], _ => true
  | _ :: _, [] => false
  | a :: p', b :: s' => if Ascii.eqb a b then starts_with p' s' else false
  end.

(** [old in s]: some suffix of [s] starts with [old]. *)
Fixpoint occurs (old s : list ascii) : bool :=
  starts_with old s ||
  match s with
  | [] => false
  | _ :: s' => occurs old s'
  end.

(** [s.replace(old, new)] for a non-empty [old]: scan from the left; at a
    match emit [new] and skip the matched characters ([skip] counts the
    characters of the current match still to be dropped), otherwise copy
    one character. *)
Fixpoint replace_scan (old new : list ascii) (skip : nat) (s : list ascii)
  : list ascii :=
  match s with
  | [] => []
  | c :: s' =>
      match skip with
      | S k => replace_scan old new k s'
      | O =>
          if starts_with old s
          then new ++ replace_scan old new (length old - 1) s'
          else c :: replace_scan old new 0 s'
      end
  end.

(** [s.replace(old, new)].  With an empty [old] Python inserts [new]
    before every character and at the end. *)
Definition replace_chars (old new s : list ascii) : list ascii :=
  match old with
  | [] => new ++ flat_map (fun c => c :: new) s
  | _ :: _ => replace_scan old new 0 s
  end.

Definition replace (s old new : string) : string :=
  str (replace_chars (chars old) (chars new) (chars s)).

Definition contains (s old : string) : bool := occurs (chars old) (chars s).

(** [s.split(sep)] for a one-character separator: never returns the empty
    list ([''.split('.') == ['']]). *)
Fixpoint split_chars (sep : ascii) (s : list ascii) : list (list ascii) :=
  match s with
  | [] => [[]]
  | c :: s' =>
      if Ascii.eqb c sep then [] :: split_chars sep s'
      else match split_chars sep s' with
           | [] => [[c]]
           | w :: ws => (c :: w) :: ws
           end
  end.

Definition is_digit (c : ascii) : bool :=
  let n := nat_of_ascii c in (48 <=? n)%nat && (n <=? 57)%nat.

Definition digit_value (c : ascii) : Z := Z.of_nat (nat_of_ascii c) - 48.

(** ASCII white space, as removed by [str.strip()] and ignored by [int()]. *)
Definition is_space (c : ascii) : bool :=
  let n := nat_of_ascii c in
  ((9 <=? n)%nat && (n <=? 13)%nat) || (n =? 32)%nat
  || ((28 <=? n)%nat && (n <=? 31)%nat).

Fixpoint lstrip (s : list ascii) : list ascii :=
  match s with
  | c :: s' => if is_space c then lstrip s' else s
  | [] => []
  end.

Definition strip (s : list ascii) : list ascii :=
  rev (lstrip (rev (lstrip s))).

(** The digits of an [int()] literal: decimal digits, single underscores
    allowed between digits.  [acc] is the value read so far,
    [after_digit] tells whether the previous character was a digit. *)
Fixpoint int_digits (acc : Z) (after_digit : bool) (s : list ascii)
  : option Z :=
  match s with
  | [] => if after_digit then Some acc else None
  | c :: s' =>
      if is_digit c then int_digits (10 * acc + digit_value c) true s'
      else if Ascii.eqb c "_" then
             if after_digit then int_digits acc false s' else None
           else None
  end.

(** [int(s)] in base ten; [None] stands for [ValueError]. *)
Definition int_chars (s : list ascii) : option Z :=
  match strip s with
  | c :: s' =>
      if Ascii.eqb c "-" then option_map Z.opp (int_digits 0 false s')
      else if Ascii.eqb c "+" then int_digits 0 false s'
      else int_digits 0 false (c :: s')
  | [] => None
  end.

(** [c.upper()] and [s.upper()] on ASCII letters. *)
Definition upper_char (c : ascii) : ascii :=
  let n := nat_of_ascii c in
  if (97 <=? n)%nat && (n <=? 122)%nat then ascii_of_nat (n - 32) else c.

Definition upper (s : string) : string := str (map upper_char (chars s)).

(** [s.lower()] on ASCII letters. *)
Definition lower_char (c : ascii) : ascii :=
  let n := nat_of_ascii c in
  if (65 <=? n)%nat && (n <=? 90)%nat then ascii_of_nat (n + 32) else c.

Definition lower (s : string) : string := str (map lower_char (chars s)).

End PyStr.

(** ** Python values and dictionaries *)

(** The values [json.load] produces.  JSON numbers are restricted to
    integers; no operation below looks inside a number. *)
Inductive pyval : Type :=
| PNone
| PBool (b : bool)
| PInt (n : Z)
| PStr (s : string)
| PList (l : list pyval)
| PDict (d : list (string * pyval)).

(** A [dict] keeps its entries in insertion order. *)
Abbreviation pydict := (list (string * pyval)).

(** [bool(v)]: the truth value Python gives [v]. *)
Definition truthy (v : pyval) : bool :=
  match v with
  | PNone => false
  | PBool b => b
  | PInt n => negb (n =? 0)%Z
  | PStr s => negb (String.eqb s "")
  | PList l => match l with [] => false | _ => true end
  | PDict d => match d with [] => false | _ => true end
  end.

(** [d.get(k)]: [None] when the key is absent. *)
Fixpoint dict_get (k : string) (d : pydict) : option pyval :=
  match d with
  | [] => None
  | (k', v) :: d' => if String.eqb k k' then Some v else dict_get k d'
  end.

(** [d.get(k, default)]. *)
Definition dict_get_default (k : string) (default : pyval) (d : pydict)
  : pyval :=
  match dict_get k d with
  | Some v => v
  | None => default
  end.

(** [d[k] = v]: an existing key keeps its position, a new key goes last. *)
Fixpoint dict_set (k : string) (v : pyval) (d : pydict) : pydict :=
  match d with
  | [] => [(k, v)]
  | (k', v') :: d' =>
      if String.eqb k k' then (k, v) :: d' else (k', v') :: dict_set k v d'
  end.

(** [d.update(other)]: assign the entries of [other] in their order. *)
Definition dict_update (d other : pydict) : pydict :=
  fold_left (fun acc kv => dict_set (fst kv) (snd kv) acc) other d.

(** [k in d]. *)
Definition dict_has (k : string) (d : pydict) : bool :=
  match dict_get k d with Some _ => true | None => false end.

(** ** [hashlib] and [uuid] *)

Module Hashlib.

Local Open Scope Z_scope.
Local Open Scope list_scope.

Definition byte_val (b : byte) : Z := Z.of_N (Byte.to_N b).

Definition byte_of_Z (z : Z) : byte :=
  match Byte.of_N (Z.to_N (z mod 256)) with
  | Some b => b
  | None => x00
  end.

(** The parameters in which SHA-256 and SHA-512 differ (FIPS 180-4). *)
Record sha2_params : Type := {
  word_bits : Z;
  block_bytes : nat;
  length_bytes : nat;
  round_constants : list Z;
  initial_hash : list Z;
  big_sigma0 : Z * Z * Z;
  big_sigma1 : Z * Z * Z;
  small_sigma0 : Z * Z * Z;
  small_sigma1 : Z * Z * Z
}.

Section WithParams.

Variable P : sha2_params.

Definition wrap (x : Z) : Z := x mod 2 ^ word_bits P.

Definition rotr (n x : Z) : Z :=
  Z.lor (Z.shiftr x n) (wrap (Z.shiftl x (word_bits P - n))).

Definition big_sigma (r : Z * Z * Z) (x : Z) : Z :=
  let '(a, b, c) := r in Z.lxor (Z.lxor (rotr a x) (rotr b x)) (rotr c x).

Definition small_sigma (r : Z * Z * Z) (x : Z) : Z :=
  let '(a, b, c) := r in Z.lxor (Z.lxor (rotr a x) (rotr b x)) (Z.shiftr x c).

Definition ch (x y z : Z) : Z :=
  Z.lxor (Z.land x y) (Z.land (wrap (Z.lnot x)) z).

Definition maj (x y z : Z) : Z :=
  Z.lxor (Z.lxor (Z.land x y) (Z.land x z)) (Z.land y z).

(** Big-endian number of a byte string, and its inverse at a given width. *)
Definition be_value (bs : list Z) : Z :=
  fold_left (fun acc b => acc * 256 + b) bs 0.

Fixpoint be_bytes (n : nat) (x : Z) : list Z :=
  match n with
  | O => []
  | S k => be_bytes k (x / 256) ++ [x mod 256]
  end.

Definition padding (len : nat) : list Z :=
  let used := (len + 1 + length_bytes P)%nat in
  let fill := ((block_bytes P - used mod block_bytes P) mod block_bytes P)%nat in
  128 :: repeat 0 fill ++ be_bytes (length_bytes P) (8 * Z.of_nat len).

(** Cut a list into pieces of [k] elements; [fuel] bounds the number of
    pieces. *)
Fixpoint chunks {A} (k fuel : nat) (l : list A) : list (list A) :=
  match fuel with
  | O => []
  | S fuel' =>
      match l with
      | [] => []
      | _ :: _ => firstn k l :: chunks k fuel' (skipn k l)
      end
  end.

Definition word_bytes : nat := Z.to_nat (word_bits P / 8).

(** Extend the message schedule by [n] words; [w] holds the words so
    far. *)
Fixpoint schedule (n : nat) (w : list Z) : list Z :=
  match n with
  | O => w
  | S n' =>
      let t := length w in
      let at_ i := nth (t - i) w 0 in
      schedule n'
        (w ++ [wrap (small_sigma (small_sigma1 P) (at_ 2%nat) + at_ 7%nat
                     + small_sigma (small_sigma0 P) (at_ 15%nat) + at_ 16%nat)])
  end.

Definition state : Type := Z * Z * Z * Z * Z * Z * Z * Z.

Definition round (s : state) (kw : Z * Z) : state :=
  let '(a, b, c, d, e, f, g, h) := s in
  let t1 := h + big_sigma (big_sigma1 P) e + ch e f g + fst kw + snd kw in
  let t2 := big_sigma (big_sigma0 P) a + maj a b c in
  (wrap (t1 + t2), a, b, c, wrap (d + t1), e, f, g).

Definition add_state (s t : state) : state :=
  let '(a, b, c, d, e, f, g, h) := s in
  let '(a', b', c', d', e', f', g', h') := t in
  (wrap (a + a'), wrap (b + b'), wrap (c + c'), wrap (d + d'),
   wrap (e + e'), wrap (f + f'), wrap (g + g'), wrap (h + h')).

Definition compress (s : state) (block : list Z) : state :=
  let w0 := map be_value (chunks word_bytes 16 block) in
  let w := schedule (length (round_constants P) - 16) w0 in
  add_state s (fold_left round (combine (round_constants P) w) s).

Definition initial_state : state :=
  let h i := nth i (initial_hash P) 0 in
  (h 0%nat, h 1%nat, h 2%nat, h 3%nat, h 4%nat, h 5%nat, h 6%nat, h 7%nat).

Definition state_words (s : state) : list Z :=
  let '(a, b, c, d, e, f, g, h) := s in [a; b; c; d; e; f; g; h].

(** The eight-word hash value of a message. *)
Definition sha2_words (msg : list byte) : list Z :=
  let bytes := map byte_val msg ++ padding (length msg) in
  let blocks := chunks (block_bytes P) (length bytes) bytes in
  state_words (fold_left compress blocks initial_state).

Definition sha2 (msg : list byte) : list byte :=
  map byte_of_Z (flat_map (be_bytes word_bytes) (sha2_words msg)).

End WithParams.

(** The round constants of SHA-512: the first 64 bits of the fractional
    parts of the cube roots of the first 80 primes.  Those of SHA-256 are
    the first 32 bits for the first 64 primes, so the upper halves of the
    first 64 words of this table. *)
Definition sha512_round_constants : list Z :=
  [0x428a2f98d728ae22; 0x7137449123ef65cd; 0xb5c0fbcfec4d3b2f;
   0xe9b5dba58189dbbc; 0x3956c25bf348b538; 0x59f111f1b605d019;
   0x923f82a4af194f9b; 0xab1c5ed5da6d8118; 0xd807aa98a3030242;
   0x12835b0145706fbe; 0x243185be4ee4b28c; 0x550c7dc3d5ffb4e2;
   0x72be5d74f27b896f; 0x80deb1fe3b1696b1; 0x9bdc06a725c71235;
   0xc19bf174cf692694; 0xe49b69c19ef14ad2; 0xefbe4786384f25e3;
   0x0fc19dc68b8cd5b5; 0x240ca1cc77ac9c65; 0x2de92c6f592b0275;
   0x4a7484aa6ea6e483; 0x5cb0a9dcbd41fbd4; 0x76f988da831153b5;
   0x983e5152ee66dfab; 0xa831c66d2db43210; 0xb00327c898fb213f;
   0xbf597fc7beef0ee4; 0xc6e00bf33da88fc2; 0xd5a79147930aa725;
   0x06ca6351e003826f; 0x142929670a0e6e70; 0x27b70a8546d22ffc;
   0x2e1b21385c26c926; 0x4d2c6dfc5ac42aed; 0x53380d139d95b3df;
   0x650a73548baf63de; 0x766a0abb3c77b2a8; 0x81c2c92e47edaee6;
   0x92722c851482353b; 0xa2bfe8a14cf10364; 0xa81a664bbc423001;
   0xc24b8b70d0f89791; 0xc76c51a30654be30; 0xd192e819d6ef5218;
   0xd69906245565a910; 0xf40e35855771202a; 0x106aa07032bbd1b8;
   0x19a4c116b8d2d0c8; 0x1e376c085141ab53; 0x2748774cdf8eeb99;
   0x34b0bcb5e19b48a8; 0x391c0cb3c5c95a63; 0x4ed8aa4ae3418acb;
   0x5b9cca4f7763e373; 0x682e6ff3d6b2b8a3; 0x748f82ee5defb2fc;
   0x78a5636f43172f60; 0x84c87814a1f0ab72; 0x8cc702081a6439ec;
   0x90befffa23631e28; 0xa4506cebde82bde9; 0xbef9a3f7b2c67915;
   0xc67178f2e372532b; 0xca273eceea26619c; 0xd186b8c721c0c207;
   0xeada7dd6cde0eb1e; 0xf57d4f7fee6ed178; 0x06f067aa72176fba;
   0x0a637dc5a2c898a6; 0x113f9804bef90dae; 0x1b710b35131c471b;
   0x28db77f523047d84; 0x32caab7b40c72493; 0x3c9ebe0a15c9bebc;
   0x431d67c49c100d4c; 0x4cc5d4becb3e42b6; 0x597f299cfc657e2a;
   0x5fcb6fab3ad6faec; 0x6c44198c4a475817].

Definition sha256_params : sha2_params := {|
  word_bits := 32; block_bytes := 64; length_bytes := 8;
  round_constants :=
    map (fun k => Z.shiftr k 32) (firstn 64 sha512_round_constants);
  initial_hash :=
  [0x6a09e667; 0xbb67ae85; 0x3c6ef372; 0xa54ff53a;
   0x510e527f; 0x9b05688c; 0x1f83d9ab; 0x5be0cd19];
  big_sigma0 := (2, 13, 22); big_sigma1 := (6, 11, 25);
  small_sigma0 := (7, 18, 3); small_sigma1 := (17, 19, 10)
|}.

Definition sha512_params : sha2_params := {|
  word_bits := 64; block_bytes := 128; length_bytes := 16;
  round_constants := sha512_round_constants;
  initial_hash :=
  [0x6a09e667f3bcc908; 0xbb67ae8584caa73b; 0x3c6ef372fe94f82b;
   0xa54ff53a5f1d36f1; 0x510e527fade682d1; 0x9b05688c2b3e6c1f;
   0x1f83d9abfb41bd6b; 0x5be0cd19137e2179];
  big_sigma0 := (28, 34, 39); big_sigma1 := (14, 18, 41);
  small_sigma0 := (1, 8, 7); small_sigma1 := (19, 61, 6)
|}.

(** [hashlib.sha256(data).digest()] and [hashlib.sha512(data).digest()]. *)
Definition sha256 : list byte -> list byte := sha2 sha256_params.
Definition sha512 : list byte -> list byte := sha2 sha512_params.

(** One lowercase hexadecimal digit. *)
Definition hex_digit (n : Z) : ascii :=
  nth (Z.to_nat n) (PyStr.chars "0123456789abcdef") "f"%char.

(** ['%02x' % b]. *)
Definition hex_byte (b : byte) : list ascii :=
  [hex_digit (byte_val b / 16); hex_digit (byte_val b mod 16)].

(** [h.hexdigest()] of a digest. *)
Definition hexdigest (digest : list byte) : string :=
  PyStr.str (flat_map hex_byte digest).

End Hashlib.

Module Uuid.

Local Open Scope Z_scope.
Local Open Scope list_scope.

(** [int.from_bytes(bytes, 'big')]. *)
Definition int_from_bytes (bs : list byte) : Z :=
  fold_left (fun acc b => acc * 256 + Hashlib.byte_val b) bs 0.

(** [UUID(bytes=bs, version=4).int]: the variant bits are set to RFC 4122
    and the version nibble to 4. *)
Definition uuid4_int (bs : list byte) : Z :=
  let i := int_from_bytes bs in
  let i := Z.land i (Z.lnot (Z.shiftl 0xc000 48)) in
  let i := Z.lor i (Z.shiftl 0x8000 48) in
  let i := Z.land i (Z.lnot (Z.shiftl 0xf000 64)) in
  Z.lor i (Z.shiftl 4 76).

(** ['%032x' % i] for [0 <= i < 2^128]: the digit at position [k] from the
    left is bits [124 - 4k .. 127 - 4k]. *)
Definition hex32 (i : Z) : list ascii :=
  map (fun k => Hashlib.hex_digit (Z.shiftr i (4 * Z.of_nat (31 - k)) mod 16))
      (seq 0 32).

(** [str(u)]: the digits grouped 8-4-4-4-12. *)
Definition uuid_str (i : Z) : string :=
  let hex := hex32 i in
  let dash := ["-"%char] in
  PyStr.str (firstn 8 hex ++ dash ++ firstn 4 (skipn 8 hex) ++ dash
             ++ firstn 4 (skipn 12 hex) ++ dash
             ++ firstn 4 (skipn 16 hex) ++ dash ++ skipn 20 hex).

End Uuid.

(** ** The world: files, oracles, exceptions, events *)

(** The exception classes the programs raise or catch. *)
Inductive exn : Type :=
| Exception
| OSError
| FileNotFoundError
| FileExistsError
| PermissionError
| ValueError
| KeyError
| AttributeError
| TypeError
| UnboundLocalError
| JSONDecodeError
| UnicodeDecodeError
| EOFError
| SqliteError.

(** [isinstance(e, PermissionError)]. *)
Definition is_permission_error (e : exn) : bool :=
  match e with PermissionError => true | _ => false end.

Definition is_file_not_found (e : exn) : bool :=
  match e with FileNotFoundError => true | _ => false end.

(** [isinstance(e, ValueError)]: [json.JSONDecodeError] and
    [UnicodeDecodeError] are subclasses of [ValueError]. *)
Definition is_value_error (e : exn) : bool :=
  match e with
  | ValueError | JSONDecodeError | UnicodeDecodeError => true
  | _ => false
  end.

(** A value stored in a column of TEXT affinity. *)
Inductive sqlval : Type :=
| SqlNull
| SqlText (s : string).

(** What a file holds.  A file that holds a JSON document is represented
    by the decoded document ([json.load] of what [json.dump] wrote is the
    value dumped); a database file by its [ItemTable], [None] while the
    table does not exist; every other file by its text. *)
Inductive fdata : Type :=
| Text (s : string)
| Json (v : pyval)
| Sqlite (item_table : option (gmap string sqlval)).

Inductive platform : Type := Windows | Darwin | Linux.

(** The I/O operations a run can attempt. *)
Inductive op : Type :=
| OpStat (path : string)
| OpAccess (path : string)
| OpMkTemp (path : string)
| OpRead (path : string)
| OpOpenWrite (path : string)
| OpWrite (path : string) (s : string)
| OpJsonLoad (path : string)
| OpJsonDump (path : string) (v : pyval)
| OpCopy (src dst : string)
| OpRemove (path : string)
| OpMove (src dst : string)
| OpChmod (path : string)
| OpChown (path : string)
| OpMakedirs (path : string)
| OpGetsize (path : string)
| OpUrandom (n : nat)
| OpNow
| OpInput
| OpResolve (what : string)
| OpSqlConnect (path : string)
| OpSqlCreateTable (path : string)
| OpSqlUpsert (path : string) (key : string) (value : pyval)
| OpSqlCommit (path : string)
| OpSqlClose (path : string)
| OpRegistryOpen (key : string)
| OpRegistryCreate (key : string)
| OpRegistrySet (key name : string) (value : pyval)
| OpSystem (cmd : string).

(** What a run leaves behind for an observer: each operation attempted,
    with its outcome, and each message printed (translator key and
    argument). *)
Inductive event : Type :=
| Did (o : op)
| Failed (o : op) (e : exn)
| Print (key arg : string).

(** The environment of a run.  The number of operations attempted so far
    indexes the oracles: [e_faults n] is the error the environment
    inflicts on the [n]-th operation (disk full, permission denied, ...),
    [e_entropy n] the bytes [os.urandom] yields there, [e_clock n] the
    formatted time, [e_tmpname n] the name a temporary file gets. *)
Record env : Type := {
  e_platform : platform;
  e_faults : nat -> option exn;
  e_entropy : nat -> nat -> byte;
  e_clock : nat -> string;
  e_tmpname : nat -> string;
  e_access : string -> bool;
  e_exit_code : nat -> Z;
  e_glob : string -> list string;
  e_ctime : string -> Z;
  (** path resolution from [config.ini]; [None]: the resolver raises *)
  e_machine_id_path : option string;
  e_workbench_path : option string;
  e_cursor_paths : option (string * string);
  (** the text a file that is not a text file reads as *)
  e_raw_text : fdata -> string;
  (** [str(v)] of a value that is not a string *)
  e_str : pyval -> string;
  (** the two [re.sub] rewrites of [modify_main_js] *)
  e_main_js_sub : string -> string
}.

(** The mutable part: the files, the count of operations attempted and
    the lines still to be read from standard input. *)
Record world : Type := World {
  w_fs : gmap string fdata;
  w_step : nat;
  w_stdin : list string
}.

Definition set_fs (f : gmap string fdata -> gmap string fdata) (w : world)
  : world :=
  World (f (w_fs w)) (w_step w) (w_stdin w).

Definition tick (w : world) : world :=
  World (w_fs w) (S (w_step w)) (w_stdin w).

Inductive outcome (A : Type) : Type :=
| Ret (a : A)
| Raise (e : exn).

Arguments Ret {A} a.
Arguments Raise {A} e.

(** A computation: in an environment, from a world to an outcome, the
    world afterwards and the events emitted. *)
Definition M (A : Type) : Type :=
  env -> world -> outcome A * world * list event.

Definition ret {A} (a : A) : M A := fun _ w => (Ret a, w, []).

Definition raise {A} (e : exn) : M A := fun _ w => (Raise e, w, []).

Definition bind {A B} (m : M A) (k : A -> M B) : M B := fun E w =>
  match m E w with
  | (Ret a, w1, t1) =>
      match k a E w1 with
      | (r, w2, t2) => (r, w2, t1 ++ t2)
      end
  | (Raise e, w1, t1) => (Raise e, w1, t1)
  end.

(** [try: m  except Exception as e: h e]. *)
Definition try_except {A} (m : M A) (h : exn -> M A) : M A := fun E w =>
  match m E w with
  | (Ret a, w1, t1) => (Ret a, w1, t1)
  | (Raise e, w1, t1) =>
      match h e E w1 with
      | (r, w2, t2) => (r, w2, t1 ++ t2)
      end
  end.

(** Run [m] and hand its outcome to the code that follows; used where
    what the handler does depends on how far the [try] body got. *)
Definition attempt {A} (m : M A) : M (outcome A) := fun E w =>
  match m E w with
  | (r, w1, t1) => (Ret r, w1, t1)
  end.

Definition lift {A} (r : outcome A) : M A := fun _ w => (r, w, []).

Declare Scope py_scope.
Delimit Scope py_scope with py.

Notation "x <- m ;; k" := (bind m (fun x => k))
  (at level 100, m at next level, right associativity) : py_scope.
Notation "m ;; k" := (bind m (fun _ => k))
  (at level 100, right associativity) : py_scope.

Open Scope py_scope.

Definition result_of {A} (r : outcome A * world * list event) : outcome A :=
  fst (fst r).
Definition world_of {A} (r : outcome A * world * list event) : world :=
  snd (fst r).
Definition trace_of {A} (r : outcome A * world * list event) : list event :=
  snd r.

(** [for x in l: body x]. *)
Fixpoint for_each {A} (l : list A) (body : A -> M unit) : M unit :=
  match l with
  | [] => ret tt
  | x :: l' => body x ;; for_each l' body
  end.

(** [print(translator.get(key, ...))]. *)
Definition say (key arg : string) : M unit :=
  fun _ w => (Ret tt, w, [Print key arg]).

(** ** Primitive operations *)

(** One I/O operation.  The environment may make it fail ([e_faults]);
    otherwise [act] decides between the operation's own error and its
    effect.  Either way the operation counts and leaves an event. *)
Definition io {A} (o : op) (act : env -> world -> exn + A * world) : M A :=
  fun E w =>
  match e_faults E (w_step w) with
  | Some e => (Raise e, tick w, [Failed o e])
  | None =>
      match act E w with
      | inl e => (Raise e, tick w, [Failed o e])
      | inr (a, w') => (Ret a, tick w', [Did o])
      end
  end.

Definition file_text (E : env) (d : fdata) : string :=
  match d with
  | Text s => s
  | _ => e_raw_text E d
  end.

(** [str(v)]. *)
Definition py_str (E : env) (v : pyval) : string :=
  match v with
  | PStr s => s
  | _ => e_str E v
  end.

(** [os.path.exists(path)] and [os.path.isfile(path)]; directories are
    not part of the file model. *)
Definition os_path_exists (path : string) : M bool := fun _ w =>
  (Ret (bool_decide (is_Some (w_fs w !! path))), w, []).

(** [os.access(path, mode)]. *)
Definition os_access (path : string) : M bool := fun E w =>
  (Ret (bool_decide (is_Some (w_fs w !! path)) && e_access E path), w, []).

(** An operation that needs the file to exist and changes nothing:
    [os.stat], [os.chmod], [os.chown], [os.path.getsize].  Mode bits,
    ownership and sizes are not modelled. *)
Definition touch_existing (o : op) (path : string) : M unit :=
  io o (fun _ w =>
    match w_fs w !! path with
    | Some _ => inr (tt, w)
    | None => inl FileNotFoundError
    end).

Definition os_stat (path : string) : M unit := touch_existing (OpStat path) path.
Definition os_chmod (path : string) : M unit := touch_existing (OpChmod path) path.
Definition os_chown (path : string) : M unit := touch_existing (OpChown path) path.
Definition os_getsize (path : string) : M unit :=
  touch_existing (OpGetsize path) path.

(** [os.makedirs(os.path.dirname(path), exist_ok=True)]. *)
Definition os_makedirs_for (path : string) : M unit :=
  io (OpMakedirs path) (fun _ w => inr (tt, w)).

(** [tempfile.NamedTemporaryFile(mode="w", delete=False)]: a new, empty
    file under a name that is not in use; returns the name. *)
Definition named_temporary_file : M string := fun E w =>
  let name := e_tmpname E (w_step w) in
  io (OpMkTemp name) (fun _ w =>
    match w_fs w !! name with
    | Some _ => inl FileExistsError
    | None => inr (name, set_fs (insert name (Text "")) w)
    end) E w.

(** [open(path, "r").read()]. *)
Definition read_text (path : string) : M string :=
  io (OpRead path) (fun E w =>
    match w_fs w !! path with
    | Some d => inr (file_text E d, w)
    | None => inl FileNotFoundError
    end).

(** [open(path, "w")]: creates or truncates the file. *)
Definition open_write (path : string) : M unit :=
  io (OpOpenWrite path) (fun _ w => inr (tt, set_fs (insert path (Text "")) w)).

(** [f.write(s)] on a file opened for writing.  Writes are unbuffered in
    the model: an error shows at the write, closing never fails. *)
Definition file_write (path : string) (s : string) : M unit :=
  io (OpWrite path s) (fun _ w => inr (tt, set_fs (insert path (Text s)) w)).

(** [json.load(open(path, "r"))]. *)
Definition json_load (path : string) : M pyval :=
  io (OpJsonLoad path) (fun _ w =>
    match w_fs w !! path with
    | Some (Json v) => inr (v, w)
    | Some _ => inl JSONDecodeError
    | None => inl FileNotFoundError
    end).

(** [json.dump(v, f, indent=...)] on a file opened for writing. *)
Definition json_dump (path : string) (v : pyval) : M unit :=
  io (OpJsonDump path v) (fun _ w => inr (tt, set_fs (insert path (Json v)) w)).

(** [shutil.copy2(src, dst)].  A copy that fails is taken to have left
    nothing behind; what a copy interrupted half-way leaves under [dst]
    is not modelled. *)
Definition shutil_copy2 (src dst : string) : M unit :=
  io (OpCopy src dst) (fun _ w =>
    match w_fs w !! src with
    | Some d =>
        if String.eqb src dst then inl OSError
        else inr (tt, set_fs (insert dst d) w)
    | None => inl FileNotFoundError
    end).

(** [os.remove(path)], [os.unlink(path)]. *)
Definition os_remove (path : string) : M unit :=
  io (OpRemove path) (fun _ w =>
    match w_fs w !! path with
    | Some _ => inr (tt, set_fs (delete path) w)
    | None => inl FileNotFoundError
    end).

(** [shutil.move(src, dst)], as the rename it is within one file system:
    the file takes its new name, or nothing changes.  The copy and
    unlink that [shutil.move] falls back on when the rename is refused,
    and what they leave under [dst] when they fail, are not modelled. *)
Definition shutil_move (src dst : string) : M unit :=
  io (OpMove src dst) (fun _ w =>
    match w_fs w !! src with
    | Some d => inr (tt, set_fs (fun fs => delete src (<[dst := d]> fs)) w)
    | None => inl FileNotFoundError
    end).

(** [os.urandom(n)]. *)
Definition os_urandom (n : nat) : M (list byte) :=
  io (OpUrandom n)
    (fun E w => inr (map (e_entropy E (w_step w)) (seq 0 n), w)).

(** [datetime.now().strftime("%Y%m%d_%H%M%S")]. *)
Definition now_stamp : M string := fun E w => (Ret (e_clock E (w_step w)), w, []).

(** [input(prompt)]: the next line of standard input, [EOFError] at its
    end. *)
Definition input_ : M string := fun _ w =>
  match w_stdin w with
  | line :: rest => (Ret line, World (w_fs w) (w_step w) rest, [Did OpInput])
  | [] => (Raise EOFError, w, [Failed OpInput EOFError])
  end.

(** [os.system(cmd)]: the exit status.  What the command itself does to
    the files is not modelled. *)
Definition os_system (cmd : string) : M Z :=
  io (OpSystem cmd) (fun E w => inr (e_exit_code E (w_step w), w)).

(** [winreg.OpenKey], [winreg.CreateKey], [winreg.SetValueEx] with
    [REG_SZ]; the registry's content is not modelled. *)
Definition winreg_open_key (key : string) : M unit :=
  io (OpRegistryOpen key) (fun _ w => inr (tt, w)).

Definition winreg_create_key (key : string) : M unit :=
  io (OpRegistryCreate key) (fun _ w => inr (tt, w)).

Definition winreg_set_value (key name : string) (value : pyval) : M unit :=
  io (OpRegistrySet key name value) (fun _ w =>
    match value with
    | PStr _ => inr (tt, w)
    | _ => inl TypeError
    end).

(** [sys.platform] and [os.name]. *)
Definition sys_platform : M platform := fun E w => (Ret (e_platform E), w, []).

(** [str(v)] inside an f-string. *)
Definition fmt (v : pyval) : M string := fun E w => (Ret (py_str E v), w, []).

(** Path resolution ([get_cursor_machine_id_path],
    [get_workbench_cursor_path], [get_cursor_paths]): the paths come from
    [config.ini] and the installation layout, here from the
    environment.  The resolvers' upkeep of their own configuration (the
    configuration directory and [config.ini], which they create or
    rewrite on the way) is not modelled: [w_fs] does not hold these
    files. *)
Definition resolve {A} (what : string) (r : env -> option A) : M A :=
  io (OpResolve what) (fun E w =>
    match r E with
    | Some a => inr (a, w)
    | None => inl OSError
    end).

Definition get_cursor_machine_id_path : M string :=
  resolve "machine_id_path" e_machine_id_path.

Definition get_workbench_cursor_path : M string :=
  resolve "workbench_path" e_workbench_path.

Definition get_cursor_paths : M (string * string) :=
  resolve "cursor_paths" e_cursor_paths.

(** *** [sqlite3] *)

(** A connection: the database file it is bound to and, while a
    transaction is open, the transaction's working copy of [ItemTable].
    Other connections, and the file itself, only ever see what
    [commit] wrote. *)
Record connection : Type := Connection {
  c_path : string;
  c_tx : option (gmap string sqlval)
}.

(** The [ItemTable] of the database stored in a file; a missing or
    zero-length file is an empty database. *)
Definition database_of (d : option fdata)
  : exn + option (gmap string sqlval) :=
  match d with
  | None => inr None
  | Some (Sqlite t) => inr t
  | Some (Text s) => if String.eqb s "" then inr None else inl SqliteError
  | Some (Json _) => inl SqliteError
  end.

(** Binding a Python value to a parameter of a TEXT column; lists and
    dictionaries cannot be bound. *)
Definition bind_param (v : pyval) : option sqlval :=
  match v with
  | PNone => Some SqlNull
  | PStr s => Some (SqlText s)
  | PInt n => Some (SqlText (DecimalString.NilZero.string_of_int (Z.to_int n)))
  | PBool b => Some (SqlText (if b then "1" else "0"))
  | PList _ | PDict _ => None
  end.

(** [sqlite3.connect(path)]: creates the file when it is missing. *)
Definition sqlite3_connect (path : string) : M connection :=
  io (OpSqlConnect path) (fun _ w =>
    match w_fs w !! path with
    | Some _ => inr (Connection path None, w)
    | None => inr (Connection path None, set_fs (insert path (Sqlite None)) w)
    end).

(** [cursor.execute("CREATE TABLE IF NOT EXISTS ItemTable (...)")].
    [sqlite3] opens no transaction for a DDL statement: outside a
    transaction it takes effect at once. *)
Definition sql_create_table (conn : connection) : M unit :=
  io (OpSqlCreateTable (c_path conn)) (fun _ w =>
    match c_tx conn with
    | Some _ => inr (tt, w)
    | None =>
        match database_of (w_fs w !! c_path conn) with
        | inl e => inl e
        | inr t =>
            inr (tt, set_fs (insert (c_path conn)
                               (Sqlite (Some (default ∅ t)))) w)
        end
    end).

(** [cursor.execute("INSERT OR REPLACE INTO ItemTable (key, value)
    VALUES (?, ?)", (key, value))].  The first such statement opens a
    transaction; the statement changes the working copy only. *)
Definition sql_insert_or_replace (conn : connection) (key : string)
  (value : pyval) : M connection :=
  io (OpSqlUpsert (c_path conn) key value) (fun _ w =>
    match bind_param value with
    | None => inl SqliteError
    | Some sv =>
        match c_tx conn with
        | Some t => inr (Connection (c_path conn) (Some (<[key := sv]> t)), w)
        | None =>
            match database_of (w_fs w !! c_path conn) with
            | inl e => inl e
            | inr None => inl SqliteError
            | inr (Some t) =>
                inr (Connection (c_path conn) (Some (<[key := sv]> t)), w)
            end
        end
    end).

(** [conn.commit()]: the working copy becomes the table. *)
Definition sql_commit (conn : connection) : M connection :=
  io (OpSqlCommit (c_path conn)) (fun _ w =>
    match c_tx conn with
    | Some t =>
        inr (Connection (c_path conn) None,
             set_fs (insert (c_path conn) (Sqlite (Some t))) w)
    | None => inr (conn, w)
    end).

(** [conn.close()]: an open transaction is abandoned. *)
Definition sql_close (conn : connection) : M unit :=
  io (OpSqlClose (c_path conn)) (fun _ w => inr (tt, w)).

(** ** [bypass_version.py] *)

(** [[int(x) for x in parts]]. *)
Fixpoint int_list (parts : list (list ascii)) : outcome (list Z) :=
  match parts with
  | [] => Ret []
  | x :: rest =>
      match PyStr.int_chars x with
      | None => Raise ValueError
      | Some n =>
          match int_list rest with
          | Ret ns => Ret (n :: ns)
          | Raise e => Raise e
          end
      end
  end.

(** The loop of [compare_versions] over [range(max(len(v1_parts),
    len(v2_parts)))]. *)
Fixpoint compare_loop (v1_parts v2_parts : list Z) (range : list nat) : Z :=
  match range with
  | [] => 0
  | i :: rest =>
      let v1 := if (i <? length v1_parts)%nat then nth i v1_parts 0%Z else 0%Z in
      let v2 := if (i <? length v2_parts)%nat then nth i v2_parts 0%Z else 0%Z in
      if (v1 <? v2)%Z then (-1)%Z
      else if (v1 >? v2)%Z then 1%Z
      else compare_loop v1_parts v2_parts rest
  end.

Definition compare_versions (version1 version2 : string) : outcome Z :=
  match int_list (PyStr.split_chars "." (PyStr.chars version1)) with
  | Raise e => Raise e
  | Ret v1_parts =>
      match int_list (PyStr.split_chars "." (PyStr.chars version2)) with
      | Raise e => Raise e
      | Ret v2_parts =>
          Ret (compare_loop v1_parts v2_parts
                 (seq 0 (Nat.max (length v1_parts) (length v2_parts))))
      end
  end.

Section BypassVersion.

(** The path that the platform rules, [config.ini] and, on Linux, the
    probing of the usual locations select for [product.json]; [None]
    when they select none (unsupported system, [LOCALAPPDATA] not set,
    none of the Linux paths present). *)
Variable candidate : env -> world -> option string.

(** [get_product_json_path(translator)]: the selected path, which must
    exist. *)
Definition get_product_json_path : M string :=
  product_json_path <-
    io (OpResolve "product_json_path") (fun E w =>
      match candidate E w with
      | Some p => inr (p, w)
      | None => inl OSError
      end) ;;
  present <- os_path_exists product_json_path ;;
  if negb present then raise OSError else ret product_json_path.

(** [time.strftime("%Y%m%d%H%M%S")]. *)
Definition time_strftime : M string :=
  fun E w => (Ret (e_clock E (w_step w)), w, []).

(** [compare_versions(current_version, bound)] on a value read from a
    file: only a [str] has [split]. *)
Definition compare_with (current_version : pyval) (bound : string)
  : outcome Z :=
  match current_version with
  | PStr v => compare_versions v bound
  | _ => Raise AttributeError
  end.

(** [bypass_version(translator)]. *)
Definition bypass_version : M bool :=
  try_except
    (say "bypass.starting" "" ;;
     product_json_path <- get_product_json_path ;;
     say "bypass.found_product_json" product_json_path ;;
     writable <- os_access product_json_path ;;
     if negb writable then
       say "bypass.no_write_permission" product_json_path ;; ret false
     else
       rd <- attempt (json_load product_json_path) ;;
       match rd with
       | Raise e => say "bypass.read_failed" "" ;; ret false
       | Ret product_data =>
           match product_data with
           | PDict d =>
               let current_version :=
                 dict_get_default "version" (PStr "0.0.0") d in
               v <- fmt current_version ;;
               say "bypass.current_version" v ;;
               c <- lift (compare_with current_version "0.46.0") ;;
               if (c <? 0)%Z then
                 timestamp <- time_strftime ;;
                 let backup_path := product_json_path +:+ "." +:+ timestamp in
                 shutil_copy2 product_json_path backup_path ;;
                 say "bypass.backup_created" backup_path ;;
                 let new_version := "0.48.7" in
                 let product_data :=
                   PDict (dict_set "version" (PStr new_version) d) in
                 try_except
                   (open_write product_json_path ;;
                    json_dump product_json_path product_data ;;
                    say "bypass.version_updated" new_version ;;
                    ret true)
                   (fun e => say "bypass.write_failed" "" ;; ret false)
               else
                 say "bypass.no_update_needed" v ;; ret true
           | _ => raise AttributeError
           end
       end)
    (fun e =>
       say "bypass.bypass_failed" "" ;;
       say "bypass.stack_trace" "" ;;
       ret false).

(** [main(translator)]. *)
Definition main : M bool := bypass_version.

End BypassVersion.

(** ** [reset_machine_manual.py]: version gate *)

Fixpoint skip_digits (s : list ascii) : list ascii :=
  match s with
  | c :: s' => if PyStr.is_digit c then skip_digits s' else s
  | [] => []
  end.

(** [\d+]: at least one digit; returns what follows the digits. *)
Definition digits1 (s : list ascii) : option (list ascii) :=
  match s with
  | c :: s' => if PyStr.is_digit c then Some (skip_digits s') else None
  | [] => None
  end.

(** [\.]: a literal dot. *)
Definition dot (s : list ascii) : option (list ascii) :=
  match s with
  | c :: s' => if Ascii.eqb c "." then Some s' else None
  | [] => None
  end.

(** [re.match(r"^\d+\.\d+\.\d+$", s)]; [$] also matches before a final
    newline. *)
Definition version_pattern (s : string) : bool :=
  match digits1 (PyStr.chars s) with
  | None => false
  | Some r1 =>
  match dot r1 with
  | None => false
  | Some r2 =>
  match digits1 r2 with
  | None => false
  | Some r3 =>
  match dot r3 with
  | None => false
  | Some r4 =>
  match digits1 r4 with
  | None => false
  | Some r5 =>
      match r5 with
      | [] => true
      | [c] => Ascii.eqb c "010"
      | _ => false
      end
  end end end end end.

(** [tuple(map(int, ver.split(".")))]. *)
Definition parse_version (ver : string) : outcome (list Z) :=
  int_list (PyStr.split_chars "." (PyStr.chars ver)).

(** [a < b] and [a > b] on tuples of integers: the first position where
    they differ decides; a proper prefix is smaller. *)
Fixpoint tuple_lt (a b : list Z) : bool :=
  match a, b with
  | [], [] => false
  | [], _ :: _ => true
  | _ :: _, [] => false
  | x :: a', y :: b' => if (x =? y)%Z then tuple_lt a' b' else (x <? y)%Z
  end.

Fixpoint tuple_gt (a b : list Z) : bool :=
  match a, b with
  | [], [] => false
  | [], _ :: _ => false
  | _ :: _, [] => true
  | x :: a', y :: b' => if (x =? y)%Z then tuple_gt a' b' else (x >? y)%Z
  end.

Definition is_empty_str (s : string) : bool := String.eqb s "".

(** [version_check(version, min_version, max_version, translator)].
    [version] is whatever the caller read from [package.json]; matching a
    value that is not a string raises [TypeError] inside the [try]. *)
Definition version_check (version : pyval) (min_version max_version : string)
  : M bool :=
  try_except
    (match version with
     | PStr v =>
         if negb (version_pattern v) then
           say "reset.invalid_version_format" v ;; ret false
         else
           current <- lift (parse_version v) ;;
           too_low <- (if is_empty_str min_version then ret false
                       else (m <- lift (parse_version min_version) ;;
                             ret (tuple_lt current m))) ;;
           if too_low then say "reset.version_too_low" v ;; ret false
           else
             too_high <- (if is_empty_str max_version then ret false
                          else (m <- lift (parse_version max_version) ;;
                                ret (tuple_gt current m))) ;;
             if too_high then say "reset.version_too_high" v ;; ret false
             else ret true
     | _ => raise TypeError
     end)
    (fun e => say "reset.version_check_error" "" ;; ret false).

(** ** [reset_machine_manual.py]: version of the installation *)

(** [data[k]]. *)
Definition subscript (data : pyval) (k : string) : outcome pyval :=
  match data with
  | PDict d =>
      match dict_get k d with
      | Some v => Ret v
      | None => Raise KeyError
      end
  | _ => Raise TypeError
  end.

Definition strip_str (s : string) : string :=
  PyStr.str (PyStr.strip (PyStr.chars s)).

Definition is_json_decode_error (e : exn) : bool :=
  match e with JSONDecodeError => true | _ => false end.

Definition is_unicode_decode_error (e : exn) : bool :=
  match e with UnicodeDecodeError => true | _ => false end.

(** The body of [check_cursor_version] once [pkg_path] is bound. *)
Definition check_cursor_version_body (pkg_path : string) : M bool :=
  say "reset.reading_package_json" pkg_path ;;
  data <- try_except (json_load pkg_path)
            (fun e => if is_unicode_decode_error e then json_load pkg_path
                      else raise e) ;;
  match data with
  | PDict d =>
      match dict_get "version" d with
      | None => say "reset.no_version_field" "" ;; ret false
      | Some ver =>
          v <- fmt ver ;;
          let version := strip_str v in
          if is_empty_str version then
            say "reset.version_field_empty" "" ;; ret false
          else
            say "reset.found_version" version ;;
            if negb (version_pattern version) then
              say "reset.invalid_version_format" version ;; ret false
            else
              try_except
                (current <- lift (parse_version version) ;;
                 let min_ver := [0; 45; 0]%Z in
                 if negb (tuple_lt current min_ver) then
                   say "reset.version_check_passed" version ;; ret true
                 else
                   say "reset.version_too_low" version ;; ret false)
                (fun e => if is_value_error e then
                            say "reset.version_parse_error" "" ;; ret false
                          else raise e)
      end
  | _ => say "reset.invalid_json_object" "" ;; ret false
  end.

(** [check_cursor_version(translator)].  The handler for
    [FileNotFoundError] prints [pkg_path]; when the path resolution
    itself raised that error the name is unbound. *)
Definition check_cursor_version : M bool :=
  r <- attempt get_cursor_paths ;;
  match r with
  | Raise e =>
      if is_file_not_found e then raise UnboundLocalError
      else if is_json_decode_error e then
        say "reset.invalid_json_object" "" ;; ret false
      else
        say "reset.check_version_failed" "" ;;
        say "reset.stack_trace" "" ;; ret false
  | Ret (pkg_path, _) =>
      try_except (check_cursor_version_body pkg_path)
        (fun e =>
           if is_file_not_found e then
             say "reset.package_not_found" pkg_path ;; ret false
           else if is_json_decode_error e then
             say "reset.invalid_json_object" "" ;; ret false
           else
             say "reset.check_version_failed" "" ;;
             say "reset.stack_trace" "" ;; ret false)
  end.

(** ** [reset_machine_manual.py]: the patch engine *)

(** The double quote character. *)
Definition dq : string := String "034" EmptyString.

(** The [patterns] dictionary of [modify_workbench_js], in its order. *)
Definition patterns : list (string * string) :=
  [
  ("B(k,D(Ln,{title:" +:+ dq +:+ "Upgrade to Pro" +:+ dq +:+ ",size:" +:+ dq
   +:+ "small" +:+ dq
   +:+ ",get codicon(){return A.rocket},get onClick(){return t.pay}}"
   +:+ "),null)",
   "B(k,D(Ln,{title:" +:+ dq +:+ "yeongpin GitHub" +:+ dq +:+ ",size:" +:+ dq
   +:+ "small" +:+ dq
   +:+ ",get codicon(){return A.github},get onClick(){return functio"
   +:+ "n(){window.open(" +:+ dq
   +:+ "https://github.com/yeongpin/cursor-free-vip" +:+ dq +:+ "," +:+ dq
   +:+ "_blank" +:+ dq +:+ ")}}}),null)");
  ("M(x,I(as,{title:" +:+ dq +:+ "Upgrade to Pro" +:+ dq +:+ ",size:" +:+ dq
   +:+ "small" +:+ dq
   +:+ ",get codicon(){return $.rocket},get onClick(){return t.pay}}"
   +:+ "),null)",
   "M(x,I(as,{title:" +:+ dq +:+ "yeongpin GitHub" +:+ dq +:+ ",size:" +:+ dq
   +:+ "small" +:+ dq
   +:+ ",get codicon(){return $.rocket},get onClick(){return functio"
   +:+ "n(){window.open(" +:+ dq
   +:+ "https://github.com/yeongpin/cursor-free-vip" +:+ dq +:+ "," +:+ dq
   +:+ "_blank" +:+ dq +:+ ")}}}),null)");
  ("<div>Pro Trial",
   "<div>Pro");
  ("py-1" +:+ dq +:+ ">Auto-select",
   "py-1" +:+ dq +:+ ">Bypass-Version-Pin");
  ("async getEffectiveTokenLimit(e){const n=e.modelName;if(!n)re"
   +:+ "turn 2e5;",
   "async getEffectiveTokenLimit(e){return 9000000;const n=e.mod"
   +:+ "elName;if(!n)return 9e5;");
  ("var DWr=ne(" +:+ dq
   +:+ "<div class=settings__item_description>You are currently sign"
   +:+ "ed in with <strong></strong>." +:+ dq +:+ ");",
   "var DWr=ne(" +:+ dq
   +:+ "<div class=settings__item_description>You are currently sign"
   +:+ "ed in with <strong></strong>. <h1>Pro</h1>" +:+ dq +:+ ");");
  ("notifications-toasts",
   "notifications-toasts hidden")
  ].

(** [for old_pattern, new_pattern in rules.items():
       content = content.replace(old_pattern, new_pattern)]. *)
Definition apply_patterns (rules : list (string * string)) (content : string)
  : string :=
  fold_left (fun c rule => PyStr.replace c (fst rule) (snd rule)) rules content.

Definition is_windows (p : platform) : bool :=
  match p with Windows => true | _ => false end.

(** [modify_workbench_js(file_path, translator)].  The handler looks at
    ["tmp_path" in locals()]: the name is bound by the last statement of
    the [with] block, so the function splits there.  A failure before
    that point reaches the handler with [tmp_path] unbound; afterwards
    the handler unlinks the temporary file and ignores a failing
    unlink. *)
Definition modify_workbench_js (file_path : string) : M bool :=
  r <- attempt
         (os_stat file_path ;;
          tmp_file <- named_temporary_file ;;
          content <- read_text file_path ;;
          let content := apply_patterns patterns content in
          file_write tmp_file content ;;
          ret tmp_file) ;;
  match r with
  | Raise e => say "reset.modify_file_failed" "" ;; ret false
  | Ret tmp_path =>
      try_except
        (timestamp <- now_stamp ;;
         let backup_path := file_path +:+ ".backup." +:+ timestamp in
         shutil_copy2 file_path backup_path ;;
         say "reset.backup_created" backup_path ;;
         present <- os_path_exists file_path ;;
         (if present then os_remove file_path else ret tt) ;;
         shutil_move tmp_path file_path ;;
         os_chmod file_path ;;
         os_name <- sys_platform ;;
         (if is_windows os_name then ret tt else os_chown file_path) ;;
         say "reset.file_modified" "" ;;
         ret true)
        (fun e =>
           say "reset.modify_file_failed" "" ;;
           try_except (os_remove tmp_path) (fun _ => ret tt) ;;
           ret false)
  end.

(** The two [re.sub] calls of [modify_main_js]. *)
Definition re_sub_machine_id (content : string) : M string :=
  fun E w => (Ret (e_main_js_sub E content), w, []).

(** [modify_main_js(main_path, translator)]: the same scheme with the two
    regular-expression rewrites; the original is not removed before the
    move and the unlink in the handler is not guarded. *)
Definition modify_main_js (main_path : string) : M bool :=
  r <- attempt
         (os_stat main_path ;;
          tmp_file <- named_temporary_file ;;
          content <- read_text main_path ;;
          content <- re_sub_machine_id content ;;
          file_write tmp_file content ;;
          ret tmp_file) ;;
  match r with
  | Raise e => say "reset.modify_file_failed" "" ;; ret false
  | Ret tmp_path =>
      try_except
        (timestamp <- now_stamp ;;
         let backup_path := main_path +:+ ".old." +:+ timestamp in
         shutil_copy2 main_path backup_path ;;
         say "reset.backup_created" backup_path ;;
         shutil_move tmp_path main_path ;;
         os_chmod main_path ;;
         os_name <- sys_platform ;;
         (if is_windows os_name then ret tt else os_chown main_path) ;;
         say "reset.file_modified" "" ;;
         ret true)
        (fun e =>
           say "reset.modify_file_failed" "" ;;
           os_remove tmp_path ;;
           ret false)
  end.

(** The loop of [patch_cursor_get_machine_id] over [[pkg_path,
    main_path]]: [false] as soon as a file is missing or not writable. *)
Fixpoint check_writable (files : list string) : M bool :=
  match files with
  | [] => ret true
  | file_path :: rest =>
      is_file <- os_path_exists file_path ;;
      if negb is_file then say "reset.file_not_found" file_path ;; ret false
      else
        writable <- os_access file_path ;;
        if negb writable then
          say "reset.no_write_permission" file_path ;; ret false
        else check_writable rest
  end.

(** [patch_cursor_get_machine_id(translator)]. *)
Definition patch_cursor_get_machine_id : M bool :=
  try_except
    (say "reset.start_patching" "" ;;
     paths <- get_cursor_paths ;;
     let pkg_path := fst paths in
     let main_path := snd paths in
     ok <- check_writable [pkg_path; main_path] ;;
     if negb ok then ret false
     else
       rv <- attempt
               (data <- json_load pkg_path ;;
                version <- lift (subscript data "version") ;;
                v <- fmt version ;;
                say "reset.current_version" v ;;
                ret version) ;;
       match rv with
       | Raise e => say "reset.read_version_failed" "" ;; ret false
       | Ret version =>
           ok <- version_check version "0.45.0" "" ;;
           if negb ok then say "reset.version_not_supported" "" ;; ret false
           else
             say "reset.version_check_passed" "" ;;
             timestamp <- now_stamp ;;
             let backup_path := main_path +:+ ".bak." +:+ timestamp in
             present <- os_path_exists backup_path ;;
             (if negb present then
                shutil_copy2 main_path backup_path ;;
                say "reset.backup_created" backup_path
              else ret tt) ;;
             ok <- modify_main_js main_path ;;
             if negb ok then ret false
             else say "reset.patch_completed" "" ;; ret true
       end)
    (fun e => say "reset.patch_failed" "" ;; ret false).

(** ** [reset_machine_manual.py]: class [MachineIDResetter] *)

(** The attributes [__init__] sets on [self]. *)
Record storage_paths : Type := {
  db_path : string;
  sqlite_path : string
}.

(** [uuid.uuid4()], as its integer. *)
Definition uuid4 : M Z :=
  bs <- os_urandom 16 ;; ret (Uuid.uuid4_int bs).

Definition cryptography_key : string := "SOFTWARE\Microsoft\Cryptography".
Definition sqm_client_key : string := "SOFTWARE\Microsoft\SQMClient".
Definition platform_uuid_plist : string :=
  "/var/root/Library/Preferences/SystemConfiguration/com.apple.platform.uuid.plist".

(** The [plutil] command line of both classes. *)
Definition plutil_cmd (mac_id : string) : string :=
  "sudo plutil -replace " +:+ dq +:+ "UUID" +:+ dq +:+ " -string " +:+ dq
  +:+ mac_id +:+ dq +:+ " " +:+ dq +:+ platform_uuid_plist +:+ dq.

(** [config.update(new_ids)]: only a [dict] has [update]. *)
Definition py_update (config : pyval) (new_ids : pydict) : outcome pyval :=
  match config with
  | PDict d => Ret (PDict (dict_update d new_ids))
  | _ => Raise AttributeError
  end.

Module MachineIDResetter.

(** [self.update_machine_id_file(machine_id)]. *)
Definition update_machine_id_file (self : storage_paths) (machine_id : string)
  : M bool :=
  try_except
    (machine_id_path <- get_cursor_machine_id_path ;;
     os_makedirs_for machine_id_path ;;
     present <- os_path_exists machine_id_path ;;
     (if present then
        timestamp <- now_stamp ;;
        let backup_path := machine_id_path +:+ ".backup." +:+ timestamp in
        try_except
          (shutil_copy2 machine_id_path backup_path ;;
           say "reset.backup_created" backup_path)
          (fun e => say "reset.backup_creation_failed" "")
      else ret tt) ;;
     open_write machine_id_path ;;
     file_write machine_id_path machine_id ;;
     say "reset.update_success" "" ;;
     ret true)
    (fun e => say "reset.update_failed" "" ;; ret false).

(** [self.generate_new_ids()]. *)
Definition generate_new_ids (self : storage_paths) : M pydict :=
  u <- uuid4 ;;
  let dev_device_id := Uuid.uuid_str u in
  seed <- os_urandom 32 ;;
  let machine_id := Hashlib.hexdigest (Hashlib.sha256 seed) in
  seed <- os_urandom 64 ;;
  let mac_machine_id := Hashlib.hexdigest (Hashlib.sha512 seed) in
  u <- uuid4 ;;
  let sqm_id := "{" +:+ PyStr.upper (Uuid.uuid_str u) +:+ "}" in
  update_machine_id_file self dev_device_id ;;
  ret [ ("telemetry.devDeviceId", PStr dev_device_id);
        ("telemetry.macMachineId", PStr mac_machine_id);
        ("telemetry.machineId", PStr machine_id);
        ("telemetry.sqmId", PStr sqm_id);
        ("storage.serviceMachineId", PStr dev_device_id) ].

(** The loop of [update_sqlite_db] over [updates]. *)
Fixpoint upsert_all (conn : connection) (updates : pydict) : M connection :=
  match updates with
  | [] => ret conn
  | (key, value) :: rest =>
      conn <- sql_insert_or_replace conn key value ;;
      say "reset.updating_pair" key ;;
      upsert_all conn rest
  end.

(** [self.update_sqlite_db(new_ids)]. *)
Definition update_sqlite_db (self : storage_paths) (new_ids : pydict)
  : M bool :=
  try_except
    (say "reset.updating_sqlite" "" ;;
     conn <- sqlite3_connect (sqlite_path self) ;;
     sql_create_table conn ;;
     let updates := new_ids in
     conn <- upsert_all conn updates ;;
     conn <- sql_commit conn ;;
     sql_close conn ;;
     say "reset.sqlite_success" "" ;;
     ret true)
    (fun e => say "reset.sqlite_error" "" ;; ret false).

Definition _update_windows_machine_guid : M unit :=
  try_except
    (winreg_open_key cryptography_key ;;
     u <- uuid4 ;;
     let new_guid := Uuid.uuid_str u in
     winreg_set_value cryptography_key "MachineGuid" (PStr new_guid) ;;
     say "reset.windows_machine_guid_updated" "")
    (fun e =>
       if is_permission_error e then
         say "reset.permission_denied" "" ;; raise e
       else
         say "reset.update_windows_machine_guid_failed" "" ;; raise e).

Definition _update_windows_machine_id : M bool :=
  try_except
    (u <- uuid4 ;;
     let new_guid := "{" +:+ PyStr.upper (Uuid.uuid_str u) +:+ "}" in
     say "reset.new_machine_id" new_guid ;;
     try_except (winreg_open_key sqm_client_key)
       (fun e => if is_file_not_found e then winreg_create_key sqm_client_key
                 else raise e) ;;
     winreg_set_value sqm_client_key "MachineId" (PStr new_guid) ;;
     say "reset.windows_machine_id_updated" "" ;;
     ret true)
    (fun e =>
       if is_permission_error e then
         say "reset.permission_denied" "" ;;
         say "reset.run_as_admin" "" ;; ret false
       else
         say "reset.update_windows_machine_id_failed" "" ;; ret false).

Definition _update_macos_platform_uuid (new_ids : pydict) : M unit :=
  try_except
    (present <- os_path_exists platform_uuid_plist ;;
     if present then
       mac_id <- lift (subscript (PDict new_ids) "telemetry.macMachineId") ;;
       mac_id <- fmt mac_id ;;
       result <- os_system (plutil_cmd mac_id) ;;
       if (result =? 0)%Z then say "reset.macos_platform_uuid_updated" ""
       else raise Exception
     else ret tt)
    (fun e => say "reset.update_macos_platform_uuid_failed" "" ;; raise e).

(** [self.update_system_ids(new_ids)]. *)
Definition update_system_ids (self : storage_paths) (new_ids : pydict)
  : M bool :=
  try_except
    (say "reset.updating_system_ids" "" ;;
     p <- sys_platform ;;
     match p with
     | Windows => _update_windows_machine_guid ;;
                  _update_windows_machine_id ;; ret tt
     | Darwin => _update_macos_platform_uuid new_ids
     | Linux => ret tt
     end ;;
     say "reset.system_ids_updated" "" ;;
     ret true)
    (fun e => say "reset.system_ids_update_failed" "" ;; ret false).

(** [self.reset_machine_ids()]. *)
Definition reset_machine_ids (self : storage_paths) : M bool :=
  try_except
    (say "reset.checking" "" ;;
     present <- os_path_exists (db_path self) ;;
     if negb present then say "reset.not_found" (db_path self) ;; ret false
     else
       accessible <- os_access (db_path self) ;;
       if negb accessible then say "reset.no_permission" "" ;; ret false
       else
         say "reset.reading" "" ;;
         config <- json_load (db_path self) ;;
         timestamp <- now_stamp ;;
         let backup_path := db_path self +:+ ".bak." +:+ timestamp in
         say "reset.creating_backup" backup_path ;;
         shutil_copy2 (db_path self) backup_path ;;
         say "reset.generating" "" ;;
         new_ids <- generate_new_ids self ;;
         config <- lift (py_update config new_ids) ;;
         say "reset.saving_json" "" ;;
         open_write (db_path self) ;;
         json_dump (db_path self) config ;;
         update_sqlite_db self new_ids ;;
         update_system_ids self new_ids ;;
         workbench_path <- get_workbench_cursor_path ;;
         modify_workbench_js workbench_path ;;
         greater_than_0_45 <- check_cursor_version ;;
         (if greater_than_0_45 then
            say "reset.patching_getmachineid" "" ;;
            patch_cursor_get_machine_id ;; ret tt
          else say "reset.version_less_than_0_45" "") ;;
         say "reset.success" "" ;;
         say "reset.new_id" "" ;;
         for_each new_ids (fun kv => v <- fmt (snd kv) ;; say (fst kv) v) ;;
         ret true)
    (fun e =>
       if is_permission_error e then
         say "reset.permission_error" "" ;;
         say "reset.run_as_admin" "" ;; ret false
       else say "reset.process_error" "" ;; ret false).

End MachineIDResetter.

(** ** [restore_machine_id.py]: class [MachineIDRestorer] *)

Module MachineIDRestorer.

(** [backups.sort(key=os.path.getctime, reverse=True)]: a stable sort,
    newest first; [insert_by_ctime] puts a path in front of the first
    path that is not newer. *)
Fixpoint insert_by_ctime (ctime : string -> Z) (x : string) (l : list string)
  : list string :=
  match l with
  | [] => [x]
  | y :: l' =>
      if (ctime y <=? ctime x)%Z then x :: y :: l'
      else y :: insert_by_ctime ctime x l'
  end.

Definition sort_newest_first (ctime : string -> Z) (l : list string)
  : list string :=
  fold_right (insert_by_ctime ctime) [] l.

(** [self.find_backups()]: [glob.glob] over [<db_path>.bak.*], the result
    of the directory scan being the environment's. *)
Definition find_backups (self : storage_paths) : M (list string) :=
  fun E w =>
    (Ret (sort_newest_first (e_ctime E)
            (e_glob E (db_path self +:+ ".bak.*"))), w, []).

(** [self.list_backups()]; [None] when there is no backup. *)
Definition list_backups (self : storage_paths) : M (option (list string)) :=
  backups <- find_backups self ;;
  match backups with
  | [] => say "restore.no_backups_found" "" ;; ret None
  | _ :: _ =>
      say "restore.available_backups" "" ;;
      for_each backups (fun backup =>
        os_getsize backup ;; say "restore.backup_entry" backup) ;;
      ret (Some backups)
  end.

(** One round of the [while True] loop of [select_backup]: [Some r] when
    the round returns [r], [None] when the loop goes round again. *)
Definition select_round (backups : list string) : M (option (option string)) :=
  try_except
    (choice <- input_ ;;
     if String.eqb (strip_str choice) "0" then
       say "restore.operation_cancelled" "" ;; ret (Some None)
     else
       match PyStr.int_chars (PyStr.chars choice) with
       | None => raise ValueError
       | Some n =>
           let index := (n - 1)%Z in
           if (0 <=? index)%Z && (index <? Z.of_nat (length backups))%Z then
             ret (Some (nth_error backups (Z.to_nat index)))
           else say "restore.invalid_selection" "" ;; ret None
       end)
    (fun e => if is_value_error e then
                say "restore.please_enter_number" "" ;; ret None
              else raise e).

(** The loop; every round that goes round again has read a line, so
    [fuel] above the number of lines left is never used up. *)
Fixpoint select_loop (fuel : nat) (backups : list string)
  : M (option string) :=
  match fuel with
  | O => raise EOFError
  | S fuel' =>
      r <- select_round backups ;;
      match r with
      | Some result => ret result
      | None => select_loop fuel' backups
      end
  end.

(** [self.select_backup()]. *)
Definition select_backup (self : storage_paths) : M (option string) :=
  backups <- list_backups self ;;
  match backups with
  | None => ret None
  | Some backups =>
      fun E w => select_loop (S (length (w_stdin w))) backups E w
  end.

(** The keys of the identity set, in the order of the [ids] literal. *)
Definition identity_keys : list string :=
  [ "telemetry.devDeviceId"; "telemetry.macMachineId"; "telemetry.machineId";
    "telemetry.sqmId"; "storage.serviceMachineId" ].

(** The [ids] dictionary [extract_ids_from_backup] builds. *)
Definition extract_ids (backup_data : pydict) : pydict :=
  [ ("telemetry.devDeviceId",
       dict_get_default "telemetry.devDeviceId" (PStr "") backup_data);
    ("telemetry.macMachineId",
       dict_get_default "telemetry.macMachineId" (PStr "") backup_data);
    ("telemetry.machineId",
       dict_get_default "telemetry.machineId" (PStr "") backup_data);
    ("telemetry.sqmId",
       dict_get_default "telemetry.sqmId" (PStr "") backup_data);
    ("storage.serviceMachineId",
       dict_get_default "storage.serviceMachineId"
         (dict_get_default "telemetry.devDeviceId" (PStr "") backup_data)
         backup_data) ].

(** [self.extract_ids_from_backup(backup_path)]; [None] on failure. *)
Definition extract_ids_from_backup (self : storage_paths) (backup_path : string)
  : M (option pydict) :=
  try_except
    (backup_data <- json_load backup_path ;;
     match backup_data with
     | PDict d =>
         let ids := extract_ids d in
         for_each ids (fun kv =>
           if negb (truthy (snd kv)) then say "restore.missing_id" (fst kv)
           else ret tt) ;;
         ret (Some ids)
     | _ => raise AttributeError
     end)
    (fun e => say "restore.read_backup_failed" "" ;; ret None).

(** [self.update_current_file(ids)]. *)
Definition update_current_file (self : storage_paths) (ids : pydict) : M bool :=
  try_except
    (present <- os_path_exists (db_path self) ;;
     if negb present then
       say "restore.current_file_not_found" (db_path self) ;; ret false
     else
       current_data <- json_load (db_path self) ;;
       timestamp <- now_stamp ;;
       let backup_path := db_path self +:+ ".restore_bak." +:+ timestamp in
       shutil_copy2 (db_path self) backup_path ;;
       say "restore.current_backup_created" backup_path ;;
       current_data <- lift (py_update current_data ids) ;;
       open_write (db_path self) ;;
       json_dump (db_path self) current_data ;;
       say "restore.storage_updated" "" ;;
       ret true)
    (fun e => say "restore.update_failed" "" ;; ret false).

Fixpoint upsert_all (conn : connection) (ids : pydict) : M connection :=
  match ids with
  | [] => ret conn
  | (key, value) :: rest =>
      conn <- sql_insert_or_replace conn key value ;;
      say "restore.updating_pair" key ;;
      upsert_all conn rest
  end.

(** [self.update_sqlite_db(ids)]. *)
Definition update_sqlite_db (self : storage_paths) (ids : pydict) : M bool :=
  try_except
    (present <- os_path_exists (sqlite_path self) ;;
     if negb present then
       say "restore.sqlite_not_found" (sqlite_path self) ;; ret false
     else
       say "restore.updating_sqlite" "" ;;
       conn <- sqlite3_connect (sqlite_path self) ;;
       sql_create_table conn ;;
       conn <- upsert_all conn ids ;;
       conn <- sql_commit conn ;;
       sql_close conn ;;
       say "restore.sqlite_updated" "" ;;
       ret true)
    (fun e => say "restore.sqlite_update_failed" "" ;; ret false).

(** [f.write(v)]: only a [str] can be written to a text file. *)
Definition file_write_value (path : string) (v : pyval) : M unit :=
  match v with
  | PStr s => file_write path s
  | _ => raise TypeError
  end.

(** [self.update_machine_id_file(dev_device_id)]. *)
Definition update_machine_id_file (self : storage_paths)
  (dev_device_id : pyval) : M bool :=
  try_except
    (machine_id_path <- get_cursor_machine_id_path ;;
     os_makedirs_for machine_id_path ;;
     present <- os_path_exists machine_id_path ;;
     (if present then
        timestamp <- now_stamp ;;
        let backup_path := machine_id_path +:+ ".restore_bak." +:+ timestamp in
        try_except
          (shutil_copy2 machine_id_path backup_path ;;
           say "restore.machine_id_backup_created" backup_path)
          (fun e => say "restore.backup_creation_failed" "")
      else ret tt) ;;
     open_write machine_id_path ;;
     file_write_value machine_id_path dev_device_id ;;
     say "restore.machine_id_updated" "" ;;
     ret true)
    (fun e => say "restore.machine_id_update_failed" "" ;; ret false).

Definition _update_windows_system_ids (ids : pydict) : M unit :=
  try_except
    (let guid := dict_get_default "telemetry.devDeviceId" (PStr "") ids in
     (if truthy guid then
        try_except
          (winreg_open_key cryptography_key ;;
           winreg_set_value cryptography_key "MachineGuid" guid ;;
           say "restore.windows_machine_guid_updated" "")
          (fun e =>
             if is_permission_error e then say "restore.permission_denied" ""
             else say "restore.update_windows_machine_guid_failed" "")
      else ret tt) ;;
     let sqm_id := dict_get_default "telemetry.sqmId" (PStr "") ids in
     if truthy sqm_id then
       try_except
         (winreg_open_key sqm_client_key ;;
          winreg_set_value sqm_client_key "MachineId" sqm_id ;;
          say "restore.windows_machine_id_updated" "")
         (fun e =>
            if is_file_not_found e then
              say "restore.sqm_client_key_not_found" ""
            else if is_permission_error e then
              say "restore.permission_denied" ""
            else say "restore.update_windows_machine_id_failed" "")
     else ret tt)
    (fun e => say "restore.update_windows_system_ids_failed" "").

Definition _update_macos_system_ids (ids : pydict) : M unit :=
  try_except
    (present <- os_path_exists platform_uuid_plist ;;
     if present then
       let mac_id := dict_get_default "telemetry.macMachineId" (PStr "") ids in
       if truthy mac_id then
         mac_id <- fmt mac_id ;;
         result <- os_system (plutil_cmd mac_id) ;;
         if (result =? 0)%Z then say "restore.macos_platform_uuid_updated" ""
         else say "restore.failed_to_execute_plutil_command" ""
       else ret tt
     else ret tt)
    (fun e => say "restore.update_macos_system_ids_failed" "").

(** [self.update_system_ids(ids)]. *)
Definition update_system_ids (self : storage_paths) (ids : pydict) : M bool :=
  try_except
    (say "restore.updating_system_ids" "" ;;
     p <- sys_platform ;;
     match p with
     | Windows => _update_windows_system_ids ids
     | Darwin => _update_macos_system_ids ids
     | Linux => ret tt
     end ;;
     ret true)
    (fun e => say "restore.system_ids_update_failed" "" ;; ret false).

(** [self.restore_machine_ids()]. *)
Definition restore_machine_ids (self : storage_paths) : M bool :=
  try_except
    (say "restore.starting" "" ;;
     backup_path <- select_backup self ;;
     match backup_path with
     | None => ret false
     | Some backup_path =>
         if is_empty_str backup_path then ret false
         else
           ids <- extract_ids_from_backup self backup_path ;;
           match ids with
           | None => ret false
           | Some ids =>
               say "restore.ids_to_restore" "" ;;
               for_each ids (fun kv => v <- fmt (snd kv) ;; say (fst kv) v) ;;
               confirm <- input_ ;;
               if negb (String.eqb (PyStr.lower confirm) "y") then
                 say "restore.operation_cancelled" "" ;; ret false
               else
                 ok <- update_current_file self ids ;;
                 if negb ok then ret false
                 else
                   update_sqlite_db self ids ;;
                   update_machine_id_file self
                     (dict_get_default "telemetry.devDeviceId" (PStr "") ids) ;;
                   update_system_ids self ids ;;
                   say "restore.success" "" ;;
                   ret true
           end
     end)
    (fun e => say "restore.process_error" "" ;; ret false).

End MachineIDRestorer.

(** * Vocabulary of the properties *)

(** ** Patch rules *)

(** No search text of [rules] occurs in [content]. *)
Definition none_occurs (rules : list (string * string)) (content : string)
  : bool :=
  forallb (fun rule => negb (PyStr.contains content (fst rule))) rules.

(** ** Runs *)

(** [after m E w Q]: the run of [m] from [w] ends in an outcome, a world
    and a trace that satisfy [Q]. *)
Definition after {A} (m : M A) (E : env) (w : world)
  (Q : outcome A -> world -> list event -> Prop) : Prop :=
  Q (result_of (m E w)) (world_of (m E w)) (trace_of (m E w)).

(** ** Sample environments and worlds *)

(** A Linux installation where nothing goes wrong. *)
Definition quiet_env : env := {|
  e_platform := Linux;
  e_faults := fun _ => None;
  e_entropy := fun n i => Hashlib.byte_of_Z (Z.of_nat (7 * n + i));
  e_clock := fun _ => "20240101_120000";
  e_tmpname := fun _ => "/tmp/tmpk3x9";
  e_access := fun _ => true;
  e_exit_code := fun _ => 0%Z;
  e_glob := fun _ => [];
  e_ctime := fun _ => 0%Z;
  e_machine_id_path := Some "/home/u/.config/cursor/machineid";
  e_workbench_path := Some "/opt/Cursor/workbench.desktop.main.js";
  e_cursor_paths := Some ("/opt/Cursor/package.json", "/opt/Cursor/out/main.js");
  e_raw_text := fun _ => "";
  e_str := fun _ => "";
  e_main_js_sub := fun content => content
|}.

(** [E] with the [n]-th operation failing with [e]. *)
Definition failing_at (n : nat) (e : exn) (E : env) : env := {|
  e_platform := e_platform E;
  e_faults := fun k => if Nat.eqb k n then Some e else e_faults E k;
  e_entropy := e_entropy E;
  e_clock := e_clock E;
  e_tmpname := e_tmpname E;
  e_access := e_access E;
  e_exit_code := e_exit_code E;
  e_glob := e_glob E;
  e_ctime := e_ctime E;
  e_machine_id_path := e_machine_id_path E;
  e_workbench_path := e_workbench_path E;
  e_cursor_paths := e_cursor_paths E;
  e_raw_text := e_raw_text E;
  e_str := e_str E;
  e_main_js_sub := e_main_js_sub E
|}.

Definition workbench_js : string := "/opt/Cursor/workbench.desktop.main.js".

(** A bundle file with one badge to patch. *)
Definition bundle_world : world :=
  World {[ workbench_js := Text "<div>Pro Trial</div>" ]} 0 [].

(** The warnings [extract_ids_from_backup] prints for [ids]. *)
Definition missing_id_warnings (ids : pydict) : list event :=
  map (fun kv => Print "restore.missing_id" (fst kv))
      (List.filter (fun kv => negb (truthy (snd kv))) ids).

Definition storage : storage_paths := {|
  db_path := "/home/u/.config/Cursor/storage.json";
  sqlite_path := "/home/u/.config/Cursor/state.vscdb"
|}.

Definition old_backup : string :=
  "/home/u/.config/Cursor/storage.json.bak.20231224_080000".

(** A storage file with one foreign key, and a backup whose identity
    fields are empty; the user types [1] and [y]. *)
Definition restore_world : world :=
  World {[ db_path storage :=
             Json (PDict [("foo", PStr "bar");
                          ("telemetry.machineId", PStr "abc")]);
           old_backup :=
             Json (PDict [("telemetry.devDeviceId", PStr "");
                          ("telemetry.macMachineId", PStr "");
                          ("telemetry.machineId", PStr "");
                          ("telemetry.sqmId", PStr "")]) ]}
        0 ["1"; "y"].

(** [quiet_env] with the directory scan finding [old_backup]. *)
Definition restore_env : env := {|
  e_platform := Linux;
  e_faults := fun _ => None;
  e_entropy := e_entropy quiet_env;
  e_clock := e_clock quiet_env;
  e_tmpname := e_tmpname quiet_env;
  e_access := fun _ => true;
  e_exit_code := fun _ => 0%Z;
  e_glob := fun _ => [old_backup];
  e_ctime := fun _ => 0%Z;
  e_machine_id_path := e_machine_id_path quiet_env;
  e_workbench_path := e_workbench_path quiet_env;
  e_cursor_paths := e_cursor_paths quiet_env;
  e_raw_text := fun _ => "";
  e_str := fun _ => "";
  e_main_js_sub := fun content => content
|}.

(** A storage file with one foreign key. *)
Definition storage_world : world :=
  World {[ db_path storage := Json (PDict [("foo", PStr "bar")]) ]} 0 [].

(** The identity set whose five values are empty strings. *)
Definition empty_ids : pydict :=
  map (fun k => (k, PStr "")) MachineIDRestorer.identity_keys.

(** ** Traces *)

(** Every event [m] emits, in whatever environment and world, satisfies
    [P]. *)
Definition emits_only {A} (P : event -> Prop) (m : M A) : Prop :=
  forall E w, List.Forall P (trace_of (m E w)).

(** The operations on the database. *)
Definition is_sql_op (o : op) : bool :=
  match o with
  | OpSqlConnect _ | OpSqlCreateTable _ | OpSqlUpsert _ _ _
  | OpSqlCommit _ | OpSqlClose _ => true
  | _ => false
  end.

(** An event of a database operation, completed or failed. *)
Definition db_attempt (ev : event) : bool :=
  match ev with
  | Did o | Failed o _ => is_sql_op o
  | Print _ _ => false
  end.

Definition is_json_dump (ev : event) : bool :=
  match ev with
  | Did (OpJsonDump _ _) => true
  | _ => false
  end.

(** [t] scanned from its start: a completed dump of [path] comes before
    any database operation. *)
Fixpoint dump_first_b (path : string) (t : list event) : bool :=
  match t with
  | [] => true
  | ev :: t' =>
      match ev with
      | Did (OpJsonDump p _) =>
          if String.eqb p path then true else dump_first_b path t'
      | _ => if db_attempt ev then false else dump_first_b path t'
      end
  end.

(** ** Identity sets *)

(** What [os.urandom(n)] returns at operation [s]. *)
Definition urandom_at (E : env) (s n : nat) : list byte :=
  map (e_entropy E s) (seq 0 n).

(** The identity set built from the four random draws. *)
Definition identity_set (dev seed256 seed512 sqm : list byte) : pydict :=
  let dev_device_id := Uuid.uuid_str (Uuid.uuid4_int dev) in
  [ ("telemetry.devDeviceId", PStr dev_device_id);
    ("telemetry.macMachineId",
       PStr (Hashlib.hexdigest (Hashlib.sha512 seed512)));
    ("telemetry.machineId", PStr (Hashlib.hexdigest (Hashlib.sha256 seed256)));
    ("telemetry.sqmId",
       PStr ("{" +:+ PyStr.upper (Uuid.uuid_str (Uuid.uuid4_int sqm)) +:+ "}"));
    ("storage.serviceMachineId", PStr dev_device_id) ].

Definition reset_keys : list string :=
  [ "telemetry.devDeviceId"; "telemetry.macMachineId"; "telemetry.machineId";
    "telemetry.sqmId"; "storage.serviceMachineId" ].


(** ** The database *)

(** The rows of [ItemTable] that a reader of the database file sees: none
    while the file or the table does not exist. *)
Definition rows_of (d : option fdata) : gmap string sqlval :=
  match database_of d with
  | inr (Some t) => t
  | _ => ∅
  end.

(** All upserts of [ids] applied to the table [t], in their order; [None]
    when a value cannot be bound. *)
Fixpoint upsert_rows (ids : pydict) (t : gmap string sqlval)
  : option (gmap string sqlval) :=
  match ids with
  | [] => Some t
  | (key, value) :: rest =>
      match bind_param value with
      | Some sv => upsert_rows rest (<[key := sv]> t)
      | None => None
      end
  end.

(** The table as a connection sees it, [t0] being the table in the
    file. *)
Definition seen (conn : connection) (t0 : gmap string sqlval)
  : gmap string sqlval :=
  default t0 (c_tx conn).

Definition upsert_failed (ev : event) : bool :=
  match ev with
  | Failed (OpSqlUpsert _ _ _) _ => true
  | _ => false
  end.

(** A database with one row of its own. *)
Definition database_world : world :=
  World {[ sqlite_path storage :=
             Sqlite (Some {[ "foo" := SqlText "bar" ]}) ]} 0 [].

Definition two_ids : pydict :=
  [("telemetry.machineId", PStr "m1"); ("telemetry.sqmId", PStr "s1")].

(** ** Formats of the identity values *)

Definition is_lower_hex (c : ascii) : bool :=
  existsb (Ascii.eqb c) (PyStr.chars "0123456789abcdef").

Definition is_upper_hex (c : ascii) : bool :=
  existsb (Ascii.eqb c) (PyStr.chars "0123456789ABCDEF").

(** [n] digits at the head of [cs]: what follows them. *)
Fixpoint take_digits (digit : ascii -> bool) (n : nat) (cs : list ascii)
  : option (list ascii) :=
  match n, cs with
  | O, _ => Some cs
  | S n', c :: cs' => if digit c then take_digits digit n' cs' else None
  | S _, [] => None
  end.

(** Groups of digits of the given sizes, separated by hyphens. *)
Fixpoint digit_groups (digit : ascii -> bool) (sizes : list nat)
  (cs : list ascii) : bool :=
  match sizes with
  | [] => false
  | [n] =>
      match take_digits digit n cs with
      | Some [] => true
      | _ => false
      end
  | n :: rest =>
      match take_digits digit n cs with
      | Some ("-"%char :: cs') => digit_groups digit rest cs'
      | _ => false
      end
  end.

(** The textual form of a UUID: 8-4-4-4-12 hexadecimal digits. *)
Definition is_uuid_text (s : string) : bool :=
  digit_groups is_lower_hex [8; 4; 4; 4; 12]%nat (PyStr.chars s).

(** Exactly [n] lowercase hexadecimal characters. *)
Definition is_lower_hex_of_length (n : nat) (s : string) : bool :=
  Nat.eqb (length (PyStr.chars s)) n && forallb is_lower_hex (PyStr.chars s).

(** An uppercase UUID between braces. *)
Definition is_braced_upper_uuid (s : string) : bool :=
  match PyStr.chars s with
  | "{"%char :: cs =>
      match rev cs with
      | "}"%char :: body =>
          digit_groups is_upper_hex [8; 4; 4; 4; 12]%nat (rev body)
      | _ => false
      end
  | _ => false
  end.

(** The grouping of [uuid_str], for any 32 digits [g 0 .. g 31]. *)
Definition grouped (hex : list ascii) : list ascii :=
  let dash := ["-"%char] in
  firstn 8 hex ++ dash ++ firstn 4 (skipn 8 hex) ++ dash
  ++ firstn 4 (skipn 12 hex) ++ dash
  ++ firstn 4 (skipn 16 hex) ++ dash ++ skipn 20 hex.

(** The identity set that [hashlib] and [uuid] give for the draws of
    [quiet_env]. *)
Definition sample_ids : pydict :=
  [ ("telemetry.devDeviceId", PStr "00010203-0405-4607-8809-0a0b0c0d0e0f");
    ("telemetry.macMachineId",
       PStr "6bac1019e71e49b6b9d5e8c1e94aac4bb0a0fe099d6e5f3f64e860e71585f0bc2e22e00d1046e1567704becb0fff065799e25ab706ea8020065af9878e882b27");
    ("telemetry.machineId",
       PStr "ce43f3395c4c07e8448c723936759a5613f1dc518912267543ccac6e945ae75b");
    ("telemetry.sqmId", PStr "{15161718-191A-4B1C-9D1E-1F2021222324}");
    ("storage.serviceMachineId",
       PStr "00010203-0405-4607-8809-0a0b0c0d0e0f") ].

Definition machine_id_file : string := "/home/u/.config/cursor/machineid".

(** ** Version order *)

(** Numeric order, component by component, of two lists of numbers: the
    shorter list is padded with zeros, the first difference decides. *)
Definition pad_zero (n : nat) (l : list Z) : list Z :=
  l ++ repeat 0%Z (n - length l).

Fixpoint first_difference (a b : list Z) : Z :=
  match a, b with
  | x :: a', y :: b' =>
      if (x <? y)%Z then (-1)%Z
      else if (y <? x)%Z then 1%Z
      else first_difference a' b'
  | _, _ => 0%Z
  end.

Definition numeric_order (a b : list Z) : Z :=
  let n := Nat.max (length a) (length b) in
  first_difference (pad_zero n a) (pad_zero n b).

(** The range check in terms of [compare_versions]: not below a given
    minimum, not above a given maximum. *)
Definition compares_as (c : Z) (v bound : string) : bool :=
  match compare_versions v bound with
  | Ret c' => (c' =? c)%Z
  | Raise _ => false
  end.

Definition in_range (v min_version max_version : string) : bool :=
  negb (negb (is_empty_str min_version) && compares_as (-1) v min_version)
  && negb (negb (is_empty_str max_version) && compares_as 1 v max_version).

(** ** The installation, the platform and the backups *)

(** What [check_cursor_version] does besides printing: it resolves the
    paths and loads [package.json]. *)
Definition reads_package (E : env) (ev : event) : Prop :=
  match ev with
  | Print _ _ => True
  | Did o | Failed o _ =>
      o = OpResolve "cursor_paths"
      \/ exists pkg main,
           e_cursor_paths E = Some (pkg, main) /\ o = OpJsonLoad pkg
  end.

(** What makes [check_cursor_version] pass: [package.json] holds an
    object whose [version], as a string and stripped, matches the pattern
    and is not below 0.45.0. *)
Definition version_passes (E : env) (w : world) : Prop :=
  exists pkg main d ver cur,
    e_cursor_paths E = Some (pkg, main)
    /\ w_fs w !! pkg = Some (Json (PDict d))
    /\ dict_get "version" d = Some ver
    /\ version_pattern (strip_str (py_str E ver)) = true
    /\ parse_version (strip_str (py_str E ver)) = Ret cur
    /\ tuple_lt cur [0; 45; 0]%Z = false.

Definition main_js : string := "/opt/Cursor/out/main.js".

(** An installation whose [package.json] gives version 0.46.2. *)
Definition package_world : world :=
  World {[ "/opt/Cursor/package.json" :=
             Json (PDict [("name", PStr "cursor");
                          ("version", PStr "0.46.2")]);
           main_js := Text "async getMachineId(){return a??b}" ]} 0 [].

(** [E] with [rewrite] for the two [re.sub] calls. *)
Definition rewriting_with (rewrite : string -> string) (E : env) : env := {|
  e_platform := e_platform E;
  e_faults := e_faults E;
  e_entropy := e_entropy E;
  e_clock := e_clock E;
  e_tmpname := e_tmpname E;
  e_access := e_access E;
  e_exit_code := e_exit_code E;
  e_glob := e_glob E;
  e_ctime := e_ctime E;
  e_machine_id_path := e_machine_id_path E;
  e_workbench_path := e_workbench_path E;
  e_cursor_paths := e_cursor_paths E;
  e_raw_text := e_raw_text E;
  e_str := e_str E;
  e_main_js_sub := rewrite
|}.

(** [quiet_env] with the rewrite of the sample [main.js]. *)
Definition patching_env : env :=
  rewriting_with (fun content => PyStr.replace content "a??b" "b") quiet_env.

(** What lets [patch_cursor_get_machine_id] go on to patch: both paths
    resolve, [package.json] and [main.js] exist and are writable, and the
    [version] of [package.json] is a string in the version format that
    is not below 0.45.0. *)
Definition patch_gate (E : env) (w : world) : Prop :=
  exists pkg main data v cur,
    e_cursor_paths E = Some (pkg, main)
    /\ w_fs w !! pkg = Some (Json data)
    /\ is_Some (w_fs w !! main)
    /\ e_access E pkg = true /\ e_access E main = true
    /\ subscript data "version" = Ret (PStr v)
    /\ version_pattern v = true
    /\ parse_version v = Ret cur
    /\ tuple_lt cur [0; 45; 0]%Z = false.

(** [main.js] after the two rewrites. *)
Definition main_js_patched (E : env) (d : fdata) : fdata :=
  Text (e_main_js_sub E (file_text E d)).

(** A machine-id file in use. *)
Definition machine_id_world : world :=
  World {[ machine_id_file := Text "old" ]} 0 [].

(** An attempt on the registry. *)
Definition registry_attempt (ev : event) : bool :=
  match ev with
  | Did o | Failed o _ =>
      match o with
      | OpRegistryOpen _ | OpRegistryCreate _ | OpRegistrySet _ _ _ => true
      | _ => false
      end
  | Print _ _ => false
  end.

(** A command handed to the shell. *)
Definition shell_attempt (ev : event) : bool :=
  match ev with
  | Did (OpSystem _) | Failed (OpSystem _) _ => true
  | _ => false
  end.

(** [E] on another platform. *)
Definition on_platform (p : platform) (E : env) : env := {|
  e_platform := p;
  e_faults := e_faults E;
  e_entropy := e_entropy E;
  e_clock := e_clock E;
  e_tmpname := e_tmpname E;
  e_access := e_access E;
  e_exit_code := e_exit_code E;
  e_glob := e_glob E;
  e_ctime := e_ctime E;
  e_machine_id_path := e_machine_id_path E;
  e_workbench_path := e_workbench_path E;
  e_cursor_paths := e_cursor_paths E;
  e_raw_text := e_raw_text E;
  e_str := e_str E;
  e_main_js_sub := e_main_js_sub E
|}.

(** [l] is in the order of creation times, newest first. *)
Fixpoint newest_first (ctime : string -> Z) (l : list string) : bool :=
  match l with
  | [] => true
  | x :: l' =>
      forallb (fun y => (ctime y <=? ctime x)%Z) l' && newest_first ctime l'
  end.

(** The paths of [l] created at time [c], in their order. *)
Definition created_at (ctime : string -> Z) (c : Z) (l : list string)
  : list string :=
  List.filter (fun p => (ctime p =? c)%Z) l.

(** The user has typed a confirmation among the lines [stdin]. *)
Definition confirmed (stdin : list string) : Prop :=
  exists line, In line stdin /\ PyStr.lower line = "y".

(** An event that is not a completed [json.dump]. *)
Definition no_dump (ev : event) : Prop := is_json_dump ev = false.

(** What [bypass_version] found in [product.json]: an object [d] whose
    version, ["0.0.0"] when there is none, compares as [c] with
    0.46.0. *)
Definition product_version (d : pydict) (c : Z) : Prop :=
  compare_with (dict_get_default "version" (PStr "0.0.0") d) "0.46.0" = Ret c.

Definition product_json : string := "/opt/Cursor/resources/app/product.json".

(** An installation of version 0.45.11. *)
Definition product_world : world :=
  World {[ product_json :=
             Json (PDict [("nameShort", PStr "Cursor");
                          ("version", PStr "0.45.11")]) ]} 0 [].

(** * Properties *)

(** ** The embedding on known values *)

Example replace_ex1 : PyStr.replace "aXXbXXXc" "XX" "-" = "a-b-Xc".
Proof. reflexivity. Qed.

Example replace_ex2 : PyStr.replace "ab" "" "-" = "-a-b-".
Proof. reflexivity. Qed.

Example split_ex1 :
  map PyStr.str (PyStr.split_chars "." (PyStr.chars "0.10.")) = ["0"; "10"; ""].
Proof. reflexivity. Qed.

Example int_ex1 :
  map (fun s => PyStr.int_chars (PyStr.chars s))
      [" 42"; "-7"; "1_000"; "1__0"; ""; "3" +:+ String "010" ""; "0x1"; "+5"]
  = [Some 42%Z; Some (-7)%Z; Some 1000%Z; None; None; Some 3%Z; None; Some 5%Z].
Proof. reflexivity. Qed.

Example sha256_abc :
  Hashlib.hexdigest (Hashlib.sha256 [x61; x62; x63])
  = "ba7816bf8f01cfea414140de5dae2223b00361a396177a9cb410ff61f20015ad".
Proof. vm_compute. reflexivity. Qed.

Example sha512_abc :
  Hashlib.hexdigest (Hashlib.sha512 [x61; x62; x63])
  = "ddaf35a193617abacc417349ae20413112e6fa4e89a97ea20a9eeee64b55d39a2192992a274fc1a836ba3c23a3feebbd454d4423643ce80e2a9ac94fa54ca49f".
Proof. vm_compute. reflexivity. Qed.

Example sha256_two_blocks :
  Hashlib.hexdigest
    (Hashlib.sha256 (map (fun n => Hashlib.byte_of_Z (Z.of_nat n)) (seq 0 70)))
  = "5767d69a906d4860db9079eb7e90ab4a543e5cb032fce846554aef6ceb600e1d".
Proof. vm_compute. reflexivity. Qed.

Example sha512_two_blocks :
  Hashlib.hexdigest
    (Hashlib.sha512 (map (fun n => Hashlib.byte_of_Z (Z.of_nat n)) (seq 0 130)))
  = "90272b89212c81b9700897f611f13ac1d291c33a437000c1423336b4d962dd39ce23413160f023963e12f4ccf90d2762b31bfc6818ef865e8a7cbf918a94c1db".
Proof. vm_compute. reflexivity. Qed.

(** ** Strings *)

Lemma str_chars (s : string) : PyStr.str (PyStr.chars s) = s.
Proof. apply string_of_list_ascii_of_string. Qed.

Lemma chars_str (l : list ascii) : PyStr.chars (PyStr.str l) = l.
Proof. apply list_ascii_of_string_of_list_ascii. Qed.

Lemma occurs_nil (s : list ascii) : PyStr.occurs [] s = true.
Proof. destruct s; reflexivity. Qed.

Lemma occurs_cons_false (old : list ascii) (c : ascii) (s : list ascii) :
  PyStr.occurs old (c :: s) = false ->
  PyStr.starts_with old (c :: s) = false /\ PyStr.occurs old s = false.
Proof.
  cbn [PyStr.occurs]. intros H. apply orb_false_iff in H. exact H.
Qed.

(** A search text that does not occur is never matched by the scan. *)
Lemma replace_scan_absent (old new s : list ascii) :
  PyStr.occurs old s = false -> PyStr.replace_scan old new 0 s = s.
Proof.
  induction s as [|c s IH]; intros H; [reflexivity|].
  apply occurs_cons_false in H as [Hhd Htl].
  cbn [PyStr.replace_scan]. rewrite Hhd. f_equal. apply IH, Htl.
Qed.

Lemma replace_absent (s old new : string) :
  PyStr.contains s old = false -> PyStr.replace s old new = s.
Proof.
  unfold PyStr.contains, PyStr.replace, PyStr.replace_chars. intros H.
  destruct (PyStr.chars old) as [|a old'] eqn:Hold.
  - rewrite occurs_nil in H. discriminate.
  - rewrite replace_scan_absent by exact H. apply str_chars.
Qed.

Lemma apply_patterns_absent (rules : list (string * string)) (content : string) :
  none_occurs rules content = true -> apply_patterns rules content = content.
Proof.
  unfold none_occurs, apply_patterns.
  induction rules as [|[old new] rules IH]; intros H; [reflexivity|].
  cbn [forallb fst] in H. apply andb_true_iff in H as [Hhd Htl].
  apply negb_true_iff in Hhd.
  cbn [fold_left fst snd]. rewrite replace_absent by exact Hhd.
  apply IH, Htl.
Qed.

Lemma append_empty_r (s : string) : s +:+ "" = s.
Proof.
  induction s as [|c s IH]; [reflexivity|].
  change (String c (s +:+ "") = String c s). rewrite IH. reflexivity.
Qed.

Lemma append_ne_self (s t : string) : t <> "" -> s +:+ t <> s.
Proof.
  intros Ht H. apply Ht. apply (String.app_inj s).
  rewrite append_empty_r. exact H.
Qed.

(** A path extended by a suffix and a time stamp is another path. *)
Lemma suffixed_path_ne (path suffix stamp : string) :
  suffix <> "" -> path +:+ suffix +:+ stamp <> path.
Proof.
  intros Hs. apply append_ne_self. destruct suffix; [contradiction|discriminate].
Qed.

Lemma prefix_append (s t : string) : String.prefix s (s +:+ t) = true.
Proof.
  induction s as [|c s IH]; [destruct t; reflexivity|].
  change (String.prefix (String c s) (String c (s +:+ t)) = true).
  cbn [String.prefix]. rewrite IH.
  destruct (Ascii.ascii_dec c c); [reflexivity|contradiction].
Qed.

(** ** Reasoning about runs *)

Lemma after_ret {A} (a : A) E w (Q : outcome A -> world -> list event -> Prop) :
  Q (Ret a) w [] -> after (ret a) E w Q.
Proof. intros H. exact H. Qed.

Lemma after_raise {A} e E w (Q : outcome A -> world -> list event -> Prop) :
  Q (Raise e) w [] -> after (raise e) E w Q.
Proof. intros H. exact H. Qed.

Lemma after_lift {A} (r : outcome A) E w
  (Q : outcome A -> world -> list event -> Prop) :
  Q r w [] -> after (lift r) E w Q.
Proof. intros H. exact H. Qed.

Lemma after_say key arg E w (Q : outcome unit -> world -> list event -> Prop) :
  Q (Ret tt) w [Print key arg] -> after (say key arg) E w Q.
Proof. intros H. exact H. Qed.

Lemma after_bind {A B} (m : M A) (k : A -> M B) E w
  (Q : outcome B -> world -> list event -> Prop) :
  after m E w (fun r w1 t1 =>
    match r with
    | Ret a => after (k a) E w1 (fun r2 w2 t2 => Q r2 w2 (t1 ++ t2))
    | Raise e => Q (Raise e) w1 t1
    end) ->
  after (bind m k) E w Q.
Proof.
  unfold after, bind, result_of, world_of, trace_of.
  destruct (m E w) as [[[a|e] w1] t1]; cbn; [|tauto].
  destruct (k a E w1) as [[r2 w2] t2]; cbn. tauto.
Qed.

Lemma after_try {A} (m : M A) (h : exn -> M A) E w
  (Q : outcome A -> world -> list event -> Prop) :
  after m E w (fun r w1 t1 =>
    match r with
    | Ret a => Q (Ret a) w1 t1
    | Raise e => after (h e) E w1 (fun r2 w2 t2 => Q r2 w2 (t1 ++ t2))
    end) ->
  after (try_except m h) E w Q.
Proof.
  unfold after, try_except, result_of, world_of, trace_of.
  destruct (m E w) as [[[a|e] w1] t1]; cbn; [tauto|].
  destruct (h e E w1) as [[r2 w2] t2]; cbn. tauto.
Qed.

Lemma after_attempt {A} (m : M A) E w
  (Q : outcome (outcome A) -> world -> list event -> Prop) :
  after m E w (fun r w1 t1 => Q (Ret r) w1 t1) ->
  after (attempt m) E w Q.
Proof.
  unfold after, attempt, result_of, world_of, trace_of.
  destruct (m E w) as [[r w1] t1]; cbn. tauto.
Qed.

Lemma after_io {A} (o : op) (act : env -> world -> exn + A * world) E w
  (Q : outcome A -> world -> list event -> Prop) :
  (forall e, e_faults E (w_step w) = Some e ->
             Q (Raise e) (tick w) [Failed o e]) ->
  (e_faults E (w_step w) = None ->
   forall e, act E w = inl e -> Q (Raise e) (tick w) [Failed o e]) ->
  (e_faults E (w_step w) = None ->
   forall a w', act E w = inr (a, w') -> Q (Ret a) (tick w') [Did o]) ->
  after (io o act) E w Q.
Proof.
  intros Hf He Hok. unfold after, io, result_of, world_of, trace_of.
  destruct (e_faults E (w_step w)) as [e|]; cbn; [auto|].
  destruct (act E w) as [e|[a w']]; cbn; auto.
Qed.

(** A weaker postcondition. *)
Lemma after_weaken {A} (m : M A) E w
  (Q Q' : outcome A -> world -> list event -> Prop) :
  after m E w Q -> (forall r w' t, Q r w' t -> Q' r w' t) -> after m E w Q'.
Proof. unfold after. auto. Qed.

(** Queries: no effect, no event. *)
Lemma after_exists path E w (Q : outcome bool -> world -> list event -> Prop) :
  Q (Ret (bool_decide (is_Some (w_fs w !! path)))) w [] ->
  after (os_path_exists path) E w Q.
Proof. intros H. exact H. Qed.

Lemma after_access path E w (Q : outcome bool -> world -> list event -> Prop) :
  Q (Ret (bool_decide (is_Some (w_fs w !! path)) && e_access E path)) w [] ->
  after (os_access path) E w Q.
Proof. intros H. exact H. Qed.

Lemma after_now E w (Q : outcome string -> world -> list event -> Prop) :
  Q (Ret (e_clock E (w_step w))) w [] -> after now_stamp E w Q.
Proof. intros H. exact H. Qed.

Lemma after_platform E w (Q : outcome platform -> world -> list event -> Prop) :
  Q (Ret (e_platform E)) w [] -> after sys_platform E w Q.
Proof. intros H. exact H. Qed.

Lemma after_fmt v E w (Q : outcome string -> world -> list event -> Prop) :
  Q (Ret (py_str E v)) w [] -> after (fmt v) E w Q.
Proof. intros H. exact H. Qed.

Lemma after_mktemp E w (Q : outcome string -> world -> list event -> Prop) :
  let name := e_tmpname E (w_step w) in
  (forall e, e_faults E (w_step w) = Some e ->
             Q (Raise e) (tick w) [Failed (OpMkTemp name) e]) ->
  (e_faults E (w_step w) = None -> is_Some (w_fs w !! name) ->
   Q (Raise FileExistsError) (tick w) [Failed (OpMkTemp name) FileExistsError]) ->
  (e_faults E (w_step w) = None -> w_fs w !! name = None ->
   Q (Ret name) (tick (set_fs (insert name (Text "")) w)) [Did (OpMkTemp name)]) ->
  after named_temporary_file E w Q.
Proof.
  intros name Hf He Hok. subst name. unfold named_temporary_file.
  apply after_io; [exact Hf| |].
  - intros Hn e Hact. cbv beta in Hact.
    destruct (w_fs w !! e_tmpname E (w_step w)) eqn:Hl; [|discriminate].
    injection Hact as <-. apply He; [exact Hn|eauto].
  - intros Hn a w' Hact. cbv beta in Hact.
    destruct (w_fs w !! e_tmpname E (w_step w)) eqn:Hl; [discriminate|].
    injection Hact as <- <-. apply Hok; [exact Hn|reflexivity].
Qed.

Lemma act_ok_inv {A} (a a' : A) (w w' : world) :
  @inr exn _ (a, w) = inr (a', w') -> a' = a /\ w' = w.
Proof. intros H. injection H as -> ->. split; reflexivity. Qed.

Lemma act_err_inv {A} (e e' : exn) :
  @inl exn (A * world) e = inl e' -> e' = e.
Proof. intros H. injection H as ->. reflexivity. Qed.

(** Invert what an operation's action returned. *)
Ltac act_inv H :=
  cbv beta in H;
  repeat lazymatch type of H with
  | match ?x with _ => _ end = _ => destruct x eqn:?
  | (if ?b then _ else _) = _ => destruct b eqn:?
  end;
  first
    [ discriminate H
    | apply act_err_inv in H; subst
    | apply act_ok_inv in H; destruct H; subst ].

Ltac head_of t := lazymatch t with ?f _ => head_of f | _ => t end.

Lemma for_each_cons {A} (x : A) (l : list A) (body : A -> M unit) :
  for_each (x :: l) body = (body x ;; for_each l body).
Proof. reflexivity. Qed.

Lemma after_input E w (Q : outcome string -> world -> list event -> Prop) :
  (forall line rest, w_stdin w = line :: rest ->
     Q (Ret line) (World (w_fs w) (w_step w) rest) [Did OpInput]) ->
  (w_stdin w = [] -> Q (Raise EOFError) w [Failed OpInput EOFError]) ->
  after input_ E w Q.
Proof.
  intros Hline Heof. unfold after, input_.
  destruct (w_stdin w) as [|line rest]; cbn; auto.
Qed.

(** What a run is known to be. *)
Lemma after_known {A} (m : M A) E w r w1 t1
  (Q : outcome A -> world -> list event -> Prop) :
  m E w = (r, w1, t1) -> Q r w1 t1 -> after m E w Q.
Proof. unfold after. intros ->. exact id. Qed.

(** A [try] whose handler always returns never raises. *)
Lemma try_total {A} (m : M A) (h : exn -> M A) E w :
  (forall e w1, exists a, result_of (h e E w1) = Ret a) ->
  exists a, result_of (try_except m h E w) = Ret a.
Proof.
  intros Hh. unfold try_except, result_of.
  destruct (m E w) as [[[a|e] w1] t1]; cbn; [eauto|].
  destruct (Hh e w1) as [a Ha]. unfold result_of in Ha.
  destruct (h e E w1) as [[r w2] t2]; cbn in *. eauto.
Qed.

Lemma after_total {A} (m : M A) E w
  (Q : outcome A -> world -> list event -> Prop) :
  (exists a, result_of (m E w) = Ret a) ->
  (forall a w' t, Q (Ret a) w' t) -> after m E w Q.
Proof. intros [a Ha] HQ. unfold after. rewrite Ha. apply HQ. Qed.

Lemma bind_run_ret {A B} (m : M A) (k : A -> M B) E w a w1 t1 r w2 t2 :
  m E w = (Ret a, w1, t1) -> k a E w1 = (r, w2, t2) ->
  bind m k E w = (r, w2, t1 ++ t2).
Proof. intros Hm Hk. unfold bind. rewrite Hm, Hk. reflexivity. Qed.

(** No variable of the context occurs in [b]. *)
Ltac is_closed_term b :=
  match b with
  | context [?x] => is_var x; fail 1
  | _ => idtac
  end.

(** One step of a run: apply the rule of the computation at the head. *)
Ltac step :=
  lazymatch goal with
  | |- after (bind _ _) _ _ _ => apply after_bind
  | |- after (try_except _ _) _ _ _ => apply after_try
  | |- after (attempt _) _ _ _ => apply after_attempt
  | |- after (ret _) _ _ _ => apply after_ret
  | |- after (raise _) _ _ _ => apply after_raise
  | |- after (lift _) _ _ _ => apply after_lift
  | |- after (say _ _) _ _ _ => apply after_say
  | |- after (os_path_exists _) _ _ _ => apply after_exists
  | |- after (os_access _) _ _ _ => apply after_access
  | |- after now_stamp _ _ _ => apply after_now
  | |- after sys_platform _ _ _ => apply after_platform
  | |- after (fmt _) _ _ _ => apply after_fmt
  | |- after (for_each (_ :: _) _) _ _ _ => rewrite for_each_cons
  | |- after (for_each [] _) _ _ _ => apply after_ret
  | |- after input_ _ _ _ =>
      apply after_input; [intros ?line ?rest ?Hstdin | intros ?Hstdin]
  | |- after named_temporary_file _ _ _ =>
      apply after_mktemp;
      [ intros ?e ?Hfault | intros ?Hfault ?Hexists | intros ?Hfault ?Hfresh ]
  | |- after (io _ _) _ _ _ =>
      let H := fresh "Hact" in
      apply after_io;
      [ intros ?e ?Hfault
      | intros ?Hfault ?e H; act_inv H
      | intros ?Hfault ?a ?w' H; act_inv H ]
  | |- after (if ?b then _ else _) _ _ _ =>
      first
        [ is_closed_term b;
          let v := eval vm_compute in b in
          lazymatch v with
          | true => change b with true
          | false => change b with false
          end
        | destruct b eqn:? ]
  | |- after (match ?x with _ => _ end) _ _ _ => destruct x eqn:?
  | |- after ?m _ _ _ => let h := head_of m in unfold h
  end; cbv beta iota.

(** A step in an environment that inflicts no fault. *)
Ltac step_quiet Hnf :=
  step;
  try match goal with
      | H : e_faults _ _ = Some _ |- _ => rewrite Hnf in H; discriminate H
      end.

(** An event is in a trace built from given events, appended traces and
    traces known by hypothesis. *)
Ltac find_in :=
  first
    [ assumption
    | lazymatch goal with
      | |- In _ (_ :: _) => first [apply in_eq | apply in_cons; find_in]
      | |- In _ (_ ++ _) =>
          apply in_or_app; first [left; find_in | right; find_in]
      end ].

(** An event is in a trace that is given in full. *)
Ltac in_trace :=
  solve [ cbn [In app]; repeat (first [left; reflexivity | right]) ].

(** Split a hypothesis [In ev trace] over a trace that is given in full. *)
Ltac split_in H :=
  cbn [In app] in H;
  repeat (destruct H as [H|H]; [try discriminate H|]);
  try contradiction.

Ltac decide_hyps :=
  repeat match goal with
  | H : bool_decide _ = true |- _ => apply bool_decide_eq_true in H
  | H : bool_decide _ = false |- _ => apply bool_decide_eq_false in H
  end.

(** Lookups through the inserts and deletes a run made, given the
    disequalities between the paths involved. *)
Ltac fs_lookup :=
  repeat first
    [ rewrite lookup_insert_ne in *
        by (assumption || (apply not_eq_sym; assumption))
    | rewrite lookup_delete_ne in *
        by (assumption || (apply not_eq_sym; assumption))
    | rewrite lookup_insert_eq in *
    | rewrite lookup_delete_eq in * ].

Lemma fresh_ne (fs : gmap string fdata) (p q : string) (d : fdata) :
  fs !! p = Some d -> fs !! q = None -> q <> p.
Proof. intros Hp Hq ->. congruence. Qed.

(** ** The patch engine *)

(** C3, as stated, fails: the replacement of the last rule contains its
    own search text, so a second pass over a patched file patches it
    again. *)
Lemma C3_second_pass_changes_content :
  let once := apply_patterns patterns "notifications-toasts" in
  once = "notifications-toasts hidden"
  /\ apply_patterns patterns once = "notifications-toasts hidden hidden"
  /\ apply_patterns patterns once <> once.
Proof.
  cbv zeta. split; [vm_compute; reflexivity|].
  split; [vm_compute; reflexivity|]. vm_compute. discriminate.
Qed.

(** C3, amended: a rule whose search text does not occur in the content
    leaves it unchanged, and a second application of the whole rule set
    yields the same content as the first whenever none of the search
    texts occurs in the content patched once. *)
Theorem C3_absent_rules_change_nothing (content old new : string) :
  (PyStr.contains content old = false -> PyStr.replace content old new = content)
  /\ (none_occurs patterns (apply_patterns patterns content) = true ->
      apply_patterns patterns (apply_patterns patterns content)
      = apply_patterns patterns content).
Proof.
  split.
  - apply replace_absent.
  - apply apply_patterns_absent.
Qed.

Lemma C3_absent_rules_change_nothing_witness :
  PyStr.replace "<div>Pro Trial</div>" "notifications-toasts" "x"
  = "<div>Pro Trial</div>"
  /\ apply_patterns patterns (apply_patterns patterns "<div>Pro Trial</div>")
     = apply_patterns patterns "<div>Pro Trial</div>".
Proof.
  destruct (C3_absent_rules_change_nothing
              "<div>Pro Trial</div>" "notifications-toasts" "x") as [H1 H2].
  split; [apply H1|apply H2]; vm_compute; reflexivity.
Defined.

Lemma backup_ne_tmp (file_path stamp tmp : string) :
  String.prefix file_path tmp = false ->
  file_path +:+ ".backup." +:+ stamp <> tmp.
Proof. intros H <-. rewrite prefix_append in H. discriminate. Qed.

(** Until the original is removed its content is what it was. *)
Lemma workbench_untouched_until_removed file_path E w :
  after (modify_workbench_js file_path) E w (fun r w' t =>
    ~ In (Did (OpRemove file_path)) t ->
    w_fs w' !! file_path = w_fs w !! file_path).
Proof.
  unfold modify_workbench_js. generalize (apply_patterns patterns). intros patch.
  repeat step.
  all: intros Hn; cbn [w_fs tick set_fs w_step] in *.
  all: try (exfalso; apply Hn; in_trace).
  all: try congruence.
  all: clear Hn.
  all: pose proof (fresh_ne _ _ _ _ Heqo Hfresh) as Htmp.
  all: pose proof (suffixed_path_ne file_path ".backup."
                     (e_clock E (S (S (S (S (w_step w))))))
                     ltac:(discriminate)) as Hbak.
  all: decide_hyps; fs_lookup.
  all: try congruence.
  all: exfalso; eauto.
Qed.

(** Once the temporary file is written, a failing run unlinks it. *)
Lemma workbench_tmp_unlinked file_path E w :
  after (modify_workbench_js file_path) E w (fun r w' t =>
    r = Ret false ->
    forall tmp content, In (Did (OpWrite tmp content)) t ->
    w_fs w' !! tmp = None \/ exists e, In (Failed (OpRemove tmp) e) t).
Proof.
  unfold modify_workbench_js. generalize (apply_patterns patterns). intros patch.
  repeat step.
  all: intros Hr tmp content Hin; try discriminate Hr.
  all: split_in Hin.
  all: injection Hin as <- <-.
  all: cbn [w_fs tick set_fs w_step] in *.
  all: first [ left; apply lookup_delete_eq | right; eexists; in_trace ].
Qed.

(** A successful run leaves the patched content under the original
    name. *)
Lemma workbench_patched_on_success file_path E w :
  (forall n, String.prefix file_path (e_tmpname E n) = false) ->
  after (modify_workbench_js file_path) E w (fun r w' t =>
    r = Ret true ->
    exists d, w_fs w !! file_path = Some d /\
      w_fs w' !! file_path
      = Some (Text (apply_patterns patterns (file_text E d)))).
Proof.
  intros Hpre.
  unfold modify_workbench_js. generalize (apply_patterns patterns). intros patch.
  repeat step.
  all: intros Hr; try discriminate Hr.
  all: cbn [w_fs tick set_fs w_step] in *.
  all: pose proof (fresh_ne _ _ _ _ Heqo Hfresh) as Htmp.
  all: pose proof (suffixed_path_ne file_path ".backup."
                     (e_clock E (S (S (S (S (w_step w))))))
                     ltac:(discriminate)) as Hbak.
  all: pose proof (backup_ne_tmp file_path
                     (e_clock E (S (S (S (S (w_step w))))))
                     _ (Hpre (S (w_step w)))) as Hbt.
  all: decide_hyps; fs_lookup.
  all: eexists; split; [first [eassumption|reflexivity]|]; congruence.
Qed.

(** C2, as stated, fails twice.  When the move fails after the original
    was removed (operation 6), the run fails before the rename and the
    original is gone.  When reading the original fails (operation 2),
    [tmp_path] is not bound yet and the temporary file stays. *)
Lemma C2_original_lost_and_tmp_left :
  (let run := modify_workbench_js workbench_js
                (failing_at 6 OSError quiet_env) bundle_world in
   result_of run = Ret false
   /\ trace_of run =
      [ Did (OpStat workbench_js); Did (OpMkTemp "/tmp/tmpk3x9");
        Did (OpRead workbench_js); Did (OpWrite "/tmp/tmpk3x9" "<div>Pro</div>");
        Did (OpCopy workbench_js (workbench_js +:+ ".backup.20240101_120000"));
        Print "reset.backup_created" (workbench_js +:+ ".backup.20240101_120000");
        Did (OpRemove workbench_js);
        Failed (OpMove "/tmp/tmpk3x9" workbench_js) OSError;
        Print "reset.modify_file_failed" ""; Did (OpRemove "/tmp/tmpk3x9") ]
   /\ w_fs bundle_world !! workbench_js = Some (Text "<div>Pro Trial</div>")
   /\ w_fs (world_of run) !! workbench_js = None)
  /\
  (let run := modify_workbench_js workbench_js
                (failing_at 2 PermissionError quiet_env) bundle_world in
   result_of run = Ret false
   /\ trace_of run =
      [ Did (OpStat workbench_js); Did (OpMkTemp "/tmp/tmpk3x9");
        Failed (OpRead workbench_js) PermissionError;
        Print "reset.modify_file_failed" "" ]
   /\ w_fs (world_of run) !! "/tmp/tmpk3x9" = Some (Text "")).
Proof.
  cbv zeta. repeat split; vm_compute; reflexivity.
Qed.

(** C2, amended: as long as the run has not removed the original file,
    the original's content is untouched; a failing run that had written
    the temporary file (so that [tmp_path] is bound) unlinks it, the
    file being gone afterwards unless the unlink itself failed; and a
    successful run leaves exactly the patched content under the
    original name, the temporary file's name not being the backup's. *)
Theorem C2_patch_engine_outcomes (file_path : string) (E : env) (w : world) :
  let run := modify_workbench_js file_path E w in
  (~ In (Did (OpRemove file_path)) (trace_of run) ->
   w_fs (world_of run) !! file_path = w_fs w !! file_path)
  /\ (result_of run = Ret false ->
      forall tmp content, In (Did (OpWrite tmp content)) (trace_of run) ->
      w_fs (world_of run) !! tmp = None
      \/ exists e, In (Failed (OpRemove tmp) e) (trace_of run))
  /\ ((forall n, String.prefix file_path (e_tmpname E n) = false) ->
      result_of run = Ret true ->
      exists d, w_fs w !! file_path = Some d /\
        w_fs (world_of run) !! file_path
        = Some (Text (apply_patterns patterns (file_text E d)))).
Proof.
  cbv zeta. split; [|split].
  - apply (workbench_untouched_until_removed file_path E w).
  - apply (workbench_tmp_unlinked file_path E w).
  - intros Hpre. apply (workbench_patched_on_success file_path E w Hpre).
Qed.

Lemma C2_patch_engine_outcomes_witness :
  w_fs (world_of (modify_workbench_js workbench_js quiet_env bundle_world))
    !! workbench_js = Some (Text "<div>Pro</div>")
  /\ w_fs (world_of (modify_workbench_js workbench_js
                       (failing_at 4 OSError quiet_env) bundle_world))
       !! workbench_js = Some (Text "<div>Pro Trial</div>")
  /\ w_fs (world_of (modify_workbench_js workbench_js
                       (failing_at 4 OSError quiet_env) bundle_world))
       !! "/tmp/tmpk3x9" = None.
Proof.
  split; [|split].
  - destruct (C2_patch_engine_outcomes workbench_js quiet_env bundle_world)
      as (_ & _ & Hok).
    destruct Hok as (d & Hd & Hfin);
      [intros n; reflexivity|vm_compute; reflexivity|].
    rewrite Hfin. vm_compute in Hd. injection Hd as <-.
    vm_compute. reflexivity.
  - destruct (C2_patch_engine_outcomes workbench_js
                (failing_at 4 OSError quiet_env) bundle_world) as (Hkeep & _ & _).
    rewrite Hkeep; [vm_compute; reflexivity|].
    vm_compute. intros H. repeat (destruct H as [H|H]; [discriminate H|]).
    exact H.
  - destruct (C2_patch_engine_outcomes workbench_js
                (failing_at 4 OSError quiet_env) bundle_world) as (_ & Hclean & _).
    destruct (Hclean ltac:(vm_compute; reflexivity) "/tmp/tmpk3x9" "<div>Pro</div>"
                ltac:(vm_compute; tauto)) as [Hgone|[e He]].
    + exact Hgone.
    + exfalso. vm_compute in He.
      repeat (destruct He as [He|He]; [discriminate He|]). exact He.
Defined.

(** ** Dictionaries *)

Lemma dict_get_set_eq (k : string) (v : pyval) (d : pydict) :
  dict_get k (dict_set k v d) = Some v.
Proof.
  induction d as [|[k' v'] d IH]; cbn [dict_set dict_get].
  - rewrite String.eqb_refl. reflexivity.
  - destruct (String.eqb k k') eqn:Hk; cbn [dict_get].
    + rewrite String.eqb_refl. reflexivity.
    + rewrite Hk. exact IH.
Qed.

Lemma dict_get_set_ne (k k' : string) (v : pyval) (d : pydict) :
  k <> k' -> dict_get k' (dict_set k v d) = dict_get k' d.
Proof.
  intros Hne. induction d as [|[k0 v0] d IH]; cbn [dict_set dict_get].
  - apply not_eq_sym, String.eqb_neq in Hne. rewrite Hne. reflexivity.
  - destruct (String.eqb k k0) eqn:Hk; cbn [dict_get].
    + apply String.eqb_eq in Hk. subst k0.
      apply not_eq_sym, String.eqb_neq in Hne. rewrite Hne. reflexivity.
    + rewrite IH. reflexivity.
Qed.

(** [d.update(other)] leaves the keys that [other] lacks as they were. *)
Lemma dict_get_update_other (k : string) (d other : pydict) :
  dict_get k other = None ->
  dict_get k (dict_update d other) = dict_get k d.
Proof.
  unfold dict_update. revert d.
  induction other as [|[k1 v1] other IH]; intros d Hk; [reflexivity|].
  cbn [dict_get] in Hk. destruct (String.eqb k k1) eqn:Hk1; [discriminate|].
  cbn [fold_left fst snd]. rewrite IH by exact Hk.
  apply dict_get_set_ne. apply String.eqb_neq in Hk1. congruence.
Qed.

Lemma dict_get_absent (k : string) (d : pydict) :
  ~ In k (map fst d) -> dict_get k d = None.
Proof.
  induction d as [|[k1 v1] d IH]; intros Hk; [reflexivity|].
  cbn [dict_get]. destruct (String.eqb k k1) eqn:Hk1.
  - apply String.eqb_eq in Hk1. exfalso. apply Hk. left. cbn. congruence.
  - apply IH. intros Hin. apply Hk. right. exact Hin.
Qed.

(** [d.update(other)] gives the keys of [other] the values of [other]. *)
Lemma dict_get_update_key (k : string) (v : pyval) (d other : pydict) :
  List.NoDup (map fst other) -> dict_get k other = Some v ->
  dict_get k (dict_update d other) = Some v.
Proof.
  unfold dict_update. revert d.
  induction other as [|[k1 v1] other IH]; intros d Hnd Hk; [discriminate|].
  cbn [map fst] in Hnd. apply List.NoDup_cons_iff in Hnd as [Hk1 Hnd].
  cbn [dict_get] in Hk. cbn [fold_left fst snd].
  destruct (String.eqb k k1) eqn:Heq.
  - apply String.eqb_eq in Heq. subst k1. injection Hk as ->.
    change (dict_get k (dict_update (dict_set k v d) other) = Some v).
    rewrite dict_get_update_other by (apply dict_get_absent, Hk1).
    apply dict_get_set_eq.
  - apply IH; assumption.
Qed.

(** ** Restoring from a backup *)

Lemma warn_loop_run (ids : pydict) E w :
  for_each ids (fun kv =>
    if negb (truthy (snd kv)) then say "restore.missing_id" (fst kv)
    else ret tt) E w
  = (Ret tt, w, missing_id_warnings ids).
Proof.
  unfold missing_id_warnings.
  induction ids as [|[k v] ids IH]; [reflexivity|].
  cbn [for_each List.filter map fst snd].
  destruct (truthy v); cbn [negb map fst].
  - apply (bind_run_ret _ _ E w tt w [] (Ret tt) w); [reflexivity|exact IH].
  - apply (bind_run_ret _ _ E w tt w [Print "restore.missing_id" k] (Ret tt) w);
      [reflexivity|exact IH].
Qed.

(** Reading a backup that holds a dictionary. *)
Lemma extract_run self backup_path E w d :
  e_faults E (w_step w) = None ->
  w_fs w !! backup_path = Some (Json (PDict d)) ->
  MachineIDRestorer.extract_ids_from_backup self backup_path E w
  = (Ret (Some (MachineIDRestorer.extract_ids d)), tick w,
     Did (OpJsonLoad backup_path)
     :: missing_id_warnings (MachineIDRestorer.extract_ids d)).
Proof.
  intros Hf Hd.
  unfold MachineIDRestorer.extract_ids_from_backup, try_except, bind,
    json_load, io.
  rewrite Hf, Hd. rewrite warn_loop_run. unfold ret. cbv beta iota.
  rewrite app_nil_r. reflexivity.
Qed.

(** C10: when the backup document has no [storage.serviceMachineId],
    the extracted mapping gives that key the document's
    [telemetry.devDeviceId], or the empty string when that is absent
    too. *)
Theorem C10_service_id_falls_back (self : storage_paths) (backup_path : string)
  (E : env) (w : world) (d : pydict) :
  e_faults E (w_step w) = None ->
  w_fs w !! backup_path = Some (Json (PDict d)) ->
  dict_get "storage.serviceMachineId" d = None ->
  exists ids,
    result_of (MachineIDRestorer.extract_ids_from_backup self backup_path E w)
    = Ret (Some ids)
    /\ dict_get "storage.serviceMachineId" ids
       = Some (match dict_get "telemetry.devDeviceId" d with
               | Some v => v
               | None => PStr ""
               end).
Proof.
  intros Hf Hd Hs. exists (MachineIDRestorer.extract_ids d). split.
  - rewrite (extract_run self backup_path E w d Hf Hd). reflexivity.
  - unfold MachineIDRestorer.extract_ids. cbn. unfold dict_get_default.
    rewrite Hs. reflexivity.
Qed.

Lemma C10_service_id_falls_back_witness :
  exists ids,
    result_of (MachineIDRestorer.extract_ids_from_backup storage old_backup
                 restore_env restore_world) = Ret (Some ids)
    /\ dict_get "storage.serviceMachineId" ids = Some (PStr "").
Proof.
  destruct (C10_service_id_falls_back storage old_backup restore_env
              restore_world
              [("telemetry.devDeviceId", PStr "");
               ("telemetry.macMachineId", PStr "");
               ("telemetry.machineId", PStr "");
               ("telemetry.sqmId", PStr "")])
    as (ids & Hrun & Hget);
    [reflexivity|vm_compute; reflexivity|reflexivity|].
  exists ids. split; [exact Hrun|exact Hget].
Defined.

Lemma copy_target_is_other (path suffix stamp : string) :
  suffix <> "" -> (path =? path +:+ suffix +:+ stamp)%string = false.
Proof.
  intros Hs. apply String.eqb_neq. apply not_eq_sym.
  apply suffixed_path_ne, Hs.
Qed.

(** With no fault and a dictionary in the storage file,
    [update_current_file] succeeds and dumps the merged dictionary. *)
Lemma update_current_file_quiet self ids E w cur :
  (forall n, e_faults E n = None) ->
  w_fs w !! db_path self = Some (Json (PDict cur)) ->
  after (MachineIDRestorer.update_current_file self ids) E w (fun r w' t =>
    r = Ret true
    /\ In (Did (OpJsonDump (db_path self) (PDict (dict_update cur ids)))) t).
Proof.
  intros Hnf Hcur. unfold MachineIDRestorer.update_current_file.
  do 3 step. rewrite Hcur.
  change (negb (bool_decide (is_Some (Some (Json (PDict cur)))))) with false.
  cbv iota.
  do 2 step. step_quiet Hnf; try (exfalso; congruence).
  injection Hcur as ->.
  do 4 step. step_quiet Hnf; try (exfalso; congruence).
  1: rewrite copy_target_is_other in Heqb by discriminate; discriminate Heqb.
  1: cbn [w_fs tick] in *; congruence.
  do 2 step. cbn [py_update]. cbv beta iota.
  repeat (step_quiet Hnf).
  split; [reflexivity|find_in].
Qed.

Lemma restore_update_sqlite_db_total self ids E w :
  exists b, result_of (MachineIDRestorer.update_sqlite_db self ids E w) = Ret b.
Proof. apply try_total. intros e w1. eexists. reflexivity. Qed.

Lemma restore_update_machine_id_file_total self v E w :
  exists b,
    result_of (MachineIDRestorer.update_machine_id_file self v E w) = Ret b.
Proof. apply try_total. intros e w1. eexists. reflexivity. Qed.

Lemma restore_update_system_ids_total self ids E w :
  exists b, result_of (MachineIDRestorer.update_system_ids self ids E w) = Ret b.
Proof. apply try_total. intros e w1. eexists. reflexivity. Qed.

Lemma extract_ids_empty (d : pydict) :
  (forall k, In k MachineIDRestorer.identity_keys ->
             dict_get_default k (PStr "") d = PStr "") ->
  MachineIDRestorer.extract_ids d = empty_ids.
Proof.
  intros H.
  unfold MachineIDRestorer.extract_ids, empty_ids,
    MachineIDRestorer.identity_keys.
  cbn [map].
  rewrite !(H "telemetry.devDeviceId")
    by (unfold MachineIDRestorer.identity_keys; find_in).
  rewrite !(H "telemetry.macMachineId")
    by (unfold MachineIDRestorer.identity_keys; find_in).
  rewrite !(H "telemetry.machineId")
    by (unfold MachineIDRestorer.identity_keys; find_in).
  rewrite !(H "telemetry.sqmId")
    by (unfold MachineIDRestorer.identity_keys; find_in).
  rewrite !(H "storage.serviceMachineId")
    by (unfold MachineIDRestorer.identity_keys; find_in).
  reflexivity.
Qed.

Lemma identity_keys_nodup :
  List.NoDup (map fst empty_ids).
Proof.
  cbn. repeat (apply List.NoDup_cons; [cbn; intuition discriminate|]).
  apply List.NoDup_nil.
Qed.

(** C9: a backup is selected whose identity fields are all empty strings
    (or missing), the user confirms, the storage file holds a
    dictionary and no operation fails.  Then the restore prints a
    missing-id warning for each of the five keys, does not abort, and
    goes on to dump the storage file with the five extracted values
    merged in; it returns [True]. *)
Theorem C9_restore_warns_and_proceeds (self : storage_paths) (E : env)
  (w w1 : world) (t1 : list event) (backup : string) (d cur : pydict)
  (rest : list string) :
  (forall n, e_faults E n = None) ->
  MachineIDRestorer.select_backup self E w = (Ret (Some backup), w1, t1) ->
  backup <> "" ->
  w_fs w1 !! backup = Some (Json (PDict d)) ->
  (forall k, In k MachineIDRestorer.identity_keys ->
             dict_get_default k (PStr "") d = PStr "") ->
  w_fs w1 !! db_path self = Some (Json (PDict cur)) ->
  w_stdin w1 = "y" :: rest ->
  let run := MachineIDRestorer.restore_machine_ids self E w in
  result_of run = Ret true
  /\ (forall k, In k MachineIDRestorer.identity_keys ->
                In (Print "restore.missing_id" k) (trace_of run))
  /\ In (Did (OpJsonDump (db_path self) (PDict (dict_update cur empty_ids))))
        (trace_of run)
  /\ (forall k, In k MachineIDRestorer.identity_keys ->
                dict_get k (dict_update cur empty_ids) = Some (PStr "")).
Proof.
  intros Hnf Hsel Hne Hbak Hempty Hcur Hin. cbv zeta.
  assert (Hmain :
    after (MachineIDRestorer.restore_machine_ids self) E w (fun r w' t =>
      r = Ret true
      /\ (forall k, In k MachineIDRestorer.identity_keys ->
                    In (Print "restore.missing_id" k) t)
      /\ In (Did (OpJsonDump (db_path self)
                    (PDict (dict_update cur empty_ids)))) t));
    [|destruct Hmain as (H1 & H2 & H3);
      split; [exact H1|]; split; [exact H2|]; split; [exact H3|];
      intros k Hk; apply dict_get_update_key; [apply identity_keys_nodup|];
      unfold MachineIDRestorer.identity_keys in Hk;
      split_in Hk; subst k; reflexivity].
  unfold MachineIDRestorer.restore_machine_ids.
  do 4 step.
  apply (after_known _ _ _ _ _ _ _ Hsel).
  destruct (is_empty_str backup) eqn:Hb.
  { apply String.eqb_eq in Hb. contradiction. }
  step.
  apply (after_known _ _ _ _ _ _ _ (extract_run self backup E w1 d (Hnf _) Hbak)).
  rewrite (extract_ids_empty d Hempty).
  unfold empty_ids at 1 2 3 4 5,
    MachineIDRestorer.identity_keys at 1 2 3 4 5.
  cbn [map].
  repeat (lazymatch goal with
          | |- after (bind input_ _) _ _ _ => fail
          | _ => step_quiet Hnf
          end).
  do 2 step.
  all: cbn [w_stdin w_fs tick w_step] in *.
  2:{ congruence. }
  rewrite Hin in Hstdin. injection Hstdin as <- <-.
  do 2 step.
  eapply after_weaken.
  { apply (update_current_file_quiet self _ E _ cur Hnf). exact Hcur. }
  intros r w' t [-> Hdump]. cbv beta iota.
  step.
  step. apply after_total; [apply restore_update_sqlite_db_total|].
  intros b1 w2 t2. cbv beta iota.
  step. apply after_total; [apply restore_update_machine_id_file_total|].
  intros b2 w3 t3. cbv beta iota.
  step. apply after_total; [apply restore_update_system_ids_total|].
  intros b3 w4 t4. cbv beta iota.
  repeat step.
  split; [reflexivity|]. split.
  - intros k Hk. unfold MachineIDRestorer.identity_keys in Hk.
    change (missing_id_warnings empty_ids)
      with (map (Print "restore.missing_id") MachineIDRestorer.identity_keys).
    unfold MachineIDRestorer.identity_keys. cbn [map].
    split_in Hk; subst k; find_in.
  - find_in.
Qed.

Lemma C9_restore_warns_and_proceeds_witness :
  let run := MachineIDRestorer.restore_machine_ids storage restore_env
               restore_world in
  result_of run = Ret true
  /\ In (Print "restore.missing_id" "telemetry.sqmId") (trace_of run)
  /\ In (Print "restore.missing_id" "storage.serviceMachineId") (trace_of run)
  /\ In (Did (OpJsonDump (db_path storage)
                (PDict [("foo", PStr "bar"); ("telemetry.machineId", PStr "");
                        ("telemetry.devDeviceId", PStr "");
                        ("telemetry.macMachineId", PStr "");
                        ("telemetry.sqmId", PStr "");
                        ("storage.serviceMachineId", PStr "")])))
        (trace_of run).
Proof.
  cbv zeta.
  destruct (C9_restore_warns_and_proceeds storage restore_env restore_world
              (World (w_fs restore_world) 1 ["y"])
              [ Print "restore.available_backups" "";
                Did (OpGetsize old_backup);
                Print "restore.backup_entry" old_backup;
                Did OpInput ]
              old_backup
              [("telemetry.devDeviceId", PStr "");
               ("telemetry.macMachineId", PStr "");
               ("telemetry.machineId", PStr "");
               ("telemetry.sqmId", PStr "")]
              [("foo", PStr "bar"); ("telemetry.machineId", PStr "abc")]
              [])
    as (Hres & Hwarn & Hdump & _).
  - intros n. reflexivity.
  - vm_compute. reflexivity.
  - discriminate.
  - vm_compute. reflexivity.
  - intros k Hk. unfold MachineIDRestorer.identity_keys in Hk.
    split_in Hk; subst k; reflexivity.
  - vm_compute. reflexivity.
  - reflexivity.
  - split; [exact Hres|]. split; [apply Hwarn; vm_compute; tauto|].
    split; [apply Hwarn; vm_compute; tauto|]. exact Hdump.
Defined.

(** ** What a computation can emit *)

Section Emits.

Context (P : event -> Prop).

Lemma emits_ret {A} (a : A) : emits_only P (ret a).
Proof. intros E w. constructor. Qed.

Lemma emits_raise {A} e : emits_only P (@raise A e).
Proof. intros E w. constructor. Qed.

Lemma emits_lift {A} (r : outcome A) : emits_only P (lift r).
Proof. intros E w. constructor. Qed.

Lemma emits_say key arg : P (Print key arg) -> emits_only P (say key arg).
Proof. intros H E w. repeat constructor. exact H. Qed.

Lemma emits_bind {A B} (m : M A) (k : A -> M B) :
  emits_only P m -> (forall a, emits_only P (k a)) -> emits_only P (bind m k).
Proof.
  intros Hm Hk E w. specialize (Hm E w). unfold bind, trace_of in *.
  destruct (m E w) as [[[a|e] w1] t1]; cbn in *; [|exact Hm].
  specialize (Hk a E w1). unfold trace_of in Hk.
  destruct (k a E w1) as [[r2 w2] t2]; cbn in *.
  apply List.Forall_app. split; assumption.
Qed.

Lemma emits_try {A} (m : M A) (h : exn -> M A) :
  emits_only P m -> (forall e, emits_only P (h e)) ->
  emits_only P (try_except m h).
Proof.
  intros Hm Hh E w. specialize (Hm E w). unfold try_except, trace_of in *.
  destruct (m E w) as [[[a|e] w1] t1]; cbn in *; [exact Hm|].
  specialize (Hh e E w1). unfold trace_of in Hh.
  destruct (h e E w1) as [[r2 w2] t2]; cbn in *.
  apply List.Forall_app. split; assumption.
Qed.

Lemma emits_attempt {A} (m : M A) : emits_only P m -> emits_only P (attempt m).
Proof.
  intros Hm E w. specialize (Hm E w). unfold attempt, trace_of in *.
  destruct (m E w) as [[r w1] t1]; cbn in *. exact Hm.
Qed.

Lemma emits_io {A} (o : op) (act : env -> world -> exn + A * world) :
  P (Did o) -> (forall e, P (Failed o e)) -> emits_only P (io o act).
Proof.
  intros Hd Hf E w. unfold io, trace_of.
  destruct (e_faults E (w_step w)); cbn; [repeat constructor; apply Hf|].
  destruct (act E w) as [e|[a w']]; cbn; repeat constructor; auto.
Qed.

Lemma emits_mktemp :
  (forall name, P (Did (OpMkTemp name))) ->
  (forall name e, P (Failed (OpMkTemp name) e)) ->
  emits_only P named_temporary_file.
Proof.
  intros Hd Hf E w. unfold named_temporary_file. apply emits_io; auto.
Qed.

Lemma emits_input :
  P (Did OpInput) -> P (Failed OpInput EOFError) -> emits_only P input_.
Proof.
  intros Hd Hf E w. unfold input_, trace_of.
  destruct (w_stdin w); cbn; repeat constructor; assumption.
Qed.

Lemma emits_exists path : emits_only P (os_path_exists path).
Proof. intros E w. constructor. Qed.

Lemma emits_access path : emits_only P (os_access path).
Proof. intros E w. constructor. Qed.

Lemma emits_now : emits_only P now_stamp.
Proof. intros E w. constructor. Qed.

Lemma emits_platform : emits_only P sys_platform.
Proof. intros E w. constructor. Qed.

Lemma emits_fmt v : emits_only P (fmt v).
Proof. intros E w. constructor. Qed.

Lemma emits_re_sub content : emits_only P (re_sub_machine_id content).
Proof. intros E w. constructor. Qed.

Lemma emits_for_each {A} (l : list A) (body : A -> M unit) :
  (forall x, emits_only P (body x)) -> emits_only P (for_each l body).
Proof.
  intros Hb. induction l as [|x l IH]; [apply emits_ret|].
  cbn [for_each]. apply emits_bind; [apply Hb|intros _; exact IH].
Qed.

End Emits.

Create HintDb emits.

(** Discharge [emits_only P m] by following the structure of [m]; [ev]
    proves [P] of a given event. *)
Ltac emits_with ev :=
  lazymatch goal with
  | |- emits_only _ (bind _ _) =>
      apply emits_bind; [emits_with ev | intros ?; emits_with ev]
  | |- emits_only _ (try_except _ _) =>
      apply emits_try; [emits_with ev | intros ?; emits_with ev]
  | |- emits_only _ (attempt _) => apply emits_attempt; emits_with ev
  | |- emits_only _ (ret _) => apply emits_ret
  | |- emits_only _ (raise _) => apply emits_raise
  | |- emits_only _ (lift _) => apply emits_lift
  | |- emits_only _ (say _ _) => apply emits_say; ev
  | |- emits_only _ (os_path_exists _) => apply emits_exists
  | |- emits_only _ (os_access _) => apply emits_access
  | |- emits_only _ now_stamp => apply emits_now
  | |- emits_only _ sys_platform => apply emits_platform
  | |- emits_only _ (fmt _) => apply emits_fmt
  | |- emits_only _ (re_sub_machine_id _) => apply emits_re_sub
  | |- emits_only _ input_ => apply emits_input; ev
  | |- emits_only _ named_temporary_file =>
      apply emits_mktemp; intros; ev
  | |- emits_only _ (io _ _) => apply emits_io; [ev | intros ?; ev]
  | |- emits_only _ (for_each _ _) =>
      apply emits_for_each; intros ?; emits_with ev
  | |- emits_only _ (if ?b then _ else _) => destruct b; emits_with ev
  | |- emits_only _ (match ?x with _ => _ end) => destruct x; emits_with ev
  | |- emits_only _ (let _ := _ in _) => cbv zeta; emits_with ev
  | |- emits_only _ ?m =>
      first [ assumption
            | solve [auto with emits]
            | let h := head_of m in unfold h; emits_with ev ]
  end.

(** ** Order of the storage updates *)

Lemma generate_no_db self :
  emits_only (fun ev => db_attempt ev = false)
    (MachineIDResetter.generate_new_ids self).
Proof. emits_with ltac:(cbv beta; reflexivity). Qed.


Lemma after_emits {A} (P : event -> Prop) (m : M A) E w
  (Q : outcome A -> world -> list event -> Prop) :
  emits_only P m -> (forall r w' t, List.Forall P t -> Q r w' t) ->
  after m E w Q.
Proof. intros Hm HQ. unfold after. apply HQ, Hm. Qed.

Lemma after_any {A} (m : M A) E w
  (Q : outcome A -> world -> list event -> Prop) :
  (forall r w' t, Q r w' t) -> after m E w Q.
Proof. intros HQ. unfold after. apply HQ. Qed.

Lemma dump_first_b_quiet path t1 t2 :
  List.Forall (fun ev => db_attempt ev = false) t1 ->
  dump_first_b path t2 = true -> dump_first_b path (t1 ++ t2) = true.
Proof.
  intros H1 H2. induction H1 as [|ev t1 Hev _ IH]; [exact H2|].
  cbn [app dump_first_b]. rewrite Hev.
  destruct ev as [[]| |]; try exact IH.
  destruct (String.eqb path0 path); [reflexivity|exact IH].
Qed.

Lemma dump_first_b_sound path t :
  dump_first_b path t = true ->
  forall pre ev post, t = pre ++ ev :: post -> db_attempt ev = true ->
  exists v, In (Did (OpJsonDump path v)) pre.
Proof.
  induction t as [|ev0 t IH]; intros Hb pre ev post Heq Hev.
  - destruct pre; discriminate Heq.
  - destruct pre as [|ev1 pre]; cbn [app] in Heq.
    + injection Heq as -> ->.
      cbn [dump_first_b] in Hb. rewrite Hev in Hb.
      destruct ev as [[]| |]; try discriminate Hb. discriminate Hev.
    + injection Heq as -> ->.
      cbn [dump_first_b] in Hb.
      assert (Hcase : (exists v, ev1 = Did (OpJsonDump path v))
                      \/ dump_first_b path (pre ++ ev :: post) = true).
      { destruct ev1 as [[]| |];
          try (right; destruct (db_attempt _); [discriminate Hb|exact Hb]).
        destruct (String.eqb path0 path) eqn:Hp; [|right; exact Hb].
        apply String.eqb_eq in Hp. subst path0. left. eauto. }
      destruct Hcase as [[v ->]|Hrest].
      * exists v. left. reflexivity.
      * destruct (IH Hrest pre ev post eq_refl Hev) as [v Hv].
        exists v. right. exact Hv.
Qed.

Ltac trace_norm :=
  repeat first [ progress cbn [app] | rewrite <- app_assoc ].

Ltac dump_first_leaf :=
  trace_norm;
  repeat first
    [ reflexivity
    | progress cbn [dump_first_b db_attempt is_sql_op]
    | rewrite String.eqb_refl
    | apply dump_first_b_quiet; [assumption|] ].

Lemma reset_dump_first self E w :
  after (MachineIDResetter.reset_machine_ids self) E w (fun _ _ t =>
    dump_first_b (db_path self) t = true).
Proof.
  unfold MachineIDResetter.reset_machine_ids.
  repeat (lazymatch goal with
          | |- after (bind (MachineIDResetter.generate_new_ids _) _) _ _ _ => fail
          | _ => step
          end).
  all: try solve [dump_first_leaf].
  apply after_bind. eapply after_emits; [apply generate_no_db|].
  intros r w1 t1 Hgen. destruct r as [new_ids|e]; cbv beta iota.
  2:{ repeat step; dump_first_leaf. }
  do 2 step. destruct (py_update v new_ids) as [config|e]; cbv beta iota.
  2:{ repeat step; dump_first_leaf. }
  repeat (lazymatch goal with
          | |- after (bind (MachineIDResetter.update_sqlite_db _ _) _) _ _ _ => fail
          | _ => step
          end).
  all: try solve [dump_first_leaf].
  apply after_any. intros r w2 t2.
  destruct r; cbv beta iota; [dump_first_leaf | repeat step; dump_first_leaf].
Qed.

(** C6: in every run of [reset_machine_ids], whatever fails and wherever,
    each database operation (connect, create table, upsert, commit,
    close; completed or failed) comes after a completed [json.dump] of
    the storage file; so a run in which the dump did not complete has no
    database operation at all. *)
Theorem C6_json_before_database self E w :
  let t := trace_of (MachineIDResetter.reset_machine_ids self E w) in
  (forall pre ev post, t = pre ++ ev :: post -> db_attempt ev = true ->
     exists v, In (Did (OpJsonDump (db_path self) v)) pre)
  /\ ((forall v, ~ In (Did (OpJsonDump (db_path self) v)) t) ->
      forall ev, In ev t -> db_attempt ev = false).
Proof.
  intros t.
  assert (Hfirst : forall pre ev post, t = pre ++ ev :: post ->
            db_attempt ev = true ->
            exists v, In (Did (OpJsonDump (db_path self) v)) pre).
  { apply dump_first_b_sound. apply (reset_dump_first self E w). }
  split; [exact Hfirst|].
  intros Hnone ev Hin. destruct (db_attempt ev) eqn:Hdb; [|reflexivity].
  destruct (in_split _ _ Hin) as (pre & post & Heq).
  destruct (Hfirst pre ev post Heq Hdb) as [v Hv].
  exfalso. apply (Hnone v). rewrite Heq. apply in_or_app. left. exact Hv.
Qed.

(** A clean run dumps the storage file and then works on the database; a
    run whose [json.dump] fails (the operation counted 11) returns
    [False] without a database operation. *)
Example reset_order_sample :
  let clean :=
    MachineIDResetter.reset_machine_ids storage quiet_env storage_world in
  let failed :=
    MachineIDResetter.reset_machine_ids storage
      (failing_at 11 OSError quiet_env) storage_world in
  result_of clean = Ret true
  /\ existsb db_attempt (trace_of clean) = true
  /\ dump_first_b (db_path storage) (trace_of clean) = true
  /\ result_of failed = Ret false
  /\ existsb is_json_dump (trace_of failed) = false
  /\ existsb db_attempt (trace_of failed) = false.
Proof. vm_compute. auto 10. Qed.

(** ** Identity generation *)

Lemma identity_set_keys dev seed256 seed512 sqm :
  map fst (identity_set dev seed256 seed512 sqm) = reset_keys.
Proof. reflexivity. Qed.

Lemma prefix_refl (s : string) : String.prefix s s = true.
Proof.
  induction s as [|c s IH]; [reflexivity|].
  cbn [String.prefix]. rewrite IH.
  destruct (Ascii.ascii_dec c c); [reflexivity|contradiction].
Qed.

Lemma not_prefixed_ne (mp p : string) :
  String.prefix mp p = false -> p <> mp.
Proof. intros H ->. rewrite prefix_refl in H. discriminate. Qed.

Lemma not_prefixed_ne_ext (mp t p : string) :
  String.prefix mp p = false -> p <> mp +:+ t.
Proof. intros H ->. rewrite prefix_append in H. discriminate. Qed.

(** A run of [generate_new_ids]: what it returns is [identity_set] of its
    four draws, and it writes under the machine-id path only. *)
Lemma generate_run self E w :
  after (MachineIDResetter.generate_new_ids self) E w (fun r w' t =>
    (forall ids, r = Ret ids ->
       ids = identity_set (urandom_at E (w_step w) 16)
                          (urandom_at E (S (w_step w)) 32)
                          (urandom_at E (S (S (w_step w))) 64)
                          (urandom_at E (S (S (S (w_step w)))) 16))
    /\ (forall p,
          (forall mp, e_machine_id_path E = Some mp ->
                      String.prefix mp p = false) ->
          w_fs w' !! p = w_fs w !! p)).
Proof.
  unfold MachineIDResetter.generate_new_ids.
  repeat step.
  all: split; [intros ids Hr; first [discriminate Hr | injection Hr as <-; reflexivity]|].
  all: intros p Hp; cbn [w_fs tick set_fs]; try reflexivity.
  all: specialize (Hp _ eq_refl);
    repeat first
      [ rewrite lookup_insert_ne by (apply not_eq_sym, not_prefixed_ne, Hp)
      | rewrite lookup_insert_ne
          by (apply not_eq_sym, not_prefixed_ne_ext, Hp) ];
    reflexivity.
Qed.


Lemma after_and {A} (m : M A) E w
  (Q1 Q2 : outcome A -> world -> list event -> Prop) :
  after m E w Q1 -> after m E w Q2 ->
  after m E w (fun r w' t => Q1 r w' t /\ Q2 r w' t).
Proof. unfold after. auto. Qed.



Lemma after_emits_with {A} (P : event -> Prop) (m : M A) E w
  (Q0 Q : outcome A -> world -> list event -> Prop) :
  emits_only P m -> after m E w Q0 ->
  (forall r w' t, List.Forall P t -> Q0 r w' t -> Q r w' t) ->
  after m E w Q.
Proof. intros Hm H0 HQ. unfold after in *. apply HQ; [apply Hm|exact H0]. Qed.

(** ** Merging an identity set into the storage file *)








(** ** The database update *)

(** The loop of upserts leaves the file alone; when it completes, the
    connection's working copy holds all the upserts, and no upsert has
    failed. *)
Lemma reset_upsert_all_run ids : forall conn E w t0,
  w_fs w !! c_path conn = Some (Sqlite (Some t0)) ->
  after (MachineIDResetter.upsert_all conn ids) E w (fun r w' t =>
    w_fs w' = w_fs w
    /\ match r with
       | Ret conn' =>
           c_path conn' = c_path conn
           /\ upsert_rows ids (seen conn t0) = Some (seen conn' t0)
           /\ existsb upsert_failed t = false
       | Raise _ => True
       end).
Proof.
  induction ids as [|[key value] ids IH]; intros conn E w t0 Hfile.
  - cbn [MachineIDResetter.upsert_all]. step. auto.
  - cbn [MachineIDResetter.upsert_all]. do 2 step.
    step; try solve [split; [reflexivity|exact I]].
    all: do 2 step; eapply after_weaken;
      [ apply (IH _ E (tick w) t0); exact Hfile | ].
    all: cbv beta; intros r w' t [Hfs Hr]; split; [exact Hfs|].
    all: destruct r as [conn'|e]; [|exact I].
    all: destruct Hr as (Hpath & Hrows & Hquiet).
    all: split; [exact Hpath|]; split;
      [|exact Hquiet].
    all: cbn [upsert_rows]; rewrite Heqo; rewrite <- Hrows; unfold seen.
    all: rewrite Heqo0; cbn [default c_tx from_option id]; try reflexivity.
    rewrite Hfile in Heqs0. injection Heqs0 as ->. reflexivity.
Qed.

Lemma rows_of_created (d : option fdata) (t : option (gmap string sqlval)) :
  database_of d = inr t ->
  rows_of (Some (Sqlite (Some (default ∅ t)))) = rows_of d.
Proof. intros H. unfold rows_of. rewrite H. destruct t; reflexivity. Qed.

Ltac trace_scan :=
  repeat first
    [ rewrite existsb_app in *
    | rewrite orb_false_r in *
    | progress cbn [existsb upsert_failed orb app] in * ].

(** From a database whose table [t0] exists: the file holds [t0] or [t0]
    with all the upserts, the latter when the run returns [True], the
    former when an upsert failed. *)
Lemma commit_phase conn ids E w t0 :
  c_tx conn = None ->
  w_fs w !! c_path conn = Some (Sqlite (Some t0)) ->
  after (conn <- MachineIDResetter.upsert_all conn ids ;;
         conn <- sql_commit conn ;;
         sql_close conn ;;
         say "reset.sqlite_success" "" ;;
         ret true) E w (fun r w' t =>
    exists now,
      w_fs w' !! c_path conn = Some (Sqlite (Some now))
      /\ (now = t0 \/ upsert_rows ids t0 = Some now)
      /\ (r = Ret true -> upsert_rows ids t0 = Some now)
      /\ (existsb upsert_failed t = true -> now = t0)).
Proof.
  intros Htx Hfile. apply after_bind.
  eapply after_weaken; [apply (reset_upsert_all_run ids conn E w t0 Hfile)|].
  cbv beta. intros r w1 t1 [Hfs Hr].
  destruct r as [conn1|e].
  2:{ exists t0. rewrite Hfs. repeat split; auto. intros Habs. discriminate Habs. }
  destruct Hr as (Hpath & Hrows & Hquiet).
  unfold seen in Hrows. rewrite Htx in Hrows. cbn [default from_option id] in Hrows.
  repeat step.
  all: cbn [w_fs tick set_fs c_path]; rewrite ?Hpath, ?Hfs.
  all: try (rewrite Heqo in Hrows); cbn [default from_option id] in Hrows.
  all: lazymatch goal with
       | |- context [<[_ := Sqlite (Some ?g)]> _ !! _] => exists g
       | _ => exists t0
       end.
  all: split; [first [apply lookup_insert_eq | exact Hfile]|].
  all: split; [first [left; reflexivity | right; exact Hrows]|].
  all: split; [intros Hr; first [discriminate Hr | exact Hrows]|].
  all: intros Hex; first [reflexivity
                         | trace_scan; rewrite Hquiet in Hex; discriminate Hex].
Qed.

Lemma reset_update_sqlite_db_run self ids E w :
  after (MachineIDResetter.update_sqlite_db self ids) E w (fun r w' t =>
    let before := rows_of (w_fs w !! sqlite_path self) in
    let now := rows_of (w_fs w' !! sqlite_path self) in
    (exists b, r = Ret b)
    /\ (now = before \/ upsert_rows ids before = Some now)
    /\ (r = Ret true -> upsert_rows ids before = Some now)
    /\ (existsb upsert_failed t = true -> now = before)
    /\ (In (Did (OpSqlCreateTable (sqlite_path self))) t ->
        exists tb, w_fs w' !! sqlite_path self = Some (Sqlite (Some tb)))).
Proof.
  cbv zeta. unfold MachineIDResetter.update_sqlite_db.
  repeat (cbn [c_path c_tx];
          lazymatch goal with
          | |- after (bind (MachineIDResetter.upsert_all _ _) _) _ _ _ => fail
          | _ => step
          end).
  all: cbn [w_fs tick set_fs] in *.
  all: try solve
    [ rewrite ?lookup_insert_eq;
      repeat match goal with H : w_fs _ !! _ = _ |- _ => rewrite H end;
      split; [eexists; reflexivity|];
      split; [left; reflexivity|];
      split; [intros Hr; discriminate Hr|];
      split; [intros _; reflexivity|];
      intros Hin; split_in Hin ].
  all: eapply after_weaken;
    [ apply (commit_phase (Connection (sqlite_path self) None) ids E _
               (default ∅ o));
      [reflexivity | cbn [w_fs tick set_fs c_path]; apply lookup_insert_eq]
    | ].
  all: cbv beta; cbn [c_path]; intros r w2 t2 (now & Hnow & Hor & Htrue & Hfail).
  all: rewrite ?lookup_insert_eq in Heqs;
    repeat match goal with H : w_fs _ !! _ = _ |- _ => rewrite H in * end.
  all: apply rows_of_created in Heqs.
  all: match goal with
       | |- context [upsert_rows _ (rows_of ?d)] =>
           assert (Hb : rows_of d = default ∅ o) by (symmetry; exact Heqs);
           rewrite Hb
       end.
  all: clear Heqs Hb.
  all: destruct r as [b|e]; cbv beta iota; [|repeat step].
  all: rewrite ?Hnow; change (rows_of (Some (Sqlite (Some now)))) with now.
  all: split; [eexists; reflexivity|].
  all: split; [exact Hor|].
  all: split; [first [exact Htrue | intros Hr; discriminate Hr]|].
  all: split; [intros Hex; apply Hfail; trace_scan; exact Hex|].
  all: intros _; exists now; reflexivity.
Qed.

(** When every value can be bound and no operation fails, the loop of
    upserts completes. *)
Lemma reset_upsert_all_quiet ids : forall conn E w t0 rows,
  (forall n, e_faults E n = None) ->
  w_fs w !! c_path conn = Some (Sqlite (Some t0)) ->
  upsert_rows ids (seen conn t0) = Some rows ->
  after (MachineIDResetter.upsert_all conn ids) E w (fun r _ _ =>
    exists conn', r = Ret conn').
Proof.
  induction ids as [|[key value] ids IH]; intros conn E w t0 rows Hnf Hfile Hrows.
  - cbn [MachineIDResetter.upsert_all]. step. eauto.
  - cbn [MachineIDResetter.upsert_all upsert_rows] in *.
    destruct (bind_param value) as [sv|] eqn:Hbind; [|discriminate Hrows].
    do 2 step.
    assert (Hstep : forall conn1,
              c_path conn1 = c_path conn ->
              seen conn1 t0 = <[key:=sv]> (seen conn t0) ->
              after (say "reset.updating_pair" key ;;
                     MachineIDResetter.upsert_all conn1 ids) E (tick w)
                (fun r _ _ => exists conn', r = Ret conn')).
    { intros conn1 Hpath Hseen. do 2 step.
      apply (IH conn1 E (tick w) t0 rows Hnf).
      - rewrite Hpath. exact Hfile.
      - rewrite Hseen. exact Hrows. }
    apply after_io.
    + intros e Hf. rewrite Hnf in Hf. discriminate Hf.
    + intros _ e Hact. cbv beta in Hact. rewrite Hbind in Hact.
      destruct (c_tx conn); [discriminate Hact|].
      rewrite Hfile in Hact. discriminate Hact.
    + intros _ a w' Hact. cbv beta in Hact. rewrite Hbind in Hact.
      destruct (c_tx conn) as [t|] eqn:Htx.
      * injection Hact as <- <-. apply Hstep; [reflexivity|].
        unfold seen. rewrite Htx. reflexivity.
      * rewrite Hfile in Hact. cbn [database_of] in Hact.
        injection Hact as <- <-. apply Hstep; [reflexivity|].
        unfold seen. rewrite Htx. reflexivity.
Qed.

(** From a database that can be opened, a run in which no operation
    fails and every value can be bound returns [True]. *)
Lemma reset_update_sqlite_db_quiet self ids E w t rows :
  (forall n, e_faults E n = None) ->
  database_of (w_fs w !! sqlite_path self) = inr t ->
  upsert_rows ids (default ∅ t) = Some rows ->
  after (MachineIDResetter.update_sqlite_db self ids) E w (fun r _ _ =>
    r = Ret true).
Proof.
  intros Hnf Hdb Hrows. unfold MachineIDResetter.update_sqlite_db.
  repeat (cbn [c_path c_tx];
          lazymatch goal with
          | |- after (bind (MachineIDResetter.upsert_all _ _) _) _ _ _ => fail
          | _ => step_quiet Hnf
          end).
  all: cbn [w_fs tick set_fs] in *.
  all: rewrite ?lookup_insert_eq in *.
  all: repeat match goal with
              | H : w_fs _ !! _ = _ |- _ => rewrite H in *; clear H
              end.
  all: cbn [database_of] in *.
  all: try congruence.
  all: repeat match goal with
              | H : inr _ = inr _ |- _ => injection H as H; subst
              | H1 : ?x = inr _, H2 : ?x = inr _ |- _ => rewrite H1 in H2
              end.
  all: apply after_bind.
  all: eapply after_weaken;
    [ eapply (reset_upsert_all_quiet ids (Connection (sqlite_path self) None)
                E _ _ rows Hnf);
      [ cbn [w_fs tick set_fs c_path]; apply lookup_insert_eq
      | exact Hrows ]
    | ].
  all: cbv beta; intros r w1 t1 [conn' ->].
  all: repeat step_quiet Hnf; reflexivity.
Qed.

(** The table exists as soon as the first two operations, the connection
    and [CREATE TABLE IF NOT EXISTS], have gone through. *)
Lemma reset_table_created self ids E w t :
  e_faults E (w_step w) = None ->
  e_faults E (S (w_step w)) = None ->
  database_of (w_fs w !! sqlite_path self) = inr t ->
  after (MachineIDResetter.update_sqlite_db self ids) E w (fun r w' tr =>
    In (Did (OpSqlCreateTable (sqlite_path self))) tr).
Proof.
  intros Hf0 Hf1 Hdb. unfold MachineIDResetter.update_sqlite_db.
  repeat (cbn [c_path c_tx];
          lazymatch goal with
          | |- after (bind (MachineIDResetter.upsert_all _ _) _) _ _ _ => fail
          | _ => step
          end).
  all: cbn [w_fs tick set_fs w_step] in *.
  all: rewrite ?lookup_insert_eq in *.
  all: repeat match goal with
              | H : w_fs _ !! _ = _ |- _ => rewrite H in *; clear H
              end.
  all: cbn [database_of] in *.
  all: try congruence.
  all: apply after_any; intros r w2 t2; destruct r; [|repeat step].
  all: find_in.
Qed.

(** C4: [update_sqlite_db] creates [ItemTable] when it is absent and is
    all or nothing on the rows that a reader of the database file sees.
    After the run they are the rows from before, or those with every
    upsert of the identity set applied, never some of the upserts; they
    are the latter when the run returns [True], and the former when an
    upsert failed.  Once the [CREATE TABLE IF NOT EXISTS] statement has
    completed the table exists, whatever happens next; and it does
    complete, on a file [sqlite3] can open (a missing one included),
    when the connection and the statement itself do not fail.  When
    nothing fails and every value can be bound, the run returns [True]
    and the table holds the rows with every upsert applied. *)
Theorem C4_database_all_or_nothing self ids E w :
  let run := MachineIDResetter.update_sqlite_db self ids E w in
  let before := rows_of (w_fs w !! sqlite_path self) in
  let now := rows_of (w_fs (world_of run) !! sqlite_path self) in
  (now = before \/ upsert_rows ids before = Some now)
  /\ (result_of run = Ret true -> upsert_rows ids before = Some now)
  /\ (forall p k v e, In (Failed (OpSqlUpsert p k v) e) (trace_of run) ->
        now = before)
  /\ (In (Did (OpSqlCreateTable (sqlite_path self))) (trace_of run) ->
        exists tb,
          w_fs (world_of run) !! sqlite_path self = Some (Sqlite (Some tb)))
  /\ (forall t,
        database_of (w_fs w !! sqlite_path self) = inr t ->
        e_faults E (w_step w) = None ->
        e_faults E (S (w_step w)) = None ->
        In (Did (OpSqlCreateTable (sqlite_path self))) (trace_of run)
        /\ w_fs (world_of run) !! sqlite_path self = Some (Sqlite (Some now)))
  /\ (forall t rows,
        database_of (w_fs w !! sqlite_path self) = inr t ->
        (forall n, e_faults E n = None) ->
        upsert_rows ids before = Some rows ->
        result_of run = Ret true
        /\ w_fs (world_of run) !! sqlite_path self = Some (Sqlite (Some rows))).
Proof.
  intros run before now.
  destruct (reset_update_sqlite_db_run self ids E w)
    as (_ & Hor & Htrue & Hfail & Htable).
  assert (Hcreated : forall t,
            database_of (w_fs w !! sqlite_path self) = inr t ->
            e_faults E (w_step w) = None ->
            e_faults E (S (w_step w)) = None ->
            In (Did (OpSqlCreateTable (sqlite_path self))) (trace_of run)
            /\ w_fs (world_of run) !! sqlite_path self
               = Some (Sqlite (Some now))).
  { intros t Hdb Hf0 Hf1.
    pose proof (reset_table_created self ids E w t Hf0 Hf1 Hdb) as Hin.
    split; [exact Hin|].
    destruct (Htable Hin) as [tb Htb]. subst now run. rewrite Htb.
    reflexivity. }
  split; [exact Hor|]. split; [exact Htrue|].
  split; [|split; [exact Htable|split; [exact Hcreated|]]].
  - intros p k v e Hin. apply Hfail. apply existsb_exists.
    exists (Failed (OpSqlUpsert p k v) e). split; [exact Hin|reflexivity].
  - intros t rows Hdb Hnf Hrows.
    assert (Hbefore : before = default ∅ t).
    { subst before. rewrite <- (rows_of_created _ t Hdb). reflexivity. }
    assert (Hres : result_of run = Ret true).
    { apply (reset_update_sqlite_db_quiet self ids E w t rows Hnf Hdb).
      rewrite <- Hbefore. exact Hrows. }
    split; [exact Hres|].
    destruct (Hcreated t Hdb (Hnf _) (Hnf _)) as [_ Hfile].
    rewrite Hfile. specialize (Htrue Hres).
    change (upsert_rows ids before = Some now) in Htrue.
    rewrite Hrows in Htrue. injection Htrue as <-. reflexivity.
Qed.

(** On a machine without the database file, a run in which nothing fails
    creates the file and the table and writes the two rows. *)
Lemma C4_database_all_or_nothing_witness :
  let w := World ∅ 0 [] in
  let run := MachineIDResetter.update_sqlite_db storage two_ids quiet_env w in
  database_of (w_fs w !! sqlite_path storage) = inr None
  /\ In (Did (OpSqlCreateTable (sqlite_path storage))) (trace_of run)
  /\ result_of run = Ret true
  /\ w_fs (world_of run) !! sqlite_path storage
     = Some (Sqlite (Some (<["telemetry.sqmId" := SqlText "s1"]>
                            (<["telemetry.machineId" := SqlText "m1"]> ∅)))).
Proof.
  intros w run.
  pose proof (C4_database_all_or_nothing storage two_ids quiet_env w)
    as (_ & _ & _ & _ & Hcreated & Hquiet).
  split; [reflexivity|].
  split; [exact (proj1 (Hcreated None eq_refl eq_refl eq_refl))|].
  exact (Hquiet None _ eq_refl (fun n => eq_refl) eq_refl).
Defined.

(** A clean run writes both rows; a run whose second upsert fails (the
    operation counted 3) leaves the rows as they were. *)
Example update_sqlite_db_clean :
  let run := MachineIDResetter.update_sqlite_db storage two_ids quiet_env
               database_world in
  let now := rows_of (w_fs (world_of run) !! sqlite_path storage) in
  result_of run = Ret true
  /\ now !! "foo" = Some (SqlText "bar")
  /\ now !! "telemetry.machineId" = Some (SqlText "m1")
  /\ now !! "telemetry.sqmId" = Some (SqlText "s1").
Proof. vm_compute. auto. Qed.

Example update_sqlite_db_second_upsert_fails :
  let run := MachineIDResetter.update_sqlite_db storage two_ids
               (failing_at 3 SqliteError quiet_env) database_world in
  let now := rows_of (w_fs (world_of run) !! sqlite_path storage) in
  result_of run = Ret false
  /\ In (Did (OpSqlUpsert (sqlite_path storage) "telemetry.machineId"
                (PStr "m1"))) (trace_of run)
  /\ In (Failed (OpSqlUpsert (sqlite_path storage) "telemetry.sqmId"
                   (PStr "s1")) SqliteError) (trace_of run)
  /\ now !! "foo" = Some (SqlText "bar")
  /\ now !! "telemetry.machineId" = None.
Proof. vm_compute. auto 10. Qed.

(** ** The formats of the identity values *)

Lemma hex_digit_lower (n : Z) : is_lower_hex (Hashlib.hex_digit n) = true.
Proof.
  unfold Hashlib.hex_digit. generalize (Z.to_nat n). intros k.
  do 16 (destruct k as [|k]; [reflexivity|]). destruct k; reflexivity.
Qed.

Lemma upper_of_lower_hex (c : ascii) :
  is_lower_hex c = true -> is_upper_hex (PyStr.upper_char c) = true.
Proof.
  destruct c as [[] [] [] [] [] [] [] []]; intros H;
    first [discriminate H | reflexivity].
Qed.

Lemma grouped_digits (digit : ascii -> bool) (g : nat -> ascii) :
  (forall k, digit (g k) = true) ->
  digit_groups digit [8; 4; 4; 4; 12]%nat (grouped (map g (seq 0 32))) = true.
Proof.
  intros Hg. cbn [grouped map seq firstn skipn app digit_groups take_digits].
  rewrite !Hg. reflexivity.
Qed.

Lemma uuid_str_is_uuid (i : Z) : is_uuid_text (Uuid.uuid_str i) = true.
Proof.
  unfold is_uuid_text, Uuid.uuid_str. cbv zeta. rewrite chars_str.
  apply (grouped_digits is_lower_hex
           (fun k => Hashlib.hex_digit
                       (Z.shiftr i (4 * Z.of_nat (31 - k)) mod 16))).
  intros k. apply hex_digit_lower.
Qed.

Lemma grouped_upper (g : nat -> ascii) :
  (forall k, is_lower_hex (g k) = true) ->
  digit_groups is_upper_hex [8; 4; 4; 4; 12]%nat
    (map PyStr.upper_char (grouped (map g (seq 0 32)))) = true.
Proof.
  intros Hg. cbn [grouped map seq firstn skipn app].
  change (PyStr.upper_char "-") with "-"%char.
  cbn [digit_groups take_digits].
  rewrite !upper_of_lower_hex by apply Hg. reflexivity.
Qed.

Lemma chars_append (s t : string) :
  PyStr.chars (s +:+ t) = PyStr.chars s ++ PyStr.chars t.
Proof.
  induction s as [|c s IH]; [reflexivity|].
  change (PyStr.chars (String c (s +:+ t)) = c :: PyStr.chars s ++ PyStr.chars t).
  change (c :: PyStr.chars (s +:+ t) = c :: PyStr.chars s ++ PyStr.chars t).
  rewrite IH. reflexivity.
Qed.

Lemma braced_upper_uuid (i : Z) :
  is_braced_upper_uuid ("{" +:+ PyStr.upper (Uuid.uuid_str i) +:+ "}") = true.
Proof.
  unfold is_braced_upper_uuid. rewrite !chars_append.
  change (PyStr.chars "{") with ["{"%char].
  change (PyStr.chars "}") with ["}"%char].
  cbn [app]. rewrite rev_app_distr. cbn [rev app]. rewrite rev_involutive.
  unfold PyStr.upper, Uuid.uuid_str. cbv zeta. rewrite !chars_str.
  apply (grouped_upper
           (fun k => Hashlib.hex_digit
                       (Z.shiftr i (4 * Z.of_nat (31 - k)) mod 16))).
  intros k. apply hex_digit_lower.
Qed.

Lemma be_bytes_length (n : nat) (x : Z) :
  length (Hashlib.be_bytes n x) = n.
Proof.
  revert x. induction n as [|n IH]; intros x; [reflexivity|].
  cbn [Hashlib.be_bytes]. rewrite length_app, IH. cbn. lia.
Qed.

Lemma flat_map_length_const {A B} (f : A -> list B) (n : nat) (l : list A) :
  (forall a, length (f a) = n) -> length (flat_map f l) = (n * length l)%nat.
Proof.
  intros Hf. induction l as [|a l IH]; cbn [flat_map length]; [lia|].
  rewrite length_app, Hf, IH. lia.
Qed.

Lemma sha2_length (P : Hashlib.sha2_params) (msg : list byte) :
  length (Hashlib.sha2 P msg) = (Hashlib.word_bytes P * 8)%nat.
Proof.
  unfold Hashlib.sha2. rewrite length_map.
  rewrite (flat_map_length_const _ (Hashlib.word_bytes P))
    by (intros a; apply be_bytes_length).
  unfold Hashlib.sha2_words.
  destruct (fold_left _ _ _) as [[[[[[[a b] c] d] e] f] g] h]. reflexivity.
Qed.

Lemma hexdigest_lower (digest : list byte) :
  is_lower_hex_of_length (2 * length digest) (Hashlib.hexdigest digest) = true.
Proof.
  unfold is_lower_hex_of_length, Hashlib.hexdigest. rewrite chars_str.
  apply andb_true_intro. split.
  - apply Nat.eqb_eq.
    rewrite (flat_map_length_const _ 2) by reflexivity. reflexivity.
  - induction digest as [|b digest IH]; [reflexivity|].
    cbn [flat_map Hashlib.hex_byte app forallb].
    rewrite !hex_digit_lower. exact IH.
Qed.

Lemma sha256_hexdigest (msg : list byte) :
  is_lower_hex_of_length 64 (Hashlib.hexdigest (Hashlib.sha256 msg)) = true.
Proof.
  pose proof (hexdigest_lower (Hashlib.sha256 msg)) as H.
  unfold Hashlib.sha256 in *. rewrite sha2_length in H. exact H.
Qed.

Lemma sha512_hexdigest (msg : list byte) :
  is_lower_hex_of_length 128 (Hashlib.hexdigest (Hashlib.sha512 msg)) = true.
Proof.
  pose proof (hexdigest_lower (Hashlib.sha512 msg)) as H.
  unfold Hashlib.sha512 in *. rewrite sha2_length in H. exact H.
Qed.

(** C1: every identity set that [generate_new_ids] returns has the five
    entries below, in this order; the device id is a UUID in textual
    form, the machine id 64 and the mac machine id 128 lowercase
    hexadecimal characters, the sqm id an uppercase UUID in braces, and
    the service machine id is the device id. *)
Theorem C1_identity_formats self E w ids :
  result_of (MachineIDResetter.generate_new_ids self E w) = Ret ids ->
  exists dev machine mac sqm,
    ids = [ ("telemetry.devDeviceId", PStr dev);
            ("telemetry.macMachineId", PStr mac);
            ("telemetry.machineId", PStr machine);
            ("telemetry.sqmId", PStr sqm);
            ("storage.serviceMachineId", PStr dev) ]
    /\ is_uuid_text dev = true
    /\ is_lower_hex_of_length 64 machine = true
    /\ is_lower_hex_of_length 128 mac = true
    /\ is_braced_upper_uuid sqm = true.
Proof.
  intros Hrun.
  destruct (generate_run self E w) as [Hids _].
  rewrite (Hids ids Hrun). unfold identity_set. cbv zeta.
  do 4 eexists. split; [reflexivity|].
  split; [apply uuid_str_is_uuid|].
  split; [apply sha256_hexdigest|].
  split; [apply sha512_hexdigest|apply braced_upper_uuid].
Qed.

Lemma generate_sample :
  result_of (MachineIDResetter.generate_new_ids storage quiet_env (World ∅ 0 []))
  = Ret sample_ids.
Proof. vm_compute. reflexivity. Qed.

Lemma C1_identity_formats_witness :
  result_of (MachineIDResetter.generate_new_ids storage quiet_env (World ∅ 0 []))
  = Ret sample_ids
  /\ exists dev machine mac sqm,
       sample_ids = [ ("telemetry.devDeviceId", PStr dev);
                      ("telemetry.macMachineId", PStr mac);
                      ("telemetry.machineId", PStr machine);
                      ("telemetry.sqmId", PStr sqm);
                      ("storage.serviceMachineId", PStr dev) ]
       /\ is_uuid_text dev = true
       /\ is_lower_hex_of_length 64 machine = true
       /\ is_lower_hex_of_length 128 mac = true
       /\ is_braced_upper_uuid sqm = true.
Proof.
  split; [exact generate_sample|].
  exact (C1_identity_formats storage quiet_env (World ∅ 0 []) sample_ids
           generate_sample).
Defined.

(** ** Identity generation and the file system *)

Lemma reset_update_machine_id_file_total self v E w :
  exists b,
    result_of (MachineIDResetter.update_machine_id_file self v E w) = Ret b.
Proof. apply try_total. intros e w1. eexists. reflexivity. Qed.

(** When its four draws succeed, [generate_new_ids] returns. *)
Lemma generate_returns self E w :
  e_faults E (w_step w) = None ->
  e_faults E (S (w_step w)) = None ->
  e_faults E (S (S (w_step w))) = None ->
  e_faults E (S (S (S (w_step w)))) = None ->
  exists ids,
    result_of (MachineIDResetter.generate_new_ids self E w) = Ret ids.
Proof.
  intros H0 H1 H2 H3.
  change (after (MachineIDResetter.generate_new_ids self) E w
            (fun r _ _ => exists ids, r = Ret ids)).
  unfold MachineIDResetter.generate_new_ids.
  repeat (lazymatch goal with
          | |- after (bind (MachineIDResetter.update_machine_id_file _ _) _)
                 _ _ _ => fail
          | _ => step
          end).
  all: cbn [w_step tick] in *; try congruence.
  apply after_bind. apply after_total.
  - apply reset_update_machine_id_file_total.
  - intros b w' t. cbv beta iota. step. eexists. reflexivity.
Qed.

(** C8, as stated, fails: [generate_new_ids] calls
    [update_machine_id_file], which writes the new device id to the
    machine-id file, after copying the file to a backup when there is
    one. *)
Lemma C8_generation_writes_machine_id_file :
  let fresh := World ∅ 0 [] in
  let used := World {[ machine_id_file := Text "old" ]} 0 [] in
  let dev := "00010203-0405-4607-8809-0a0b0c0d0e0f" in
  let run := MachineIDResetter.generate_new_ids storage quiet_env in
  w_fs fresh !! machine_id_file = None
  /\ w_fs (world_of (run fresh)) !! machine_id_file = Some (Text dev)
  /\ In (Did (OpWrite machine_id_file dev)) (trace_of (run fresh))
  /\ w_fs (world_of (run used)) !! machine_id_file = Some (Text dev)
  /\ w_fs (world_of (run used))
       !! (machine_id_file +:+ ".backup.20240101_120000")
     = Some (Text "old")
  /\ ~ (forall p, w_fs (world_of (run fresh)) !! p = w_fs fresh !! p).
Proof.
  cbv zeta.
  assert (Hnew : w_fs (world_of
                   (MachineIDResetter.generate_new_ids storage quiet_env
                      (World ∅ 0 []))) !! machine_id_file
                 = Some (Text "00010203-0405-4607-8809-0a0b0c0d0e0f"))
    by (vm_compute; reflexivity).
  split; [reflexivity|]. split; [exact Hnew|].
  split; [vm_compute; auto 20|].
  split; [vm_compute; reflexivity|].
  split; [vm_compute; reflexivity|].
  intros Hsame. specialize (Hsame machine_id_file).
  rewrite Hnew in Hsame. discriminate Hsame.
Qed.

(** C8, amended: the identity set returned is a function of the four
    draws from the random source alone, whatever the file system holds;
    the run returns whenever the four draws succeed; and every file whose
    path does not extend the machine-id path is left as it was. *)
Theorem C8_generation_uses_entropy_only self E w :
  let run := MachineIDResetter.generate_new_ids self E w in
  let drawn :=
    identity_set (urandom_at E (w_step w) 16)
                 (urandom_at E (S (w_step w)) 32)
                 (urandom_at E (S (S (w_step w))) 64)
                 (urandom_at E (S (S (S (w_step w)))) 16) in
  (forall ids, result_of run = Ret ids -> ids = drawn)
  /\ ((forall k, (k < 4)%nat -> e_faults E (w_step w + k) = None) ->
      result_of run = Ret drawn)
  /\ (forall p,
        (forall mp, e_machine_id_path E = Some mp ->
                    String.prefix mp p = false) ->
        w_fs (world_of run) !! p = w_fs w !! p).
Proof.
  intros run drawn.
  destruct (generate_run self E w) as [Hids Hframe].
  split; [exact Hids|]. split; [|exact Hframe].
  intros Hquiet.
  destruct (generate_returns self E w) as [ids Hret].
  - rewrite <- (Hquiet 0%nat) by lia. f_equal. lia.
  - rewrite <- (Hquiet 1%nat) by lia. f_equal. lia.
  - rewrite <- (Hquiet 2%nat) by lia. f_equal. lia.
  - rewrite <- (Hquiet 3%nat) by lia. f_equal. lia.
  - fold run in Hret. rewrite Hret. f_equal. apply Hids. exact Hret.
Qed.

(** ** Version numbers *)

Lemma nth_nil_zero (j : nat) : nth j (@nil Z) 0%Z = 0%Z.
Proof. destruct j; reflexivity. Qed.

Lemma pad_zero_nth (l : list Z) : forall n,
  (length l <= n)%nat ->
  pad_zero n l = map (fun j => nth j l 0%Z) (seq 0 n).
Proof.
  unfold pad_zero. induction l as [|x l IH]; intros n Hn.
  - cbn [length app]. rewrite Nat.sub_0_r. clear Hn. generalize 0%nat.
    induction n as [|n IHn]; intros i; [reflexivity|].
    cbn [repeat seq map]. rewrite nth_nil_zero, <- IHn. reflexivity.
  - destruct n as [|n]; [cbn in Hn; lia|].
    cbn [length app Nat.sub seq map nth]. f_equal.
    rewrite <- seq_shift, map_map. apply IH. cbn in Hn. lia.
Qed.

Lemma compare_loop_first_difference (a b : list Z) (range : list nat) :
  compare_loop a b range
  = first_difference (map (fun j => nth j a 0%Z) range)
                     (map (fun j => nth j b 0%Z) range).
Proof.
  induction range as [|i range IH]; [reflexivity|].
  cbn [compare_loop map first_difference]. cbv zeta.
  assert (Hget : forall l : list Z,
            (if (i <? length l)%nat then nth i l 0%Z else 0%Z) = nth i l 0%Z).
  { intros l. destruct (Nat.ltb_spec i (length l)) as [_|Hle]; [reflexivity|].
    symmetry. apply nth_overflow. exact Hle. }
  rewrite !Hget, Z.gtb_ltb, IH. reflexivity.
Qed.

(** [compare_versions] on the parsed components is the numeric order. *)
Lemma compare_loop_numeric (a b : list Z) :
  compare_loop a b (seq 0 (Nat.max (length a) (length b))) = numeric_order a b.
Proof.
  rewrite compare_loop_first_difference. unfold numeric_order. cbv zeta.
  rewrite <- !pad_zero_nth by lia. reflexivity.
Qed.

Lemma numeric_order_same_length (a b : list Z) :
  length a = length b -> numeric_order a b = first_difference a b.
Proof.
  intros Hlen. unfold numeric_order, pad_zero. cbv zeta.
  rewrite <- Hlen, Nat.max_id, Nat.sub_diag. cbn [repeat].
  rewrite !app_nil_r. reflexivity.
Qed.

(** On tuples of one length Python's order is the first difference. *)
Lemma tuple_order_first_difference (a : list Z) : forall b,
  length a = length b ->
  tuple_lt a b = (first_difference a b =? -1)%Z
  /\ tuple_gt a b = (first_difference a b =? 1)%Z.
Proof.
  induction a as [|x a IH]; intros [|y b] Hlen; try discriminate Hlen.
  - split; reflexivity.
  - cbn [tuple_lt tuple_gt first_difference].
    injection Hlen as Hlen. destruct (IH b Hlen) as [Hlt Hgt].
    rewrite Z.gtb_ltb.
    destruct (Z.eqb_spec x y) as [->|Hne].
    + rewrite Z.ltb_irrefl. split; assumption.
    + destruct (Z.ltb_spec x y) as [Hxy|Hxy].
      * destruct (Z.ltb_spec y x); [lia|]. split; reflexivity.
      * destruct (Z.ltb_spec y x); [|lia]. split; reflexivity.
Qed.

(** *** Strings that match the version pattern *)

Lemma digit_not_space (c : ascii) :
  PyStr.is_digit c = true -> PyStr.is_space c = false.
Proof.
  destruct c as [[] [] [] [] [] [] [] []]; intros H;
    first [discriminate H | reflexivity].
Qed.

Lemma digit_not_sign (c : ascii) :
  PyStr.is_digit c = true ->
  Ascii.eqb c "." = false /\ Ascii.eqb c "-" = false
  /\ Ascii.eqb c "+" = false.
Proof.
  destruct c as [[] [] [] [] [] [] [] []]; intros H;
    first [discriminate H | repeat split; reflexivity].
Qed.

Lemma skip_digits_spec (s : list ascii) :
  exists d, forallb PyStr.is_digit d = true /\ s = d ++ skip_digits s.
Proof.
  induction s as [|c s (d & Hd & Hs)]; [exists []; split; reflexivity|].
  cbn [skip_digits]. destruct (PyStr.is_digit c) eqn:Hc.
  - exists (c :: d). cbn [forallb app]. rewrite Hc, Hd, <- Hs.
    split; reflexivity.
  - exists []. split; reflexivity.
Qed.

Lemma digits1_spec (s r : list ascii) :
  digits1 s = Some r ->
  exists c d, PyStr.is_digit c = true /\ forallb PyStr.is_digit d = true
              /\ s = c :: d ++ r.
Proof.
  destruct s as [|c s]; [discriminate|]. cbn [digits1].
  destruct (PyStr.is_digit c) eqn:Hc; [|discriminate].
  intros H. injection H as <-.
  destruct (skip_digits_spec s) as (d & Hd & Hs).
  exists c, d. rewrite <- Hs. auto.
Qed.

Lemma dot_spec (r r' : list ascii) : dot r = Some r' -> r = "."%char :: r'.
Proof.
  destruct r as [|c r]; [discriminate|]. cbn [dot].
  destruct (Ascii.eqb c ".") eqn:Hc; [|discriminate].
  apply Ascii.eqb_eq in Hc. intros H. injection H as <-. subst c. reflexivity.
Qed.

Lemma split_digits (d rest : list ascii) :
  forallb PyStr.is_digit d = true ->
  PyStr.split_chars "." (d ++ "."%char :: rest)
  = d :: PyStr.split_chars "." rest.
Proof.
  induction d as [|c d IH]; intros Hd; [reflexivity|].
  cbn [forallb] in Hd. apply andb_prop in Hd as [Hc Hd].
  cbn [app PyStr.split_chars].
  rewrite (proj1 (digit_not_sign c Hc)), (IH Hd). reflexivity.
Qed.

Lemma split_no_dot (l : list ascii) :
  forallb (fun c => negb (Ascii.eqb c ".")) l = true ->
  PyStr.split_chars "." l = [l].
Proof.
  induction l as [|c l IH]; intros Hl; [reflexivity|].
  cbn [forallb] in Hl. apply andb_prop in Hl as [Hc Hl].
  cbn [PyStr.split_chars]. apply negb_true_iff in Hc.
  rewrite Hc, (IH Hl). reflexivity.
Qed.

Lemma digits_no_dot (d : list ascii) :
  forallb PyStr.is_digit d = true ->
  forallb (fun c => negb (Ascii.eqb c ".")) d = true.
Proof.
  induction d as [|c d IH]; intros Hd; [reflexivity|].
  cbn [forallb] in *. apply andb_prop in Hd as [Hc Hd].
  rewrite (proj1 (digit_not_sign c Hc)), (IH Hd). reflexivity.
Qed.

Lemma lstrip_digits (l : list ascii) :
  forallb PyStr.is_digit l = true -> PyStr.lstrip l = l.
Proof.
  destruct l as [|c l]; [reflexivity|]. cbn [forallb PyStr.lstrip].
  intros H. apply andb_prop in H as [Hc _].
  rewrite (digit_not_space c Hc). reflexivity.
Qed.

(** [int()] ignores the newline that [$] lets through. *)
Lemma strip_digits (d tail : list ascii) :
  forallb PyStr.is_digit d = true ->
  tail = [] \/ tail = ["010"%char] ->
  PyStr.strip (d ++ tail) = d.
Proof.
  intros Hd Htail. unfold PyStr.strip.
  assert (Hrev : forallb PyStr.is_digit (rev d) = true).
  { rewrite forallb_forall in *. intros c Hc. apply Hd, in_rev, Hc. }
  destruct d as [|c d].
  - destruct Htail as [->| ->]; reflexivity.
  - assert (Hc : PyStr.is_space c = false).
    { cbn [forallb] in Hd. apply andb_prop in Hd as [Hc _].
      apply digit_not_space, Hc. }
    cbn [app PyStr.lstrip]. rewrite Hc.
    change (c :: d ++ tail) with ((c :: d) ++ tail).
    rewrite rev_app_distr.
    destruct Htail as [->| ->]; cbn [rev app PyStr.lstrip].
    + cbn [rev] in Hrev. rewrite (lstrip_digits _ Hrev).
      rewrite rev_app_distr, rev_involutive. reflexivity.
    + change (PyStr.is_space "010") with true. cbv iota.
      cbn [rev] in Hrev. rewrite (lstrip_digits _ Hrev).
      rewrite rev_app_distr, rev_involutive. reflexivity.
Qed.

Lemma int_digits_total (d : list ascii) : forall acc,
  forallb PyStr.is_digit d = true ->
  exists v, PyStr.int_digits acc true d = Some v.
Proof.
  induction d as [|c d IH]; intros acc Hd; [eexists; reflexivity|].
  cbn [forallb] in Hd. apply andb_prop in Hd as [Hc Hd].
  cbn [PyStr.int_digits]. rewrite Hc. apply IH, Hd.
Qed.

Lemma int_chars_digits (c : ascii) (d tail : list ascii) :
  PyStr.is_digit c = true -> forallb PyStr.is_digit d = true ->
  tail = [] \/ tail = ["010"%char] ->
  exists v, PyStr.int_chars (c :: d ++ tail) = Some v.
Proof.
  intros Hc Hd Htail. unfold PyStr.int_chars.
  change (c :: d ++ tail) with ((c :: d) ++ tail).
  rewrite strip_digits; [|cbn [forallb]; rewrite Hc, Hd; reflexivity|exact Htail].
  destruct (digit_not_sign c Hc) as (_ & -> & ->).
  cbn [PyStr.int_digits]. rewrite Hc. apply int_digits_total, Hd.
Qed.

(** A string that matches the pattern parses into three numbers. *)
Lemma pattern_parses (s : string) :
  version_pattern s = true -> exists a b c, parse_version s = Ret [a; b; c].
Proof.
  unfold version_pattern, parse_version.
  destruct (digits1 (PyStr.chars s)) as [r1|] eqn:H1; [|discriminate].
  destruct (dot r1) as [r2|] eqn:H2; [|discriminate].
  destruct (digits1 r2) as [r3|] eqn:H3; [|discriminate].
  destruct (dot r3) as [r4|] eqn:H4; [|discriminate].
  destruct (digits1 r4) as [r5|] eqn:H5; [|discriminate].
  intros Hend.
  assert (Htail : r5 = [] \/ r5 = ["010"%char]).
  { destruct r5 as [|c [|c' r5]]; [auto| |discriminate].
    apply Ascii.eqb_eq in Hend. subst c. auto. }
  apply digits1_spec in H1 as (c1 & d1 & Hc1 & Hd1 & ->).
  apply dot_spec in H2 as ->.
  apply digits1_spec in H3 as (c2 & d2 & Hc2 & Hd2 & ->).
  apply dot_spec in H4 as ->.
  apply digits1_spec in H5 as (c3 & d3 & Hc3 & Hd3 & ->).
  change (c1 :: d1 ++ "."%char :: c2 :: d2 ++ "."%char :: c3 :: d3 ++ r5)
    with ((c1 :: d1) ++ "."%char :: (c2 :: d2) ++ "."%char :: (c3 :: d3) ++ r5).
  rewrite !split_digits by (cbn [forallb]; rewrite ?Hc1, ?Hc2, ?Hd1, ?Hd2; reflexivity).
  rewrite split_no_dot.
  2:{ rewrite forallb_app. apply andb_true_intro. split.
      - apply digits_no_dot. cbn [forallb]. rewrite Hc3, Hd3. reflexivity.
      - destruct Htail as [->| ->]; reflexivity. }
  destruct (int_chars_digits c1 d1 [] Hc1 Hd1 (or_introl eq_refl)) as [a Ha].
  destruct (int_chars_digits c2 d2 [] Hc2 Hd2 (or_introl eq_refl)) as [b Hb].
  destruct (int_chars_digits c3 d3 r5 Hc3 Hd3 Htail) as [c Hc].
  rewrite app_nil_r in Ha, Hb.
  exists a, b, c. cbn [int_list app]. cbn [app] in Hc.
  rewrite Ha, Hb, Hc. reflexivity.
Qed.

Lemma compare_versions_parsed (s1 s2 : string) (a b : list Z) :
  parse_version s1 = Ret a -> parse_version s2 = Ret b ->
  compare_versions s1 s2 = Ret (numeric_order a b).
Proof.
  unfold parse_version, compare_versions. intros -> ->.
  rewrite compare_loop_numeric. reflexivity.
Qed.

(** The bound test of [version_check] on parsed three-component
    versions is the one [compare_versions] gives. *)
Lemma bound_test (v bound : string) (a b : list Z) :
  parse_version v = Ret a -> parse_version bound = Ret b ->
  length a = length b ->
  tuple_lt a b = compares_as (-1) v bound
  /\ tuple_gt a b = compares_as 1 v bound.
Proof.
  intros Ha Hb Hlen. unfold compares_as.
  rewrite (compare_versions_parsed v bound a b Ha Hb).
  rewrite (numeric_order_same_length a b Hlen).
  apply tuple_order_first_difference, Hlen.
Qed.

Lemma bound_cases (v bound : string) (a b c : Z) :
  parse_version v = Ret [a; b; c] ->
  bound = "" \/ version_pattern bound = true ->
  is_empty_str bound = true
  \/ (is_empty_str bound = false
      /\ exists m, parse_version bound = Ret m
           /\ tuple_lt [a; b; c] m = compares_as (-1) v bound
           /\ tuple_gt [a; b; c] m = compares_as 1 v bound).
Proof.
  intros Hv [->|Hb]; [left; reflexivity|right].
  split; [destruct bound; [discriminate Hb|reflexivity]|].
  destruct (pattern_parses bound Hb) as (x & y & z & Hm).
  exists [x; y; z]. split; [exact Hm|].
  apply (bound_test v bound _ _ Hv Hm). reflexivity.
Qed.

Lemma version_check_in_range (v mn mx : string) E w :
  version_pattern v = true ->
  mn = "" \/ version_pattern mn = true ->
  mx = "" \/ version_pattern mx = true ->
  after (version_check (PStr v) mn mx) E w (fun r _ _ =>
    r = Ret (in_range v mn mx)).
Proof.
  intros Hv Hmn Hmx.
  destruct (pattern_parses v Hv) as (a & b & c & Hpv).
  unfold version_check, in_range. rewrite Hv. cbn [negb].
  do 3 step. rewrite Hpv. cbv beta iota. step.
  destruct (bound_cases v mn a b c Hpv Hmn)
    as [->|(-> & m1 & -> & Hlt & _)];
    destruct (bound_cases v mx a b c Hpv Hmx)
      as [->|(-> & m2 & -> & _ & Hgt)];
    cbn [negb andb]; repeat step;
    rewrite <- ?Hlt, <- ?Hgt; reflexivity.
Qed.

(** C7: the three comparisons of the specification hold;
    [compare_versions] of two strings that parse is the numeric order of
    their components, the shorter list padded with zeros; and for a
    version and bounds that match the version pattern (a bound may also
    be empty) [version_check] returns whether the version is not below
    the minimum and not above the maximum in the order of
    [compare_versions]. *)
Theorem C7_version_order :
  compare_versions "0.9.0" "0.10.0" = Ret (-1)%Z
  /\ compare_versions "0.45.0" "0.45.0" = Ret 0%Z
  /\ compare_versions "1.0.0" "0.9.9" = Ret 1%Z
  /\ (forall s1 s2 a b,
        parse_version s1 = Ret a -> parse_version s2 = Ret b ->
        compare_versions s1 s2 = Ret (numeric_order a b))
  /\ (forall v mn mx E w,
        version_pattern v = true ->
        mn = "" \/ version_pattern mn = true ->
        mx = "" \/ version_pattern mx = true ->
        result_of (version_check (PStr v) mn mx E w)
        = Ret (in_range v mn mx)).
Proof.
  split; [vm_compute; reflexivity|].
  split; [vm_compute; reflexivity|].
  split; [vm_compute; reflexivity|].
  split; [exact compare_versions_parsed|].
  intros v mn mx E w Hv Hmn Hmx.
  exact (version_check_in_range v mn mx E w Hv Hmn Hmx).
Qed.

(** The gate of the reset flow, [min_version="0.45.0"], on two
    versions. *)
Example version_check_sample :
  result_of (version_check (PStr "0.9.0") "0.45.0" "" quiet_env (World ∅ 0 []))
  = Ret false
  /\ in_range "0.9.0" "0.45.0" "" = false
  /\ result_of (version_check (PStr "0.50.5") "0.45.0" "" quiet_env
                  (World ∅ 0 []))
     = Ret true
  /\ in_range "0.50.5" "0.45.0" "" = true.
Proof. vm_compute. auto. Qed.

(** ** The order of [compare_versions] *)

Lemma first_difference_range (a : list Z) : forall b,
  first_difference a b = (-1)%Z \/ first_difference a b = 0%Z
  \/ first_difference a b = 1%Z.
Proof.
  induction a as [|x a IH]; intros [|y b]; cbn [first_difference]; auto.
  destruct (x <? y)%Z; [auto|]. destruct (y <? x)%Z; auto.
Qed.

Lemma first_difference_opp (a : list Z) : forall b,
  first_difference b a = (- first_difference a b)%Z.
Proof.
  induction a as [|x a IH]; intros [|y b]; cbn [first_difference]; auto.
  destruct (Z.ltb_spec x y), (Z.ltb_spec y x); try lia; auto.
Qed.

Lemma numeric_order_opp (a b : list Z) :
  numeric_order b a = (- numeric_order a b)%Z.
Proof.
  unfold numeric_order. cbv zeta. rewrite (Nat.max_comm (length b)).
  apply first_difference_opp.
Qed.

Lemma pad_zero_length (n : nat) (l : list Z) :
  (length l <= n)%nat -> length (pad_zero n l) = n.
Proof.
  intros H. unfold pad_zero. rewrite length_app, repeat_length. lia.
Qed.

(** Lists of one length compare as equal exactly when they are equal. *)
Lemma first_difference_zero (a : list Z) : forall b,
  length a = length b -> (first_difference a b = 0%Z <-> a = b).
Proof.
  induction a as [|x a IH]; intros [|y b] Hlen; try discriminate Hlen.
  - split; reflexivity.
  - cbn [first_difference]. injection Hlen as Hlen.
    destruct (Z.ltb_spec x y); [split; [discriminate|intros [= -> _]; lia]|].
    destruct (Z.ltb_spec y x); [split; [discriminate|intros [= -> _]; lia]|].
    assert (x = y) by lia. subst y. rewrite (IH b Hlen).
    split; [intros ->; reflexivity|intros [= ->]; reflexivity].
Qed.

Lemma first_difference_refl (a : list Z) : first_difference a a = 0%Z.
Proof. apply first_difference_zero; reflexivity. Qed.

(** Common further components do not change a comparison of lists of one
    length. *)
Lemma first_difference_app (a : list Z) : forall b z,
  length a = length b ->
  first_difference (a ++ z) (b ++ z) = first_difference a b.
Proof.
  induction a as [|x a IH]; intros [|y b] z Hlen; try discriminate Hlen.
  - cbn [app first_difference]. rewrite first_difference_refl.
    destruct z; reflexivity.
  - cbn [app first_difference]. injection Hlen as Hlen.
    rewrite (IH b z Hlen). reflexivity.
Qed.

Lemma pad_zero_more (n k : nat) (l : list Z) :
  (length l <= n)%nat -> pad_zero (n + k) l = pad_zero n l ++ repeat 0%Z k.
Proof.
  intros H. unfold pad_zero. rewrite <- app_assoc, <- repeat_app.
  do 2 f_equal. lia.
Qed.

(** Padding beyond the longer list does not change the order. *)
Lemma numeric_order_padded (a b : list Z) (n : nat) :
  (length a <= n)%nat -> (length b <= n)%nat ->
  first_difference (pad_zero n a) (pad_zero n b) = numeric_order a b.
Proof.
  intros Ha Hb. unfold numeric_order. cbv zeta.
  set (m := Nat.max (length a) (length b)).
  replace n with (m + (n - m))%nat by lia.
  rewrite !pad_zero_more by lia.
  apply first_difference_app. rewrite !pad_zero_length by lia. reflexivity.
Qed.

Lemma first_difference_trans (a : list Z) : forall b c,
  length a = length b -> length b = length c ->
  (first_difference a b <= 0)%Z -> (first_difference b c <= 0)%Z ->
  (first_difference a c <= 0)%Z.
Proof.
  induction a as [|x a IH]; intros [|y b] [|z c] Hab Hbc; try discriminate;
    cbn [first_difference]; try lia.
  injection Hab as Hab. injection Hbc as Hbc.
  destruct (Z.ltb_spec x y), (Z.ltb_spec y x), (Z.ltb_spec y z),
    (Z.ltb_spec z y), (Z.ltb_spec x z), (Z.ltb_spec z x);
    try lia; intros Hle1 Hle2.
  apply (IH b c Hab Hbc Hle1 Hle2).
Qed.

(** X1: whenever [compare_versions] returns, the result is -1, 0 or 1,
    and comparing the other way round returns the opposite. *)
Theorem compare_versions_antisymmetric (version1 version2 : string) (c : Z) :
  compare_versions version1 version2 = Ret c ->
  (c = (-1)%Z \/ c = 0%Z \/ c = 1%Z)
  /\ compare_versions version2 version1 = Ret (- c)%Z.
Proof.
  unfold compare_versions.
  destruct (int_list (PyStr.split_chars "." (PyStr.chars version1)))
    as [a|e1]; [|discriminate].
  destruct (int_list (PyStr.split_chars "." (PyStr.chars version2)))
    as [b|e2]; [|discriminate].
  rewrite !compare_loop_numeric. intros [= <-]. split.
  - apply first_difference_range.
  - rewrite <- numeric_order_opp. reflexivity.
Qed.

Lemma compare_versions_antisymmetric_witness :
  compare_versions "0.45.0" "0.46.0" = Ret (-1)%Z
  /\ compare_versions "0.46.0" "0.45.0" = Ret 1%Z.
Proof.
  assert (H : compare_versions "0.45.0" "0.46.0" = Ret (-1)%Z)
    by (vm_compute; reflexivity).
  split; [exact H|].
  exact (proj2 (compare_versions_antisymmetric "0.45.0" "0.46.0" (-1)%Z H)).
Defined.

(** X2: two versions that parse compare as equal exactly when their
    component lists, padded with zeros to one length, are the same list:
    trailing zero components do not count. *)
Theorem compare_versions_equal_iff (version1 version2 : string)
  (a b : list Z) :
  parse_version version1 = Ret a -> parse_version version2 = Ret b ->
  let n := Nat.max (length a) (length b) in
  compare_versions version1 version2 = Ret 0%Z
  <-> pad_zero n a = pad_zero n b.
Proof.
  intros Ha Hb n. rewrite (compare_versions_parsed _ _ a b Ha Hb).
  unfold numeric_order. cbv zeta. fold n.
  rewrite <- (first_difference_zero (pad_zero n a) (pad_zero n b))
    by (rewrite !pad_zero_length by lia; reflexivity).
  split; [intros [= H]; exact H|intros ->; reflexivity].
Qed.

Lemma compare_versions_equal_iff_witness :
  compare_versions "1.2" "1.2.0.0" = Ret 0%Z.
Proof.
  apply (compare_versions_equal_iff "1.2" "1.2.0.0" [1; 2]%Z [1; 2; 0; 0]%Z);
    reflexivity.
Defined.

(** X3: the order of [compare_versions] is transitive: from
    [v1 <= v2] and [v2 <= v3] follows [v1 <= v3], with equality only
    when both were equalities. *)
Theorem compare_versions_transitive (v1 v2 v3 : string) (c12 c23 : Z) :
  compare_versions v1 v2 = Ret c12 -> compare_versions v2 v3 = Ret c23 ->
  (c12 <= 0)%Z -> (c23 <= 0)%Z ->
  exists c13, compare_versions v1 v3 = Ret c13 /\ (c13 <= 0)%Z
              /\ (c13 = 0%Z -> c12 = 0%Z /\ c23 = 0%Z).
Proof.
  unfold compare_versions.
  destruct (int_list (PyStr.split_chars "." (PyStr.chars v1)))
    as [a|e1]; [|discriminate].
  destruct (int_list (PyStr.split_chars "." (PyStr.chars v2)))
    as [b|e2]; [|discriminate].
  destruct (int_list (PyStr.split_chars "." (PyStr.chars v3)))
    as [c|e3]; [|discriminate].
  rewrite !compare_loop_numeric. intros [= <-] [= <-] H12 H23.
  eexists. split; [reflexivity|].
  set (n := Nat.max (length a) (Nat.max (length b) (length c))).
  rewrite <- (numeric_order_padded a b n) in * by lia.
  rewrite <- (numeric_order_padded b c n) in * by lia.
  rewrite <- (numeric_order_padded a c n) by lia.
  assert (Hlen : forall l : list Z, (length l <= n)%nat ->
                   length (pad_zero n l) = n)
    by (intros l Hl; apply pad_zero_length, Hl).
  split.
  - apply (first_difference_trans _ (pad_zero n b));
      rewrite ?Hlen by lia; auto.
  - intros H13.
    apply first_difference_zero in H13; [|rewrite !Hlen by lia; reflexivity].
    rewrite <- H13 in H23.
    rewrite (first_difference_opp (pad_zero n a) (pad_zero n b)) in H23.
    rewrite <- H13, (first_difference_opp (pad_zero n a) (pad_zero n b)).
    lia.
Qed.

Lemma compare_versions_transitive_witness :
  compare_versions "0.9" "0.10.0" = Ret (-1)%Z
  /\ compare_versions "0.10.0" "1.0.0" = Ret (-1)%Z
  /\ exists c13, compare_versions "0.9" "1.0.0" = Ret c13 /\ (c13 <= 0)%Z.
Proof.
  assert (H12 : compare_versions "0.9" "0.10.0" = Ret (-1)%Z)
    by (vm_compute; reflexivity).
  assert (H23 : compare_versions "0.10.0" "1.0.0" = Ret (-1)%Z)
    by (vm_compute; reflexivity).
  split; [exact H12|]. split; [exact H23|].
  destruct (compare_versions_transitive "0.9" "0.10.0" "1.0.0" (-1) (-1)
              H12 H23 ltac:(lia) ltac:(lia)) as (c13 & H13 & Hle & _).
  exists c13. split; assumption.
Defined.

(** ** The version gate *)

Lemma version_check_run version mn mx E w :
  after (version_check version mn mx) E w (fun r w' t =>
    w' = w /\ (exists b, r = Ret b)
    /\ (r = Ret true ->
        exists v cur,
          version = PStr v /\ version_pattern v = true
          /\ parse_version v = Ret cur
          /\ (mn = "" \/ exists m, parse_version mn = Ret m
                                   /\ tuple_lt cur m = false)
          /\ (mx = "" \/ exists m, parse_version mx = Ret m
                                   /\ tuple_gt cur m = false))).
Proof.
  unfold version_check.
  repeat first [ step
               | lazymatch goal with
                 | |- match ?x with _ => _ end => destruct x eqn:?
                 end; cbv beta iota ].
  all: split; [reflexivity|]; split; [eexists; reflexivity|].
  all: intros Hr; try discriminate Hr.
  all: apply negb_false_iff in Heqb.
  all: exists s, a; split; [reflexivity|]; split; [exact Heqb|].
  all: split; [exact Heqo|].
  all: split;
    first [ left; apply String.eqb_eq; assumption
          | right; eexists; split; [reflexivity|assumption] ].
Qed.

(** X4: [version_check] never raises and has no effect besides its
    messages; it returns [True] only for a string that matches the
    version pattern, and only when each bound that is not empty parses
    and is respected.  A version that is not a string, a version in
    another format and a bound that does not parse all give [False]. *)
Theorem version_check_fails_closed version mn mx E w :
  let run := version_check version mn mx E w in
  world_of run = w
  /\ (exists b, result_of run = Ret b)
  /\ (result_of run = Ret true ->
      exists v cur,
        version = PStr v /\ version_pattern v = true
        /\ parse_version v = Ret cur
        /\ (mn = "" \/ exists m, parse_version mn = Ret m
                                 /\ tuple_lt cur m = false)
        /\ (mx = "" \/ exists m, parse_version mx = Ret m
                                 /\ tuple_gt cur m = false)).
Proof. exact (version_check_run version mn mx E w). Qed.

Example version_check_rejects :
  result_of (version_check (PInt 1) "" "" quiet_env (World ∅ 0 [])) = Ret false
  /\ result_of (version_check (PStr "0.46") "" "" quiet_env (World ∅ 0 []))
     = Ret false
  /\ result_of (version_check (PStr "0.46.0") "latest" "" quiet_env
                  (World ∅ 0 []))
     = Ret false.
Proof. vm_compute. auto. Qed.

Lemma tuple_gt_extension (m rest : list Z) :
  rest <> [] -> tuple_gt (m ++ rest) m = true /\ tuple_lt (m ++ rest) m = false.
Proof.
  intros Hrest. induction m as [|x m IH]; cbn [app tuple_gt tuple_lt].
  - destruct rest; [contradiction|split; reflexivity].
  - rewrite Z.eqb_refl. exact IH.
Qed.

Lemma parse_not_empty (s : string) (m : list Z) :
  parse_version s = Ret m -> is_empty_str s = false.
Proof. destruct s; [discriminate|reflexivity]. Qed.

(** X5: the range check compares tuples as Python does, not with zero
    padding: a bound with fewer components than the version, all of them
    equal to the version's, counts as smaller than the version.  As a
    maximum it rejects the version, as a minimum it lets it pass,
    whatever [compare_versions] says of the two. *)
Theorem version_check_short_bound (v bound : string) (m rest : list Z) E w :
  version_pattern v = true ->
  parse_version v = Ret (m ++ rest) -> rest <> [] ->
  parse_version bound = Ret m ->
  result_of (version_check (PStr v) "" bound E w) = Ret false
  /\ result_of (version_check (PStr v) bound "" E w) = Ret true.
Proof.
  intros Hv Hpv Hrest Hpb.
  destruct (tuple_gt_extension m rest Hrest) as [Hgt Hlt].
  pose proof (parse_not_empty bound m Hpb) as Hne.
  split.
  - change (after (version_check (PStr v) "" bound) E w
              (fun r _ _ => r = Ret false)).
    unfold version_check. rewrite Hv, Hne. cbn [negb].
    do 3 step. rewrite Hpv. cbv beta iota.
    change (is_empty_str "") with true. cbv iota.
    do 4 step. rewrite Hpb. cbv beta iota. step. rewrite Hgt.
    repeat step. reflexivity.
  - change (after (version_check (PStr v) bound "") E w
              (fun r _ _ => r = Ret true)).
    unfold version_check. rewrite Hv, Hne. cbn [negb].
    do 3 step. rewrite Hpv. cbv beta iota.
    do 3 step. rewrite Hpb. cbv beta iota. step. rewrite Hlt.
    change (is_empty_str "") with true. cbv iota.
    repeat step. reflexivity.
Qed.

Lemma version_check_short_bound_witness :
  compare_versions "0.45.0" "0.45" = Ret 0%Z
  /\ result_of (version_check (PStr "0.45.0") "" "0.45" quiet_env (World ∅ 0 []))
     = Ret false
  /\ result_of (version_check (PStr "0.45.0") "0.45" "" quiet_env (World ∅ 0 []))
     = Ret true.
Proof.
  split; [vm_compute; reflexivity|].
  apply (version_check_short_bound "0.45.0" "0.45" [0; 45]%Z [0%Z]);
    first [vm_compute; reflexivity | discriminate].
Defined.

(** One step of a run, also through a [match] on a value computed on the
    way. *)
Ltac step_through :=
  first [ step
        | lazymatch goal with
          | |- match ?x with _ => _ end => destruct x eqn:?
          end; cbv beta iota ].

(** ** The version of the installation *)

Lemma check_cursor_version_run E w :
  after check_cursor_version E w (fun r w' t =>
    (forall ev, In ev t -> reads_package E ev)
    /\ (forall e, r = Raise e ->
          e = UnboundLocalError
          /\ In (Failed (OpResolve "cursor_paths") FileNotFoundError) t)
    /\ (r = Ret true ->
        exists pkg main d ver cur,
          e_cursor_paths E = Some (pkg, main)
          /\ w_fs w !! pkg = Some (Json (PDict d))
          /\ dict_get "version" d = Some ver
          /\ version_pattern (strip_str (py_str E ver)) = true
          /\ parse_version (strip_str (py_str E ver)) = Ret cur
          /\ tuple_lt cur [0; 45; 0]%Z = false)).
Proof.
  unfold check_cursor_version, check_cursor_version_body.
  repeat step_through.
  all: cbn [w_fs tick set_fs] in *.
  all: split;
    [ intros ev Hin; cbn [In app] in Hin;
      repeat match type of Hin with
             | _ \/ _ => destruct Hin as [<-|Hin]
             end;
      try contradiction; cbn [reads_package];
      try exact I; try (left; reflexivity);
      (right; do 2 eexists; split; [eassumption|reflexivity]) |].
  all: split;
    [ intros e' Hr;
      first [ discriminate Hr
            | injection Hr as <-; split;
              [reflexivity | destruct e; try discriminate; in_trace] ]
    | intros Hr; try discriminate Hr ].
  all: repeat match goal with
              | H : negb _ = false |- _ => apply negb_false_iff in H
              | H : negb _ = true |- _ => apply negb_true_iff in H
              end.
  all: do 5 eexists; split; [reflexivity|]; split; [eassumption|].
  all: split; [eassumption|]; split; [eassumption|]; split; eassumption.
Qed.

Lemma check_cursor_version_passes E w pkg main d ver cur :
  (forall n, e_faults E n = None) ->
  e_cursor_paths E = Some (pkg, main) ->
  w_fs w !! pkg = Some (Json (PDict d)) ->
  dict_get "version" d = Some ver ->
  version_pattern (strip_str (py_str E ver)) = true ->
  parse_version (strip_str (py_str E ver)) = Ret cur ->
  tuple_lt cur [0; 45; 0]%Z = false ->
  after check_cursor_version E w (fun r _ _ => r = Ret true).
Proof.
  intros Hnf Hpaths Hfile Hver Hpat Hparse Hmin.
  assert (Hne : is_empty_str (strip_str (py_str E ver)) = false)
    by (destruct (strip_str (py_str E ver)); [discriminate Hparse|reflexivity]).
  unfold check_cursor_version, check_cursor_version_body.
  repeat first [ step_quiet Hnf
               | lazymatch goal with
                 | |- match ?x with _ => _ end => destruct x eqn:?
                 end; cbv beta iota ].
  all: cbn [w_fs tick set_fs] in *.
  all: repeat match goal with
              | H : negb _ = false |- _ => apply negb_false_iff in H
              | H : negb _ = true |- _ => apply negb_true_iff in H
              end.
  all: try reflexivity.
  all: exfalso; congruence.
Qed.

(** X6: [check_cursor_version] returns [True] only when [package.json]
    holds an object with a [version] that, stripped, matches the pattern
    and is at least 0.45.0; when no operation fails, it returns [True]
    whenever that is so. *)
Theorem check_cursor_version_true_iff E w :
  (result_of (check_cursor_version E w) = Ret true -> version_passes E w)
  /\ ((forall n, e_faults E n = None) -> version_passes E w ->
      result_of (check_cursor_version E w) = Ret true).
Proof.
  split.
  - apply (check_cursor_version_run E w).
  - intros Hnf (pkg & main & d & ver & cur & H1 & H2 & H3 & H4 & H5 & H6).
    exact (check_cursor_version_passes E w pkg main d ver cur
             Hnf H1 H2 H3 H4 H5 H6).
Qed.

(** X7: apart from printing, [check_cursor_version] attempts nothing
    but the path resolution and the load of [package.json], whatever
    fails.  It raises in one case only: when the path resolution fails
    with [FileNotFoundError], the handler for that error formats
    [pkg_path], which is not bound yet, and [UnboundLocalError] leaves
    the function. *)
Theorem check_cursor_version_reads_only E w :
  let run := check_cursor_version E w in
  (forall ev, In ev (trace_of run) -> reads_package E ev)
  /\ (forall e, result_of run = Raise e ->
        e = UnboundLocalError
        /\ In (Failed (OpResolve "cursor_paths") FileNotFoundError)
             (trace_of run)).
Proof.
  destruct (check_cursor_version_run E w) as (Hev & Hraise & _).
  split; [exact Hev|exact Hraise].
Qed.

Example check_cursor_version_sample :
  result_of (check_cursor_version quiet_env package_world) = Ret true
  /\ result_of (check_cursor_version
                  (failing_at 0 FileNotFoundError quiet_env) package_world)
     = Raise UnboundLocalError
  /\ result_of (check_cursor_version
                  (failing_at 0 PermissionError quiet_env) package_world)
     = Ret false.
Proof. vm_compute. auto. Qed.

(** ** Patching [main.js] *)

Lemma after_re_sub content E w
  (Q : outcome string -> world -> list event -> Prop) :
  Q (Ret (e_main_js_sub E content)) w [] ->
  after (re_sub_machine_id content) E w Q.
Proof. intros H. exact H. Qed.

Ltac step_main :=
  first [ lazymatch goal with
          | |- after (re_sub_machine_id _) _ _ _ => apply after_re_sub
          end; cbv beta iota
        | step ].

Lemma main_js_run main_path E w d :
  w_fs w !! main_path = Some d ->
  after (modify_main_js main_path) E w (fun r w' t =>
    let patched := Text (e_main_js_sub E (file_text E d)) in
    (w_fs w' !! main_path = Some d \/ w_fs w' !! main_path = Some patched)
    /\ (forall tmp, In (Did (OpMove tmp main_path)) t -> r <> Ret false)
    /\ ((forall n, String.prefix main_path (e_tmpname E n) = false) ->
        r = Ret true -> w_fs w' !! main_path = Some patched)).
Proof.
  intros Hd. unfold modify_main_js.
  repeat step_main.
  all: cbn [w_fs tick set_fs w_step] in *.
  all: cbv zeta.
  all: repeat match goal with
           | H : Some _ = Some _ |- _ => injection H as H; subst
           end.
  all: try match goal with
           | Hm : w_fs _ !! ?p = Some _, Hf : w_fs _ !! ?q = None |- _ =>
               pose proof (fresh_ne _ _ _ _ Hm Hf) as Htmp
           end.
  all: try match goal with
           | |- context [?p +:+ ".old." +:+ ?x] =>
               pose proof (suffixed_path_ne p ".old." x
                             ltac:(discriminate)) as Hbak
           end.
  all: decide_hyps; fs_lookup.
  all: repeat match goal with
           | H : ?a = Some _, H' : ?a = Some _ |- _ =>
               rewrite H in H'; injection H' as H'; subst
           end.
  all: split; [|split].
  all: try solve [intros tmp Hin Hr; discriminate Hr].
  all: try solve [intros Hpre Hr; discriminate Hr].
  all: try solve [intros tmp Hin; split_in Hin].
  all: try solve [left; congruence].
  all: try solve [left; assumption].
  all: try discriminate.
  all: try match goal with
           | H : <[?b:=_]> _ !! ?t = Some _ |- _ =>
               destruct (decide (b = t)) as [Heq|Hne];
               [ try (intros Hpre Hr; exfalso;
                      exact (not_prefixed_ne_ext _ _ _ (Hpre _) (eq_sym Heq)));
                 rewrite Heq in *
               | ]
           end.
  all: fs_lookup.
  all: repeat match goal with
           | H : Some _ = Some _ |- _ => injection H as H; subst
           end.
  all: try solve [left; reflexivity].
  all: try solve [right; reflexivity].
  all: try solve [intros; reflexivity].
  all: try solve [intros tmp Hin Hr; discriminate Hr].
Qed.

(** X8: [modify_main_js] keeps [main.js] unless the move itself fails.
    In a run without a failed move the file ends with its original
    content or with the rewritten one, whatever else fails; once the
    move has been made the function no longer returns [False] (a later
    failure leaves the handler through its unlink of the moved file);
    and when temporary names do not extend the path, [True] means the
    file holds the rewritten content.  Of a run whose move fails
    nothing is said: [shutil.move] may by then have copied over the
    file. *)
Theorem modify_main_js_keeps_main_js (main_path : string) (d : fdata)
  (E : env) (w : world) :
  w_fs w !! main_path = Some d ->
  let run := modify_main_js main_path E w in
  let patched := Text (e_main_js_sub E (file_text E d)) in
  ((forall tmp e, ~ In (Failed (OpMove tmp main_path) e) (trace_of run)) ->
   w_fs (world_of run) !! main_path = Some d
   \/ w_fs (world_of run) !! main_path = Some patched)
  /\ (forall tmp, In (Did (OpMove tmp main_path)) (trace_of run) ->
      result_of run <> Ret false)
  /\ ((forall n, String.prefix main_path (e_tmpname E n) = false) ->
      result_of run = Ret true ->
      w_fs (world_of run) !! main_path = Some patched).
Proof.
  intros Hd run patched.
  destruct (main_js_run main_path E w d Hd) as (Hkept & Hmoved & Hok).
  split; [intros _; exact Hkept|]. split; [exact Hmoved|exact Hok].
Qed.

Lemma modify_main_js_keeps_main_js_witness :
  w_fs (world_of (modify_main_js main_js patching_env package_world)) !! main_js
  = Some (Text "async getMachineId(){return b}")
  /\ result_of (modify_main_js main_js (failing_at 6 OSError patching_env)
                  package_world) = Raise FileNotFoundError
  /\ result_of (modify_main_js main_js (failing_at 4 OSError patching_env)
                  package_world) = Ret false.
Proof.
  split; [|split; vm_compute; reflexivity].
  destruct (modify_main_js_keeps_main_js main_js
              (Text "async getMachineId(){return a??b}")
              patching_env package_world) as (_ & _ & Hok);
    [vm_compute; reflexivity|].
  rewrite Hok; [vm_compute; reflexivity|intros n; reflexivity
               |vm_compute; reflexivity].
Defined.

Lemma version_check_prints version mn mx :
  emits_only (fun ev => exists key arg, ev = Print key arg)
    (version_check version mn mx).
Proof. unfold version_check. emits_with ltac:(eauto). Qed.

(** Events known one by one only look. *)
Ltac looks_only Hin :=
  repeat match goal with
         | p : (_ * _)%type |- _ => destruct p
         end;
  cbn [fst snd In app] in *;
  repeat match type of Hin with
         | _ \/ _ => destruct Hin as [<-|Hin]
         end;
  try contradiction; left; cbn [reads_package];
  try exact I; try (left; reflexivity);
  (right; do 2 eexists; split; [eassumption|reflexivity]).

Lemma patch_run E w :
  after patch_cursor_get_machine_id E w (fun r w' t =>
    (forall ev, In ev t -> reads_package E ev \/ patch_gate E w)
    /\ (r = Ret true -> patch_gate E w)).
Proof.
  unfold patch_cursor_get_machine_id.
  repeat (lazymatch goal with
          | |- after (bind (version_check _ _ _) _) _ _ _ => fail
          | _ => step
          end).
  all: cbn [w_fs tick set_fs] in *.
  all: try solve [split; [intros ev Hin; looks_only Hin
                         |intros H; discriminate H]].
  destruct p as [pkg main]. cbn [fst snd] in *.
  destruct (subscript v "version") as [version|e] eqn:Hsub;
    [|repeat step; cbn [w_fs tick]; split;
      [intros ev Hin; looks_only Hin|intros H; discriminate H]].
  do 5 step. apply after_bind.
  eapply after_emits_with;
    [apply version_check_prints|apply version_check_run|].
  cbv beta. intros r w1 t1 Hprints (-> & [b ->] & Htrue).
  destruct b; cbv beta iota.
  2:{ repeat step; cbn [w_fs tick]. split; [|intros H; discriminate H].
      intros ev Hin. left.
      repeat match type of Hin with
             | In _ (_ ++ _) => apply in_app_or in Hin; destruct Hin as [Hin|Hin]
             end.
      all: try (destruct (proj1 (List.Forall_forall _ _) Hprints ev Hin)
                  as (key & arg & ->); exact I).
      all: cbn [In] in Hin.
      all: repeat match type of Hin with
                  | _ \/ _ => destruct Hin as [<-|Hin]
                  end.
      all: try contradiction; cbn [reads_package].
      all: try exact I; try (left; reflexivity).
      all: right; do 2 eexists; split; [eassumption|reflexivity]. }
  destruct (Htrue eq_refl) as (s & cur & -> & Hpat & Hparse & Hmin & _).
  destruct Hmin as [Hmin|(m & Hm & Hmin)]; [discriminate Hmin|].
  assert (Hgate : patch_gate E w).
  { exists pkg, main, v, s, cur.
    apply negb_false_iff, andb_true_iff in Heqb0, Heqb2.
    apply negb_false_iff, bool_decide_eq_true in Heqb1.
    destruct Heqb0 as [_ Ha1]. destruct Heqb2 as [_ Ha2].
    vm_compute in Hm. injection Hm as <-.
    repeat split; assumption. }
  apply after_any. intros [a|e] w' t; [|repeat step]; split;
    first [intros _; exact Hgate | intros ev _; right; exact Hgate].
Qed.

Lemma version_check_min_passes v cur E w :
  version_pattern v = true -> parse_version v = Ret cur ->
  tuple_lt cur [0; 45; 0]%Z = false ->
  after (version_check (PStr v) "0.45.0" "") E w (fun r w' t =>
    r = Ret true /\ w' = w).
Proof.
  intros Hpat Hparse Hmin. unfold version_check.
  repeat step_through.
  all: repeat match goal with
              | H : negb _ = false |- _ => apply negb_false_iff in H
              | H : negb _ = true |- _ => apply negb_true_iff in H
              end.
  all: try (split; reflexivity).
  all: try congruence.
  all: vm_compute in Heqo0; try discriminate Heqo0.
  injection Heqo0 as <-. congruence.
Qed.

Ltac bool_hyps :=
  repeat match goal with
  | H : negb _ = true |- _ => apply negb_true_iff in H
  | H : negb _ = false |- _ => apply negb_false_iff in H
  | H : _ && _ = true |- _ => apply andb_true_iff in H; destruct H
  | H : _ && _ = false |- _ => apply andb_false_iff in H; destruct H
  | H : bool_decide _ = true |- _ => apply bool_decide_eq_true in H
  | H : bool_decide _ = false |- _ => apply bool_decide_eq_false in H
  | H : Some _ = Some _ |- _ => injection H as H; subst
  end.

Ltac absurd_leaf :=
  solve [ exfalso;
          first [ congruence
                | match goal with
                  | H : ~ is_Some (Some _) |- _ => apply H; eauto
                  | H : ~ is_Some ?x, H' : ?x = Some _ |- _ =>
                      apply H; rewrite H'; eauto
                  | H : is_Some None |- _ => destruct H; discriminate
                  | H : is_Some ?x, H' : ?x = None |- _ =>
                      rewrite H' in H; destruct H; discriminate
                  end ] ].

Lemma main_js_quiet main_path E w d :
  (forall n, e_faults E n = None) ->
  w_fs w !! main_path = Some d ->
  w_fs w !! e_tmpname E (S (w_step w)) = None ->
  (forall n, String.prefix main_path (e_tmpname E n) = false) ->
  after (modify_main_js main_path) E w (fun r w' t =>
    r = Ret true
    /\ w_fs w' !! main_path = Some (main_js_patched E d)
    /\ (exists stamp, w_fs w' !! (main_path +:+ ".old." +:+ stamp) = Some d)
    /\ (forall p, String.prefix main_path p = true ->
                  (forall stamp, p <> main_path +:+ ".old." +:+ stamp) ->
                  p <> main_path -> w_fs w' !! p = w_fs w !! p)).
Proof.
  intros Hnf Hd Hfresh Hpre. unfold modify_main_js.
  repeat first [ lazymatch goal with
                 | |- after (re_sub_machine_id _) _ _ _ => apply after_re_sub
                 end; cbv beta iota
               | step_quiet Hnf ].
  all: cbn [w_fs tick set_fs w_step] in *.
  all: pose proof (not_prefixed_ne _ _ (Hpre (S (w_step w)))) as Htmp.
  all: pose proof (fun t => not_prefixed_ne_ext _ t _ (Hpre (S (w_step w))))
         as Hext.
  all: try match goal with
           | |- context [?p +:+ ".old." +:+ ?x] =>
               pose proof (suffixed_path_ne p ".old." x
                             ltac:(discriminate)) as Hbak;
               pose proof (Hext (".old." +:+ x)) as Hne
           end.
  all: bool_hyps; fs_lookup.
  all: try absurd_leaf.
  all: repeat match goal with
           | H : ?a = Some _, H' : ?a = Some _ |- _ =>
               rewrite H in H'; injection H' as H'; subst
           end.
  all: fs_lookup.
  all: try absurd_leaf.
  all: try (rewrite copy_target_is_other in Heqb by discriminate;
            discriminate Heqb).
  all: bool_hyps.
  all: split; [reflexivity|]; split; [reflexivity|]; split.
  all: try (eexists; rewrite lookup_delete_ne by (apply Hext);
            rewrite lookup_insert_ne by (apply not_eq_sym, Hbak);
            apply lookup_insert_eq).
  all: intros p Hp Hold Hpm.
  all: assert (Hpt : e_tmpname E (S (w_step w)) <> p)
         by (intros <-; rewrite Hpre in Hp; discriminate Hp).
  all: rewrite lookup_delete_ne by exact Hpt.
  all: rewrite lookup_insert_ne by (apply not_eq_sym, Hpm).
  all: rewrite lookup_insert_ne by (apply not_eq_sym, Hold).
  all: rewrite !lookup_insert_ne by exact Hpt.
  all: reflexivity.
Qed.

Lemma patch_quiet E w pkg main data v cur d :
  (forall n, e_faults E n = None) ->
  e_cursor_paths E = Some (pkg, main) ->
  w_fs w !! pkg = Some (Json data) ->
  w_fs w !! main = Some d ->
  e_access E pkg = true -> e_access E main = true ->
  subscript data "version" = Ret (PStr v) ->
  version_pattern v = true ->
  parse_version v = Ret cur ->
  tuple_lt cur [0; 45; 0]%Z = false ->
  (forall n, w_fs w !! e_tmpname E n = None) ->
  (forall n, String.prefix main (e_tmpname E n) = false) ->
  after patch_cursor_get_machine_id E w (fun r w' t =>
    r = Ret true
    /\ w_fs w' !! main = Some (main_js_patched E d)
    /\ (exists stamp, w_fs w' !! (main +:+ ".old." +:+ stamp) = Some d)
    /\ (exists stamp,
         w_fs w' !! (main +:+ ".bak." +:+ stamp)
         = match w_fs w !! (main +:+ ".bak." +:+ stamp) with
           | Some old => Some old
           | None => Some d
           end)).
Proof.
  intros Hnf Hpaths Hpkg Hmain Hapkg Hamain Hsub Hpat Hparse Hmin Hfresh Hpre.
  unfold patch_cursor_get_machine_id.
  repeat (lazymatch goal with
          | |- after (bind (version_check _ _ _) _) _ _ _ => fail
          | |- match _ with _ => _ end => fail
          | _ => step_quiet Hnf
          end).
  all: cbn [w_fs tick set_fs fst snd] in *.
  all: bool_hyps; cbn [fst snd] in *; bool_hyps.
  all: try absurd_leaf.
  rewrite Hpkg in Heqo0. injection Heqo0 as <-. rewrite Hsub.
  do 5 step. apply after_bind.
  eapply after_weaken; [apply (version_check_min_passes v cur); assumption|].
  cbv beta. intros r w1 t1 [-> ->]. cbv beta iota. cbn [negb].
  do 5 step_quiet Hnf.
  apply after_bind.
  set (bak := main +:+ ".bak." +:+ e_clock E (w_step (tick (tick w)))).
  assert (Hbm : bak <> main) by (apply suffixed_path_ne; discriminate).
  assert (Hbo : forall stamp, bak <> main +:+ ".old." +:+ stamp).
  { intros stamp Heq. apply String.app_inj in Heq. discriminate Heq. }
  assert (Hbp : String.prefix main bak = true) by apply prefix_append.
  assert (Hbt : forall n, e_tmpname E n <> bak)
    by (intros n; apply not_prefixed_ne_ext, Hpre).
  assert (Hmid : after
            (if negb (bool_decide (is_Some (w_fs w !! bak))) then
               shutil_copy2 main bak ;; say "reset.backup_created" bak
             else ret tt) E (tick (tick w))
            (fun r w2 _ =>
               r = Ret tt /\ w_fs w2 !! main = Some d
               /\ (forall n, w_fs w2 !! e_tmpname E n = None)
               /\ w_fs w2 !! bak = match w_fs w !! bak with
                                   | Some old => Some old
                                   | None => Some d
                                   end)).
  { repeat step_quiet Hnf.
    all: cbn [w_fs tick set_fs w_step] in *.
    all: bool_hyps; try absurd_leaf.
    all: try match goal with
             | H : (_ =? _)%string = true |- _ =>
                 apply String.eqb_eq in H; exfalso; apply Hbm; symmetry; exact H
             end.
    - rewrite Hmain in Heqo0. injection Heqo0 as <-.
      split; [reflexivity|]. fold bak.
      rewrite lookup_insert_ne by exact Hbm.
      split; [exact Hmain|]. split.
      + intros n. rewrite lookup_insert_ne by (apply not_eq_sym, Hbt).
        apply Hfresh.
      + rewrite lookup_insert_eq.
        destruct (w_fs w !! bak) eqn:Hb; [|reflexivity].
        exfalso. apply Heqb0. eauto.
    - split; [reflexivity|]. split; [exact Hmain|]. split; [exact Hfresh|].
      destruct Heqb0 as [old Hold]. rewrite Hold. reflexivity. }
  eapply after_weaken; [exact Hmid|].
  cbv beta. intros r w2 t2 (-> & Hm2 & Hf2 & Hb2). cbv beta iota.
  apply after_bind.
  eapply after_weaken;
    [apply (main_js_quiet main E w2 d Hnf Hm2 (Hf2 _) Hpre)|].
  cbv beta. intros r w3 t3 (-> & Hm3 & Hold & Hrest). cbv beta iota.
  cbn [negb]. repeat step.
  split; [reflexivity|]. split; [exact Hm3|]. split; [exact Hold|].
  exists (e_clock E (w_step (tick (tick w)))). fold bak.
  rewrite (Hrest bak Hbp Hbo Hbm). exact Hb2.
Qed.

(** X9: [patch_cursor_get_machine_id] never raises, and it is gated:
    unless both paths resolve, [package.json] and [main.js] exist and are
    writable, and the [version] of [package.json] is a string in the
    version format that is at least 0.45.0 (the version is not stripped
    here), it does not return [True] and, apart from printing, attempts
    nothing but the path resolution and the load of [package.json]. *)
Theorem patch_is_gated (E : env) (w : world) :
  let run := patch_cursor_get_machine_id E w in
  (exists b, result_of run = Ret b)
  /\ (forall ev, In ev (trace_of run) -> reads_package E ev \/ patch_gate E w)
  /\ (result_of run = Ret true -> patch_gate E w).
Proof.
  cbv zeta. split; [|exact (patch_run E w)].
  unfold patch_cursor_get_machine_id. apply try_total.
  intros e w1. exists false. reflexivity.
Qed.

(** X10: when no operation fails, the gate holds and the temporary names
    are unused and outside [main.js]'s own names, the patch returns
    [True]; [main.js] then holds the rewritten content, and its original
    content is kept twice: under [main.js.old.<stamp>], and under
    [main.js.bak.<stamp>] unless a file of that name existed, which is
    then left as it was. *)
Theorem patch_succeeds_with_backups (E : env) (w : world)
  (pkg main : string) (d : fdata) :
  (forall n, e_faults E n = None) ->
  patch_gate E w ->
  e_cursor_paths E = Some (pkg, main) ->
  w_fs w !! main = Some d ->
  (forall n, w_fs w !! e_tmpname E n = None) ->
  (forall n, String.prefix main (e_tmpname E n) = false) ->
  let run := patch_cursor_get_machine_id E w in
  result_of run = Ret true
  /\ w_fs (world_of run) !! main = Some (main_js_patched E d)
  /\ (exists stamp,
        w_fs (world_of run) !! (main +:+ ".old." +:+ stamp) = Some d)
  /\ (exists stamp,
        w_fs (world_of run) !! (main +:+ ".bak." +:+ stamp)
        = match w_fs w !! (main +:+ ".bak." +:+ stamp) with
          | Some old => Some old
          | None => Some d
          end).
Proof.
  intros Hnf (pkg' & main' & data & v & cur & Hp & Hpkg & _ & Ha1 & Ha2
              & Hsub & Hpat & Hparse & Hmin) Hpaths Hmain Hfresh Hpre.
  rewrite Hpaths in Hp. injection Hp as <- <-.
  exact (patch_quiet E w pkg main data v cur d Hnf Hpaths Hpkg Hmain Ha1 Ha2
           Hsub Hpat Hparse Hmin Hfresh Hpre).
Qed.

Lemma patch_succeeds_with_backups_witness :
  let run := patch_cursor_get_machine_id patching_env package_world in
  result_of run = Ret true
  /\ w_fs (world_of run) !! main_js
     = Some (Text "async getMachineId(){return b}")
  /\ w_fs (world_of run) !! (main_js +:+ ".old.20240101_120000")
     = Some (Text "async getMachineId(){return a??b}")
  /\ w_fs (world_of run) !! (main_js +:+ ".bak.20240101_120000")
     = Some (Text "async getMachineId(){return a??b}").
Proof.
  cbv zeta.
  assert (Hgate : patch_gate patching_env package_world).
  { exists "/opt/Cursor/package.json", main_js,
      (PDict [("name", PStr "cursor"); ("version", PStr "0.46.2")]),
      "0.46.2", [0; 46; 2]%Z.
    repeat split; try (vm_compute; reflexivity). vm_compute. eauto. }
  destruct (patch_succeeds_with_backups patching_env package_world
              "/opt/Cursor/package.json" main_js
              (Text "async getMachineId(){return a??b}")
              ltac:(intros n; reflexivity) Hgate eq_refl
              ltac:(vm_compute; reflexivity)
              ltac:(intros n; vm_compute; reflexivity)
              ltac:(intros n; reflexivity)) as (Hr & Hm & _ & _).
  split; [exact Hr|]. split; [rewrite Hm; vm_compute; reflexivity|].
  split; vm_compute; reflexivity.
Defined.

(** ** The machine-id file *)

Lemma reset_machine_id_file_run self machine_id E w p :
  e_machine_id_path E = Some p ->
  after (MachineIDResetter.update_machine_id_file self machine_id) E w
    (fun r w' t =>
       (r = Ret true -> w_fs w' !! p = Some (Text machine_id))
       /\ (w_fs w' !! p = w_fs w !! p \/ w_fs w' !! p = Some (Text "")
           \/ w_fs w' !! p = Some (Text machine_id))
       /\ (forall q, q <> p -> (forall stamp, q <> p +:+ ".backup." +:+ stamp) ->
             w_fs w' !! q = w_fs w !! q)
       /\ (forall stamp, In (Did (OpCopy p (p +:+ ".backup." +:+ stamp))) t ->
             w_fs w' !! (p +:+ ".backup." +:+ stamp) = w_fs w !! p)
       /\ (r = Ret true <-> In (Did (OpWrite p machine_id)) t)).
Proof.
  intros Hp. unfold MachineIDResetter.update_machine_id_file.
  repeat step.
  all: cbn [w_fs tick set_fs w_step] in *.
  all: bool_hyps.
  all: try match goal with
           | H : e_machine_id_path _ = Some _ |- _ =>
               rewrite Hp in H; injection H as H; subst
           end.
  all: try match goal with
           | |- context [?p +:+ ".backup." +:+ ?x] =>
               pose proof (suffixed_path_ne p ".backup." x
                             ltac:(discriminate)) as Hbak
           end.
  all: split; [|split; [|split; [|split]]].
  all: try solve [intros Hr; discriminate Hr].
  all: try solve [split; [ intros Hr; first [discriminate Hr | in_trace]
                         | intros Hin; first [reflexivity | split_in Hin] ]].
  all: try solve [intros stamp Hin; split_in Hin].
  all: fs_lookup.
  all: try solve [reflexivity | left; reflexivity | right; left; reflexivity
                 | right; right; reflexivity].
  all: try solve [intros q Hq Hs; fs_lookup; try reflexivity;
                  rewrite lookup_insert_ne by (apply not_eq_sym, Hs);
                  reflexivity].
  all: intros stamp Hin; split_in Hin; injection Hin as Hin; rewrite <- Hin.
  all: fs_lookup; symmetry; assumption.
Qed.

(** X11: [MachineIDResetter.update_machine_id_file] never raises.  It
    returns [True] exactly when the id has been written, and the file
    then holds the id; on failure the file holds what it held or has
    been emptied by the [open]; a completed backup copy holds the
    previous content, a failed one does not stop the write; no other
    file is touched. *)
Theorem reset_machine_id_file_outcomes (self : storage_paths)
  (machine_id : string) (E : env) (w : world) (p : string) :
  e_machine_id_path E = Some p ->
  let run := MachineIDResetter.update_machine_id_file self machine_id E w in
  (exists b, result_of run = Ret b)
  /\ (result_of run = Ret true -> w_fs (world_of run) !! p = Some (Text machine_id))
  /\ (result_of run = Ret true <->
      In (Did (OpWrite p machine_id)) (trace_of run))
  /\ (w_fs (world_of run) !! p = w_fs w !! p
      \/ w_fs (world_of run) !! p = Some (Text "")
      \/ w_fs (world_of run) !! p = Some (Text machine_id))
  /\ (forall stamp,
        In (Did (OpCopy p (p +:+ ".backup." +:+ stamp))) (trace_of run) ->
        w_fs (world_of run) !! (p +:+ ".backup." +:+ stamp) = w_fs w !! p)
  /\ (forall q, q <> p -> (forall stamp, q <> p +:+ ".backup." +:+ stamp) ->
        w_fs (world_of run) !! q = w_fs w !! q).
Proof.
  intros Hp. cbv zeta.
  destruct (reset_machine_id_file_run self machine_id E w p Hp)
    as (Htrue & Hcases & Hother & Hcopy & Hwrite).
  split; [apply reset_update_machine_id_file_total|].
  split; [exact Htrue|]. split; [exact Hwrite|]. split; [exact Hcases|].
  split; [exact Hcopy|exact Hother].
Qed.

Lemma reset_machine_id_file_outcomes_witness :
  let failed_backup :=
    MachineIDResetter.update_machine_id_file storage "new"
      (failing_at 2 PermissionError quiet_env) machine_id_world in
  let failed_write :=
    MachineIDResetter.update_machine_id_file storage "new"
      (failing_at 4 OSError quiet_env) machine_id_world in
  result_of failed_backup = Ret true
  /\ w_fs (world_of failed_backup) !! machine_id_file = Some (Text "new")
  /\ w_fs (world_of failed_backup)
       !! (machine_id_file +:+ ".backup.20240101_120000") = None
  /\ result_of failed_write = Ret false
  /\ w_fs (world_of failed_write) !! machine_id_file = Some (Text "")
  /\ w_fs (world_of failed_write)
       !! (machine_id_file +:+ ".backup.20240101_120000") = Some (Text "old").
Proof.
  cbv zeta.
  destruct (reset_machine_id_file_outcomes storage "new"
              (failing_at 2 PermissionError quiet_env) machine_id_world
              machine_id_file eq_refl) as (_ & Htrue & _).
  destruct (reset_machine_id_file_outcomes storage "new"
              (failing_at 4 OSError quiet_env) machine_id_world
              machine_id_file eq_refl) as (_ & _ & _ & _ & Hcopy & _).
  split; [vm_compute; reflexivity|].
  split; [apply Htrue; vm_compute; reflexivity|].
  split; [vm_compute; reflexivity|].
  split; [vm_compute; reflexivity|].
  split; [vm_compute; reflexivity|].
  etransitivity;
    [exact (Hcopy "20240101_120000" ltac:(vm_compute; auto 10))
    |vm_compute; reflexivity].
Defined.

Lemma restore_machine_id_file_run self v E w p :
  e_machine_id_path E = Some p ->
  after (MachineIDRestorer.update_machine_id_file self v) E w
    (fun r w' t =>
       (r = Ret true -> exists s, v = PStr s /\ w_fs w' !! p = Some (Text s))
       /\ ((forall s, v <> PStr s) -> In (Did (OpOpenWrite p)) t ->
           w_fs w' !! p = Some (Text ""))
       /\ (forall q, q <> p ->
             (forall stamp, q <> p +:+ ".restore_bak." +:+ stamp) ->
             w_fs w' !! q = w_fs w !! q)
       /\ (forall stamp,
             In (Did (OpCopy p (p +:+ ".restore_bak." +:+ stamp))) t ->
             w_fs w' !! (p +:+ ".restore_bak." +:+ stamp) = w_fs w !! p)).
Proof.
  intros Hp. unfold MachineIDRestorer.update_machine_id_file.
  repeat step.
  all: cbn [w_fs tick set_fs w_step] in *.
  all: bool_hyps.
  all: try match goal with
           | H : e_machine_id_path _ = Some _ |- _ =>
               rewrite Hp in H; injection H as H; subst
           end.
  all: try match goal with
           | |- context [?p +:+ ".restore_bak." +:+ ?x] =>
               pose proof (suffixed_path_ne p ".restore_bak." x
                             ltac:(discriminate)) as Hbak
           end.
  all: split; [|split; [|split]].
  all: try solve [intros Hr; discriminate Hr].
  all: try solve [intros Hns Hin; split_in Hin].
  all: try solve [intros Hns Hin; exfalso; eapply Hns; reflexivity].
  all: try solve [intros stamp Hin; split_in Hin].
  all: fs_lookup.
  all: try solve [intros _; eexists; split; reflexivity].
  all: try solve [intros _ _; reflexivity].
  all: try solve [intros q Hq Hs; fs_lookup; try reflexivity;
                  rewrite lookup_insert_ne by (apply not_eq_sym, Hs);
                  reflexivity].
  all: try solve [intros stamp Hin; split_in Hin; injection Hin as Hin;
                  rewrite <- Hin; fs_lookup; symmetry; assumption].
Qed.

(** X12: [MachineIDRestorer.update_machine_id_file] never raises and
    returns [True] only for a string, which the file then holds.  For a
    device id that is not a string, the [open] has emptied the file
    before the write fails: the function returns [False] and the file
    is left empty, its previous content being in the backup copy if that
    was made.  No other file is touched. *)
Theorem restore_machine_id_file_outcomes (self : storage_paths)
  (dev_device_id : pyval) (E : env) (w : world) (p : string) :
  e_machine_id_path E = Some p ->
  let run :=
    MachineIDRestorer.update_machine_id_file self dev_device_id E w in
  (exists b, result_of run = Ret b)
  /\ (result_of run = Ret true ->
      exists s, dev_device_id = PStr s
                /\ w_fs (world_of run) !! p = Some (Text s))
  /\ ((forall s, dev_device_id <> PStr s) ->
      result_of run = Ret false
      /\ (In (Did (OpOpenWrite p)) (trace_of run) ->
          w_fs (world_of run) !! p = Some (Text "")))
  /\ (forall stamp,
        In (Did (OpCopy p (p +:+ ".restore_bak." +:+ stamp))) (trace_of run) ->
        w_fs (world_of run) !! (p +:+ ".restore_bak." +:+ stamp) = w_fs w !! p)
  /\ (forall q, q <> p -> (forall stamp, q <> p +:+ ".restore_bak." +:+ stamp) ->
        w_fs (world_of run) !! q = w_fs w !! q).
Proof.
  intros Hp. cbv zeta.
  destruct (restore_machine_id_file_run self dev_device_id E w p Hp)
    as (Htrue & Hempty & Hother & Hcopy).
  destruct (restore_update_machine_id_file_total self dev_device_id E w)
    as [b Hb].
  split; [exists b; exact Hb|]. split; [exact Htrue|].
  split; [|split; [exact Hcopy|exact Hother]].
  intros Hns. split; [|exact (Hempty Hns)].
  destruct b; [|exact Hb].
  destruct (Htrue Hb) as (s & Hs & _). contradiction (Hns s Hs).
Qed.

Lemma restore_machine_id_file_outcomes_witness :
  let run :=
    MachineIDRestorer.update_machine_id_file storage (PInt 5) quiet_env
      machine_id_world in
  result_of run = Ret false
  /\ w_fs (world_of run) !! machine_id_file = Some (Text "")
  /\ w_fs (world_of run)
       !! (machine_id_file +:+ ".restore_bak.20240101_120000")
     = Some (Text "old").
Proof.
  cbv zeta.
  destruct (restore_machine_id_file_outcomes storage (PInt 5) quiet_env
              machine_id_world machine_id_file eq_refl)
    as (_ & _ & Hns & Hcopy & _).
  destruct Hns as [Hr Hempty]; [intros s; discriminate|].
  split; [exact Hr|]. split; [apply Hempty; vm_compute; auto 10|].
  etransitivity;
    [exact (Hcopy "20240101_120000" ltac:(vm_compute; auto 10))
    |vm_compute; reflexivity].
Defined.

(** ** System identifiers *)

Lemma reset_system_ids_run self new_ids E w :
  after (MachineIDResetter.update_system_ids self new_ids) E w
    (fun r w' t =>
       w_fs w' = w_fs w
       /\ (forall ev, In ev t -> registry_attempt ev = true ->
             e_platform E = Windows)
       /\ (forall ev, In ev t -> shell_attempt ev = true ->
             e_platform E = Darwin /\ is_Some (w_fs w !! platform_uuid_plist))
       /\ (e_platform E = Linux -> r = Ret true)
       /\ (e_platform E = Windows ->
           (r = Ret true <->
            exists g, In (Did (OpRegistrySet cryptography_key "MachineGuid" g)) t))
       /\ (e_platform E = Darwin -> r = Ret true ->
           w_fs w !! platform_uuid_plist = None
           \/ exists c, In (Did (OpSystem c)) t)).
Proof.
  unfold MachineIDResetter.update_system_ids.
  repeat step_through.
  all: cbn [w_fs tick set_fs w_step] in *.
  all: bool_hyps.
  all: split; [reflexivity|].
  all: split;
    [intros ev Hin Hev;
     first [reflexivity
           | exfalso; revert Hev; split_in Hin; subst ev; discriminate]|].
  all: split;
    [intros ev Hin Hev;
     first [split; [reflexivity|assumption]
           | exfalso; revert Hev; split_in Hin; subst ev; discriminate]|].
  all: split; [intros Hp; first [reflexivity|discriminate Hp]|].
  all: split; [intros Hp; try discriminate Hp|].
  all: try solve [intros Hp; discriminate Hp].
  all: try solve [split; [intros Hr; discriminate Hr
                         |intros [g Hin]; exfalso; split_in Hin]].
  all: try solve [split; [intros _; eexists; in_trace|reflexivity]].
  all: try solve [intros _ Hr; discriminate Hr].
  all: try solve [intros _ _; right; eexists; in_trace].
  all: try solve [intros _ _; left; destruct (w_fs w !! platform_uuid_plist);
                  [exfalso; eauto|reflexivity]].
Qed.

Lemma reset_system_ids_ignore_ids self new_ids other_ids E w :
  e_platform E <> Darwin ->
  MachineIDResetter.update_system_ids self new_ids E w
  = MachineIDResetter.update_system_ids self other_ids E w.
Proof.
  intros Hp. unfold MachineIDResetter.update_system_ids, try_except, bind,
    sys_platform.
  destruct (say "reset.updating_system_ids" "" E w) as [[[[]|e] w1] t1];
    [|reflexivity].
  destruct (e_platform E); [reflexivity|contradiction|reflexivity].
Qed.

(** X13: [MachineIDResetter.update_system_ids] never raises; it touches
    the registry on Windows only and runs a command on macOS only, when
    the platform file exists.  It changes no file itself: outside macOS,
    and in any run that hands no command to the shell, the files are as
    they were (what [plutil] does to the platform file is the command's
    own doing).  On Linux it returns [True].  On Windows it returns [True] exactly when [MachineGuid] has
    been set, whatever happens to the SQM client id afterwards; the
    values written are drawn afresh, so that outside macOS the run does
    not depend on the identity set. *)
Theorem reset_system_ids_by_platform (self : storage_paths)
  (new_ids : pydict) (E : env) (w : world) :
  let run := MachineIDResetter.update_system_ids self new_ids E w in
  (exists b, result_of run = Ret b)
  /\ (e_platform E <> Darwin
      \/ (forall ev, In ev (trace_of run) -> shell_attempt ev = false) ->
      w_fs (world_of run) = w_fs w)
  /\ (forall ev, In ev (trace_of run) -> registry_attempt ev = true ->
        e_platform E = Windows)
  /\ (forall ev, In ev (trace_of run) -> shell_attempt ev = true ->
        e_platform E = Darwin /\ is_Some (w_fs w !! platform_uuid_plist))
  /\ (e_platform E = Linux -> result_of run = Ret true)
  /\ (e_platform E = Windows ->
      (result_of run = Ret true <->
       exists g, In (Did (OpRegistrySet cryptography_key "MachineGuid" g))
                    (trace_of run)))
  /\ (e_platform E <> Darwin -> forall other_ids,
      MachineIDResetter.update_system_ids self other_ids E w = run).
Proof.
  cbv zeta.
  destruct (reset_system_ids_run self new_ids E w)
    as (Hfs & Hreg & Hsh & Hlinux & Hwin & _).
  split; [apply try_total; intros e w1; eexists; reflexivity|].
  split; [intros _; exact Hfs|]. split; [exact Hreg|]. split; [exact Hsh|].
  split; [exact Hlinux|]. split; [exact Hwin|].
  intros Hp other_ids. symmetry.
  apply reset_system_ids_ignore_ids, Hp.
Qed.

Example reset_system_ids_windows :
  let windows := on_platform Windows quiet_env in
  (* the SQM client key cannot be opened: still [True] *)
  result_of (MachineIDResetter.update_system_ids storage sample_ids
               (failing_at 4 PermissionError windows) (World ∅ 0 []))
  = Ret true
  (* [MachineGuid] cannot be set: [False], the SQM client id is not tried *)
  /\ MachineIDResetter.update_system_ids storage sample_ids
       (failing_at 2 PermissionError windows) (World ∅ 0 [])
     = (Ret false, World ∅ 3 [],
        [ Print "reset.updating_system_ids" "";
          Did (OpRegistryOpen cryptography_key);
          Did (OpUrandom 16);
          Failed (OpRegistrySet cryptography_key "MachineGuid"
                    (PStr "0708090a-0b0c-4d0e-8f10-111213141516"))
                 PermissionError;
          Print "reset.permission_denied" "";
          Print "reset.system_ids_update_failed" "" ]).
Proof. cbv zeta. split; vm_compute; reflexivity. Qed.

Lemma restore_system_ids_run self ids E w :
  after (MachineIDRestorer.update_system_ids self ids) E w
    (fun r w' t =>
       r = Ret true
       /\ w_fs w' = w_fs w
       /\ (forall ev, In ev t -> registry_attempt ev = true ->
             e_platform E = Windows)
       /\ (forall ev, In ev t -> shell_attempt ev = true ->
             e_platform E = Darwin /\ is_Some (w_fs w !! platform_uuid_plist)
             /\ truthy (dict_get_default "telemetry.macMachineId" (PStr "") ids)
                = true)
       /\ (forall key name value e,
             In (Did (OpRegistrySet key name value)) t
             \/ In (Failed (OpRegistrySet key name value) e) t ->
             truthy value = true
             /\ (key = cryptography_key /\ name = "MachineGuid"
                 /\ value = dict_get_default "telemetry.devDeviceId" (PStr "") ids
                 \/ key = sqm_client_key /\ name = "MachineId"
                    /\ value = dict_get_default "telemetry.sqmId" (PStr "") ids))
       /\ (forall key, ~ In (Did (OpRegistryCreate key)) t)).
Proof.
  unfold MachineIDRestorer.update_system_ids.
  repeat step_through.
  all: cbn [w_fs tick set_fs w_step] in *.
  all: bool_hyps.
  all: split; [reflexivity|].
  all: split; [reflexivity|].
  all: split;
    [intros ev Hin Hev;
     first [reflexivity
           | exfalso; revert Hev; split_in Hin; subst ev; discriminate]|].
  all: split;
    [intros ev Hin Hev;
     first [split; [reflexivity|split; [assumption|first [assumption|reflexivity]]]
           | exfalso; revert Hev; split_in Hin; subst ev; discriminate]|].
  all: split; [|intros key Hin; split_in Hin].
  all: intros key name value e' [Hin|Hin]; split_in Hin.
  all: injection Hin as <- <- <-.
  all: split; [assumption|].
  all: first [left; repeat split; reflexivity | right; repeat split; reflexivity].
Qed.

(** X14: [MachineIDRestorer.update_system_ids] returns [True] whatever
    fails: the platform helpers print their errors and return.  It
    touches the registry on Windows only and runs a command on macOS
    only, and changes no file itself: outside macOS, and in any run that
    hands no command to the shell, the files are as they were.  What it writes to the registry are the
    backup's own values, [telemetry.devDeviceId] as [MachineGuid] and
    [telemetry.sqmId] as the SQM client id, each only when it is truthy;
    it never creates the SQM client key. *)
Theorem restore_system_ids_always_true (self : storage_paths) (ids : pydict)
  (E : env) (w : world) :
  let run := MachineIDRestorer.update_system_ids self ids E w in
  result_of run = Ret true
  /\ (e_platform E <> Darwin
      \/ (forall ev, In ev (trace_of run) -> shell_attempt ev = false) ->
      w_fs (world_of run) = w_fs w)
  /\ (forall ev, In ev (trace_of run) -> registry_attempt ev = true ->
        e_platform E = Windows)
  /\ (forall ev, In ev (trace_of run) -> shell_attempt ev = true ->
        e_platform E = Darwin /\ is_Some (w_fs w !! platform_uuid_plist)
        /\ truthy (dict_get_default "telemetry.macMachineId" (PStr "") ids)
           = true)
  /\ (forall key name value e,
        In (Did (OpRegistrySet key name value)) (trace_of run)
        \/ In (Failed (OpRegistrySet key name value) e) (trace_of run) ->
        truthy value = true
        /\ (key = cryptography_key /\ name = "MachineGuid"
            /\ value = dict_get_default "telemetry.devDeviceId" (PStr "") ids
            \/ key = sqm_client_key /\ name = "MachineId"
               /\ value = dict_get_default "telemetry.sqmId" (PStr "") ids))
  /\ (forall key, ~ In (Did (OpRegistryCreate key)) (trace_of run)).
Proof.
  cbv zeta.
  destruct (restore_system_ids_run self ids E w) as (Hr & Hfs & Hrest).
  split; [exact Hr|]. split; [intros _; exact Hfs|exact Hrest].
Qed.

Example restore_system_ids_windows :
  let windows := on_platform Windows quiet_env in
  let ids := [("telemetry.devDeviceId", PStr "d1"); ("telemetry.sqmId", PInt 7)] in
  MachineIDRestorer.update_system_ids storage ids windows (World ∅ 0 [])
  = (Ret true, World ∅ 4 [],
     [ Print "restore.updating_system_ids" "";
       Did (OpRegistryOpen cryptography_key);
       Did (OpRegistrySet cryptography_key "MachineGuid" (PStr "d1"));
       Print "restore.windows_machine_guid_updated" "";
       Did (OpRegistryOpen sqm_client_key);
       Failed (OpRegistrySet sqm_client_key "MachineId" (PInt 7)) TypeError;
       Print "restore.update_windows_machine_id_failed" "" ]).
Proof. vm_compute. reflexivity. Qed.

(** ** Finding and selecting a backup *)

Lemma insert_by_ctime_perm ctime x l :
  Permutation (MachineIDRestorer.insert_by_ctime ctime x l) (x :: l).
Proof.
  induction l as [|y l IH]; [reflexivity|].
  cbn [MachineIDRestorer.insert_by_ctime].
  destruct (ctime y <=? ctime x)%Z; [reflexivity|].
  rewrite IH. apply perm_swap.
Qed.

Lemma sort_newest_first_perm ctime l :
  Permutation (MachineIDRestorer.sort_newest_first ctime l) l.
Proof.
  unfold MachineIDRestorer.sort_newest_first.
  induction l as [|x l IH]; [reflexivity|].
  cbn [fold_right]. rewrite insert_by_ctime_perm. rewrite IH. reflexivity.
Qed.

Lemma forallb_insert ctime (f : string -> bool) x l :
  f x = true -> forallb f l = true ->
  forallb f (MachineIDRestorer.insert_by_ctime ctime x l) = true.
Proof.
  intros Hx. induction l as [|y l IH]; intros Hl.
  - cbn. rewrite Hx. reflexivity.
  - cbn [MachineIDRestorer.insert_by_ctime].
    cbn [forallb] in Hl. apply andb_true_iff in Hl. destruct Hl as [Hy Hl].
    destruct (ctime y <=? ctime x)%Z; cbn [forallb].
    + rewrite Hx, Hy, Hl. reflexivity.
    + rewrite Hy, (IH Hl). reflexivity.
Qed.

Lemma forallb_weaken {A} (f g : A -> bool) (l : list A) :
  (forall a, f a = true -> g a = true) ->
  forallb f l = true -> forallb g l = true.
Proof.
  intros Hfg. induction l as [|a l IH]; [reflexivity|].
  cbn [forallb]. intros H. apply andb_true_iff in H. destruct H as [Ha Hl].
  rewrite (Hfg a Ha), (IH Hl). reflexivity.
Qed.

Lemma insert_by_ctime_sorted ctime x l :
  newest_first ctime l = true ->
  newest_first ctime (MachineIDRestorer.insert_by_ctime ctime x l) = true.
Proof.
  induction l as [|y l IH]; intros Hl; [reflexivity|].
  cbn [MachineIDRestorer.insert_by_ctime].
  cbn [newest_first] in Hl. apply andb_true_iff in Hl. destruct Hl as [Hy Hl].
  destruct (ctime y <=? ctime x)%Z eqn:Hyx.
  - cbn [newest_first forallb]. rewrite Hyx, Hy, Hl. cbn [andb].
    rewrite andb_true_r.
    apply (forallb_weaken (fun z => (ctime z <=? ctime y)%Z)); [|exact Hy].
    intros a Ha. apply Z.leb_le in Ha, Hyx. apply Z.leb_le. lia.
  - cbn [newest_first]. rewrite (IH Hl), andb_true_r.
    apply forallb_insert; [|exact Hy].
    apply Z.leb_gt in Hyx. apply Z.leb_le. lia.
Qed.

Lemma sort_newest_first_sorted ctime l :
  newest_first ctime (MachineIDRestorer.sort_newest_first ctime l) = true.
Proof.
  unfold MachineIDRestorer.sort_newest_first.
  induction l as [|x l IH]; [reflexivity|].
  cbn [fold_right]. apply insert_by_ctime_sorted, IH.
Qed.

Lemma insert_by_ctime_stable ctime c x l :
  created_at ctime c (MachineIDRestorer.insert_by_ctime ctime x l)
  = created_at ctime c (x :: l).
Proof.
  unfold created_at.
  induction l as [|y l IH]; [reflexivity|].
  cbn [MachineIDRestorer.insert_by_ctime].
  destruct (ctime y <=? ctime x)%Z eqn:Hyx; [reflexivity|].
  cbn [List.filter] in *. rewrite IH.
  destruct (ctime y =? c)%Z eqn:Hy; [|reflexivity].
  destruct (ctime x =? c)%Z eqn:Hx; [|reflexivity].
  apply Z.eqb_eq in Hy, Hx. apply Z.leb_gt in Hyx. lia.
Qed.

Lemma sort_newest_first_stable ctime c l :
  created_at ctime c (MachineIDRestorer.sort_newest_first ctime l)
  = created_at ctime c l.
Proof.
  unfold MachineIDRestorer.sort_newest_first.
  induction l as [|x l IH]; [reflexivity|].
  cbn [fold_right]. rewrite insert_by_ctime_stable.
  unfold created_at in *. cbn [List.filter]. rewrite IH. reflexivity.
Qed.

(** X15: [find_backups] returns the files the directory scan found,
    each as often as found, newest first, files of one creation time in
    the order of the scan; it has no effect. *)
Theorem find_backups_newest_first (self : storage_paths) (E : env) (w : world) :
  let found := e_glob E (db_path self +:+ ".bak.*") in
  exists backups,
    MachineIDRestorer.find_backups self E w = (Ret backups, w, [])
    /\ Permutation backups found
    /\ newest_first (e_ctime E) backups = true
    /\ (forall c, created_at (e_ctime E) c backups
                  = created_at (e_ctime E) c found).
Proof.
  cbv zeta. eexists. split; [reflexivity|].
  split; [apply sort_newest_first_perm|].
  split; [apply sort_newest_first_sorted|].
  intros c. apply sort_newest_first_stable.
Qed.

Example find_backups_sample :
  let ctime p := if String.eqb p "b" then 5%Z else 3%Z in
  MachineIDRestorer.sort_newest_first ctime ["a"; "b"; "c"] = ["b"; "a"; "c"].
Proof. reflexivity. Qed.

(** What [select_round] does with one line. *)
Lemma select_round_run backups E w :
  after (MachineIDRestorer.select_round backups) E w (fun r w' t =>
    w_fs w' = w_fs w
    /\ match r with
       | Raise e => e = EOFError /\ w_stdin w = [] /\ w' = w
       | Ret answer =>
           exists line,
             w_stdin w = line :: w_stdin w'
             /\ match answer with
                | Some None => strip_str line = "0"
                | Some (Some p) =>
                    exists n, PyStr.int_chars (PyStr.chars line)
                              = Some (Z.of_nat n + 1)%Z
                              /\ nth_error backups n = Some p
                | None => strip_str line <> "0"
                end
       end).
Proof.
  unfold MachineIDRestorer.select_round.
  repeat step_through.
  all: cbn [w_fs w_stdin tick set_fs w_step] in *.
  all: split; [reflexivity|].
  all: try (split; [reflexivity|split; [assumption|reflexivity]]).
  all: try discriminate.
  all: exists line; split; [assumption|].
  all: try (apply String.eqb_eq; assumption).
  all: try (apply String.eqb_neq; assumption).
  apply andb_true_iff in Heqb0. destruct Heqb0 as [Hlo Hhi].
  apply Z.leb_le in Hlo. apply Z.ltb_lt in Hhi.
  destruct (nth_error backups (Z.to_nat (z - 1))) as [p|] eqn:Hnth.
  - exists (Z.to_nat (z - 1)). split; [|exact Hnth].
    rewrite Heqo. f_equal. lia.
  - apply nth_error_None in Hnth. lia.
Qed.

(** The loop of [select_backup] with enough fuel for the lines left. *)
Lemma select_loop_run backups E : forall fuel w,
  (length (w_stdin w) < fuel)%nat ->
  after (MachineIDRestorer.select_loop fuel backups) E w (fun r w' t =>
    w_fs w' = w_fs w
    /\ (exists used, w_stdin w = used ++ w_stdin w')
    /\ (forall p, r = Ret (Some p) ->
          exists line n,
            In line (w_stdin w)
            /\ PyStr.int_chars (PyStr.chars line) = Some (Z.of_nat n + 1)%Z
            /\ nth_error backups n = Some p)
    /\ (r = Ret None ->
        exists line, In line (w_stdin w) /\ strip_str line = "0")
    /\ (forall e, r = Raise e -> e = EOFError /\ w_stdin w' = [])).
Proof.
  induction fuel as [|fuel IH]; intros w Hfuel; [lia|].
  cbn [MachineIDRestorer.select_loop].
  apply after_bind. eapply after_weaken; [apply select_round_run|].
  cbv beta. intros r w1 t1 [Hfs Hr].
  destruct r as [[answer|]|e].
  - destruct Hr as (line & Hline & Hans). apply after_ret.
    split; [exact Hfs|]. split; [exists [line]; exact Hline|].
    rewrite Hline. split; [|split].
    + intros p Hp. injection Hp as ->. destruct Hans as (n & Hn & Hnth).
      exists line, n. split; [left; reflexivity|]. split; assumption.
    + intros Hp. injection Hp as ->. exists line.
      split; [left; reflexivity|exact Hans].
    + intros e He. discriminate He.
  - destruct Hr as (line & Hline & _).
    eapply after_weaken; [apply IH; rewrite Hline in Hfuel; cbn in Hfuel; lia|].
    cbv beta. intros r w2 t2 (Hfs2 & [used Hused] & Hsome & Hnone & Hraise).
    split; [congruence|].
    split; [exists (line :: used); rewrite Hline, Hused; reflexivity|].
    rewrite Hline. split; [|split].
    + intros p Hp. destruct (Hsome p Hp) as (l & n & Hin & Hn & Hnth).
      exists l, n. split; [right; exact Hin|]. split; assumption.
    + intros Hp. destruct (Hnone Hp) as (l & Hin & Hl).
      exists l. split; [right; exact Hin|exact Hl].
    + exact Hraise.
  - destruct Hr as (-> & Hempty & ->).
    split; [reflexivity|]. split; [exists []; reflexivity|].
    split; [intros p Hp; discriminate Hp|].
    split; [intros Hp; discriminate Hp|].
    intros e He. injection He as <-. split; [reflexivity|exact Hempty].
Qed.

Lemma list_entries_run (backups : list string) E : forall w,
  after (for_each backups (fun backup =>
           os_getsize backup ;; say "restore.backup_entry" backup)) E w
    (fun r w' t => w_fs w' = w_fs w /\ w_stdin w' = w_stdin w).
Proof.
  induction backups as [|b backups IH]; intros w; [split; reflexivity|].
  rewrite for_each_cons.
  repeat (lazymatch goal with
          | |- after (for_each _ _) _ _ _ => fail
          | _ => step
          end).
  all: cbn [w_fs w_stdin tick set_fs w_step] in *.
  all: try (split; reflexivity).
  eapply after_weaken; [apply IH|].
  cbv beta. intros r w1 t1 [Hfs Hin]. cbn [w_fs w_stdin tick] in *.
  destruct r; split; assumption.
Qed.

Lemma select_backup_run self E w :
  after (MachineIDRestorer.select_backup self) E w (fun r w' t =>
    let backups :=
      MachineIDRestorer.sort_newest_first (e_ctime E)
        (e_glob E (db_path self +:+ ".bak.*")) in
    w_fs w' = w_fs w
    /\ (exists used, w_stdin w = used ++ w_stdin w')
    /\ (forall p, r = Ret (Some p) ->
          exists line n,
            In line (w_stdin w)
            /\ PyStr.int_chars (PyStr.chars line) = Some (Z.of_nat n + 1)%Z
            /\ nth_error backups n = Some p)
    /\ (r = Ret None ->
        backups = []
        \/ exists line, In line (w_stdin w) /\ strip_str line = "0")
    /\ (backups = [] -> r = Ret None /\ w_stdin w' = w_stdin w)).
Proof.
  unfold MachineIDRestorer.select_backup, MachineIDRestorer.list_backups.
  apply after_bind. apply after_bind.
  unfold MachineIDRestorer.find_backups at 1.
  unfold after at 1. cbn [result_of world_of trace_of fst snd].
  destruct (MachineIDRestorer.sort_newest_first (e_ctime E)
              (e_glob E (db_path self +:+ ".bak.*"))) as [|b backups] eqn:Hb.
  - repeat step. cbv zeta. split; [reflexivity|].
    split; [exists []; reflexivity|].
    split; [intros p Hp; discriminate Hp|].
    split; [intros _; left; reflexivity|].
    intros _. split; reflexivity.
  - do 3 step. eapply after_weaken; [apply list_entries_run|].
    cbv beta. intros r w1 t1 [Hfs Hin].
    destruct r as [[]|e]; cbv beta iota.
    + step.
      pose proof (select_loop_run (b :: backups) E (S (length (w_stdin w1)))
                    w1 ltac:(lia)) as Hloop.
      unfold after in Hloop |- *. cbv beta zeta.
      destruct Hloop as (Hfs2 & Hused & Hsome & Hnone & _).
      rewrite <- Hin.
      split; [congruence|]. split; [exact Hused|]. split; [exact Hsome|].
      split; [intros Hr; right; exact (Hnone Hr)|].
      intros Hnil. discriminate Hnil.
    + cbv zeta. split; [exact Hfs|].
      split; [exists []; rewrite Hin; reflexivity|].
      split; [intros p Hp; discriminate Hp|].
      split; [intros Hp; discriminate Hp|].
      intros Hnil. discriminate Hnil.
Qed.

(** X16: [select_backup] changes no file.  A path it returns is the one
    listed under the number entered (in the newest-first order of
    [find_backups]); it returns [None] only when there is no backup, in
    which case it reads no input, or when a line that strips to [0] has
    been entered. *)
Theorem select_backup_choice (self : storage_paths) (E : env) (w : world) :
  let run := MachineIDRestorer.select_backup self E w in
  let backups :=
    MachineIDRestorer.sort_newest_first (e_ctime E)
      (e_glob E (db_path self +:+ ".bak.*")) in
  w_fs (world_of run) = w_fs w
  /\ (exists used, w_stdin w = used ++ w_stdin (world_of run))
  /\ (forall p, result_of run = Ret (Some p) ->
        exists line n,
          In line (w_stdin w)
          /\ PyStr.int_chars (PyStr.chars line) = Some (Z.of_nat n + 1)%Z
          /\ nth_error backups n = Some p)
  /\ (result_of run = Ret None ->
      backups = []
      \/ exists line, In line (w_stdin w) /\ strip_str line = "0")
  /\ (backups = [] ->
      result_of run = Ret None /\ w_stdin (world_of run) = w_stdin w).
Proof. exact (select_backup_run self E w). Qed.

Example select_backup_retries :
  let w := World (w_fs restore_world) 0 ["one"; "-1"; "2"; " 1 "; "y"] in
  let run := MachineIDRestorer.select_backup storage restore_env w in
  result_of run = Ret (Some old_backup)
  /\ w_stdin (world_of run) = ["y"]
  /\ List.filter (fun ev => match ev with Print _ _ => true | _ => false end)
       (trace_of run)
     = [ Print "restore.available_backups" "";
         Print "restore.backup_entry" old_backup;
         Print "restore.please_enter_number" "";
         Print "restore.invalid_selection" "";
         Print "restore.invalid_selection" "" ].
Proof. cbv zeta. repeat split; vm_compute; reflexivity. Qed.

(** ** Restoring the database rows *)

Lemma restore_upsert_all_run ids : forall conn E w t0,
  w_fs w !! c_path conn = Some (Sqlite (Some t0)) ->
  after (MachineIDRestorer.upsert_all conn ids) E w (fun r w' t =>
    w_fs w' = w_fs w
    /\ match r with
       | Ret conn' =>
           c_path conn' = c_path conn
           /\ upsert_rows ids (seen conn t0) = Some (seen conn' t0)
           /\ existsb upsert_failed t = false
       | Raise _ => True
       end).
Proof.
  induction ids as [|[key value] ids IH]; intros conn E w t0 Hfile.
  - cbn [MachineIDRestorer.upsert_all]. step. auto.
  - cbn [MachineIDRestorer.upsert_all]. do 2 step.
    step; try solve [split; [reflexivity|exact I]].
    all: do 2 step; eapply after_weaken;
      [ apply (IH _ E (tick w) t0); exact Hfile | ].
    all: cbv beta; intros r w' t [Hfs Hr]; split; [exact Hfs|].
    all: destruct r as [conn'|e]; [|exact I].
    all: destruct Hr as (Hpath & Hrows & Hquiet).
    all: split; [exact Hpath|]; split;
      [|exact Hquiet].
    all: cbn [upsert_rows]; rewrite Heqo; rewrite <- Hrows; unfold seen.
    all: rewrite Heqo0; cbn [default c_tx from_option id]; try reflexivity.
    rewrite Hfile in Heqs0. injection Heqs0 as ->. reflexivity.
Qed.

(** From a database whose table [t0] exists: the file holds [t0] or [t0]
    with all the upserts, the latter when the run returns [True], the
    former when an upsert failed. *)
Lemma restore_commit_phase conn ids E w t0 :
  c_tx conn = None ->
  w_fs w !! c_path conn = Some (Sqlite (Some t0)) ->
  after (conn <- MachineIDRestorer.upsert_all conn ids ;;
         conn <- sql_commit conn ;;
         sql_close conn ;;
         say "restore.sqlite_updated" "" ;;
         ret true) E w (fun r w' t =>
    exists now,
      w_fs w' !! c_path conn = Some (Sqlite (Some now))
      /\ (now = t0 \/ upsert_rows ids t0 = Some now)
      /\ (r = Ret true -> upsert_rows ids t0 = Some now)
      /\ (existsb upsert_failed t = true -> now = t0)).
Proof.
  intros Htx Hfile. apply after_bind.
  eapply after_weaken; [apply (restore_upsert_all_run ids conn E w t0 Hfile)|].
  cbv beta. intros r w1 t1 [Hfs Hr].
  destruct r as [conn1|e].
  2:{ exists t0. rewrite Hfs. repeat split; auto. intros Habs. discriminate Habs. }
  destruct Hr as (Hpath & Hrows & Hquiet).
  unfold seen in Hrows. rewrite Htx in Hrows. cbn [default from_option id] in Hrows.
  repeat step.
  all: cbn [w_fs tick set_fs c_path]; rewrite ?Hpath, ?Hfs.
  all: try (rewrite Heqo in Hrows); cbn [default from_option id] in Hrows.
  all: lazymatch goal with
       | |- context [<[_ := Sqlite (Some ?g)]> _ !! _] => exists g
       | _ => exists t0
       end.
  all: split; [first [apply lookup_insert_eq | exact Hfile]|].
  all: split; [first [left; reflexivity | right; exact Hrows]|].
  all: split; [intros Hr; first [discriminate Hr | exact Hrows]|].
  all: intros Hex; first [reflexivity
                         | trace_scan; rewrite Hquiet in Hex; discriminate Hex].
Qed.

Lemma restore_update_sqlite_db_run self ids E w :
  after (MachineIDRestorer.update_sqlite_db self ids) E w (fun r w' t =>
    let before := rows_of (w_fs w !! sqlite_path self) in
    let now := rows_of (w_fs w' !! sqlite_path self) in
    (w_fs w !! sqlite_path self = None ->
     r = Ret false /\ w' = w
     /\ t = [Print "restore.sqlite_not_found" (sqlite_path self)])
    /\ (now = before \/ upsert_rows ids before = Some now)
    /\ (r = Ret true -> upsert_rows ids before = Some now)
    /\ (existsb upsert_failed t = true -> now = before)).
Proof.
  cbv zeta. unfold MachineIDRestorer.update_sqlite_db.
  repeat (cbn [c_path c_tx];
          lazymatch goal with
          | |- after (bind (MachineIDRestorer.upsert_all _ _) _) _ _ _ => fail
          | _ => step
          end).
  all: cbn [w_fs tick set_fs] in *.
  all: bool_hyps.
  all: try absurd_leaf.
  all: try solve
    [ rewrite ?lookup_insert_eq;
      repeat match goal with H : w_fs _ !! _ = _ |- _ => rewrite H end;
      split; [first [intros _; repeat split; reflexivity
                    |intros Hn; discriminate Hn
                    |intros Hn; exfalso;
                     match goal with
                     | H : is_Some _ |- _ =>
                         rewrite Hn in H; destruct H; discriminate
                     end]|];
      split; [left; reflexivity|];
      split; [intros Hr; discriminate Hr|];
      intros _; reflexivity ].
  eapply after_weaken;
    [ apply (restore_commit_phase (Connection (sqlite_path self) None) ids E _
               (default ∅ o));
      [reflexivity | cbn [w_fs tick set_fs c_path]; apply lookup_insert_eq]
    | ].
  cbv beta; cbn [c_path]; intros r w2 t2 (now & Hnow & Hor & Htrue & Hfail).
  apply rows_of_created in Heqs.
  rewrite Heqo in Heqs.
  assert (Hb : rows_of (Some f) = default ∅ o) by (symmetry; exact Heqs).
  rewrite Hb. clear Heqs Hb.
  destruct r as [b|e]; cbv beta iota; [|repeat step].
  all: rewrite ?Hnow; change (rows_of (Some (Sqlite (Some now)))) with now.
  all: split; [intros Hn; discriminate Hn|].
  all: split; [exact Hor|].
  all: split; [first [exact Htrue | intros Hr; discriminate Hr]|].
  all: intros Hex; apply Hfail; trace_scan; exact Hex.
Qed.

(** X17: [MachineIDRestorer.update_sqlite_db] never raises and does not
    create a missing database: it then prints one message, returns
    [False] and attempts nothing.  On an existing database it is all or
    nothing on the rows a reader sees: they are the rows from before or
    those with every upsert applied, the latter when it returns [True],
    the former when an upsert failed. *)
Theorem restore_database_all_or_nothing (self : storage_paths) (ids : pydict)
  (E : env) (w : world) :
  let run := MachineIDRestorer.update_sqlite_db self ids E w in
  let before := rows_of (w_fs w !! sqlite_path self) in
  let now := rows_of (w_fs (world_of run) !! sqlite_path self) in
  (exists b, result_of run = Ret b)
  /\ (w_fs w !! sqlite_path self = None ->
      run = (Ret false, w,
             [Print "restore.sqlite_not_found" (sqlite_path self)]))
  /\ (now = before \/ upsert_rows ids before = Some now)
  /\ (result_of run = Ret true -> upsert_rows ids before = Some now)
  /\ (forall p k v e, In (Failed (OpSqlUpsert p k v) e) (trace_of run) ->
        now = before).
Proof.
  intros run before now.
  destruct (restore_update_sqlite_db_run self ids E w)
    as (Hmissing & Hor & Htrue & Hfail).
  split; [apply restore_update_sqlite_db_total|].
  split; [|split; [exact Hor|split; [exact Htrue|]]].
  - intros Hnone. destruct (Hmissing Hnone) as (Hr & Hw & Ht).
    subst run. unfold result_of, world_of, trace_of in Hr, Hw, Ht.
    destruct (MachineIDRestorer.update_sqlite_db self ids E w) as [[r w'] t].
    cbn [fst snd] in *. subst. reflexivity.
  - intros p k v e Hin. apply Hfail. apply existsb_exists.
    exists (Failed (OpSqlUpsert p k v) e). split; [exact Hin|reflexivity].
Qed.

Example missing_database :
  let nothing := World ∅ 0 [] in
  (* the restore leaves a missing database missing *)
  MachineIDRestorer.update_sqlite_db storage two_ids quiet_env nothing
  = (Ret false, nothing, [Print "restore.sqlite_not_found" (sqlite_path storage)])
  (* the reset creates it *)
  /\ result_of (MachineIDResetter.update_sqlite_db storage two_ids quiet_env
                  nothing) = Ret true
  /\ rows_of (w_fs (world_of (MachineIDResetter.update_sqlite_db storage
                                two_ids quiet_env nothing))
              !! sqlite_path storage) !! "telemetry.sqmId"
     = Some (SqlText "s1").
Proof. cbv zeta. repeat split; vm_compute; reflexivity. Qed.

(** ** Reading a backup *)

Lemma extract_backup_run self backup_path E w :
  after (MachineIDRestorer.extract_ids_from_backup self backup_path) E w
    (fun r w' t =>
       w_fs w' = w_fs w
       /\ (exists a, r = Ret a)
       /\ (forall ids, r = Ret (Some ids) ->
             exists d, w_fs w !! backup_path = Some (Json (PDict d))
                       /\ ids = MachineIDRestorer.extract_ids d)).
Proof.
  unfold MachineIDRestorer.extract_ids_from_backup.
  repeat (lazymatch goal with
          | |- after (bind (for_each _ _) _) _ _ _ => fail
          | _ => step
          end).
  all: cbn [w_fs tick set_fs] in *.
  all: try solve [split; [reflexivity|]; split; [eexists; reflexivity|];
                  intros ids Hr; discriminate Hr].
  apply after_bind.
  apply (after_known _ _ _ _ _ _ _ (warn_loop_run _ E (tick w))).
  repeat step. cbn [w_fs tick].
  split; [reflexivity|]. split; [eexists; reflexivity|].
  intros ids Hr. injection Hr as <-. exists d. split; reflexivity.
Qed.

(** X18: [extract_ids_from_backup] never raises and changes no file.
    It returns a mapping only when the backup holds a JSON object; the
    mapping then has exactly the five identity keys, in their order, each
    of the four telemetry keys with the backup's value or the empty
    string, values of any type being passed on as they are.  For a
    missing file or a document that is not an object it returns
    [None]. *)
Theorem extract_ids_reads_only (self : storage_paths) (backup_path : string)
  (E : env) (w : world) :
  let run := MachineIDRestorer.extract_ids_from_backup self backup_path E w in
  w_fs (world_of run) = w_fs w
  /\ (exists a, result_of run = Ret a)
  /\ (forall ids, result_of run = Ret (Some ids) ->
        exists d, w_fs w !! backup_path = Some (Json (PDict d))
          /\ map fst ids = MachineIDRestorer.identity_keys
          /\ (forall k, In k MachineIDRestorer.identity_keys ->
                k <> "storage.serviceMachineId" ->
                dict_get k ids = Some (dict_get_default k (PStr "") d)))
  /\ ((forall d, w_fs w !! backup_path <> Some (Json (PDict d))) ->
      result_of run = Ret None).
Proof.
  cbv zeta.
  destruct (extract_backup_run self backup_path E w) as (Hfs & [a Ha] & Hsome).
  split; [exact Hfs|]. split; [exists a; exact Ha|]. split.
  - intros ids Hr. destruct (Hsome ids Hr) as (d & Hd & ->).
    exists d. split; [exact Hd|]. split; [reflexivity|].
    intros k Hk Hne. unfold MachineIDRestorer.identity_keys in Hk.
    split_in Hk; subst k; try reflexivity. contradiction Hne. reflexivity.
  - intros Hno. destruct a as [ids|]; [|exact Ha].
    destruct (Hsome ids Ha) as (d & Hd & _). contradiction (Hno d Hd).
Qed.

Example extract_ids_passes_values_on :
  let w := World {[ old_backup :=
                      Json (PDict [("telemetry.devDeviceId", PInt 5)]) ]} 0 [] in
  MachineIDRestorer.extract_ids_from_backup storage old_backup quiet_env w
  = (Ret (Some [ ("telemetry.devDeviceId", PInt 5);
                 ("telemetry.macMachineId", PStr "");
                 ("telemetry.machineId", PStr "");
                 ("telemetry.sqmId", PStr "");
                 ("storage.serviceMachineId", PInt 5) ]),
     tick w,
     [ Did (OpJsonLoad old_backup);
       Print "restore.missing_id" "telemetry.macMachineId";
       Print "restore.missing_id" "telemetry.machineId";
       Print "restore.missing_id" "telemetry.sqmId" ])
  /\ result_of (MachineIDRestorer.extract_ids_from_backup storage old_backup
                  quiet_env
                  (World {[ old_backup := Json (PList []) ]} 0 []))
     = Ret None.
Proof. cbv zeta. split; vm_compute; reflexivity. Qed.

(** ** The whole restore *)

Lemma select_loop_no_dump backups : forall fuel,
  emits_only no_dump (MachineIDRestorer.select_loop fuel backups).
Proof.
  induction fuel as [|fuel IH]; [apply emits_raise|].
  cbn [MachineIDRestorer.select_loop].
  emits_with ltac:(cbv beta; reflexivity).
Qed.

Lemma select_backup_no_dump self :
  emits_only no_dump (MachineIDRestorer.select_backup self).
Proof.
  unfold MachineIDRestorer.select_backup.
  apply emits_bind.
  { unfold MachineIDRestorer.list_backups.
    apply emits_bind; [intros E w; constructor|].
    intros backups. emits_with ltac:(cbv beta; reflexivity). }
  intros [backups|]; [|apply emits_ret].
  intros E w. apply select_loop_no_dump.
Qed.

Lemma extract_no_dump self backup_path :
  emits_only no_dump (MachineIDRestorer.extract_ids_from_backup self backup_path).
Proof. emits_with ltac:(cbv beta; reflexivity). Qed.

Lemma extract_keeps_stdin self backup_path E w :
  after (MachineIDRestorer.extract_ids_from_backup self backup_path) E w
    (fun r w' t => w_stdin w' = w_stdin w).
Proof.
  unfold MachineIDRestorer.extract_ids_from_backup.
  repeat (lazymatch goal with
          | |- after (bind (for_each _ _) _) _ _ _ => fail
          | _ => step
          end).
  all: try reflexivity.
  apply after_bind.
  apply (after_known _ _ _ _ _ _ _ (warn_loop_run _ E (tick w))).
  repeat step. reflexivity.
Qed.

Lemma show_ids_run (ids : pydict) E w :
  for_each ids (fun kv => v <- fmt (snd kv) ;; say (fst kv) v) E w
  = (Ret tt, w, map (fun kv => Print (fst kv) (py_str E (snd kv))) ids).
Proof.
  induction ids as [|[k v] ids IH]; [reflexivity|].
  cbn [for_each map fst snd].
  apply (bind_run_ret _ _ E w tt w [Print k (py_str E v)] (Ret tt) w);
    [reflexivity|exact IH].
Qed.

Lemma show_ids_no_dump (ids : pydict) E :
  List.Forall no_dump (map (fun kv => Print (fst kv) (py_str E (snd kv))) ids).
Proof. induction ids; constructor; [reflexivity|assumption]. Qed.

Lemma update_current_file_dump self ids E w :
  after (MachineIDRestorer.update_current_file self ids) E w (fun r w' t =>
    (exists b, r = Ret b)
    /\ (r = Ret true <-> exists v, In (Did (OpJsonDump (db_path self) v)) t)
    /\ (forall p v, In (Did (OpJsonDump p v)) t -> p = db_path self)).
Proof.
  unfold MachineIDRestorer.update_current_file.
  repeat step_through.
  all: split; [eexists; reflexivity|].
  all: split; [|intros p' v' Hin; split_in Hin; injection Hin as <- _; reflexivity].
  all: split; [intros Hr; first [discriminate Hr | eexists; in_trace]|].
  all: intros [v' Hin]; first [reflexivity | exfalso; split_in Hin].
Qed.

Lemma restore_upsert_all_emits P conn ids :
  (forall k a, P (Print k a)) ->
  (forall p k v, P (Did (OpSqlUpsert p k v))) ->
  (forall p k v e, P (Failed (OpSqlUpsert p k v) e)) ->
  emits_only P (MachineIDRestorer.upsert_all conn ids).
Proof.
  intros HP Hdid Hfailed. revert conn.
  induction ids as [|[key value] ids IH]; intros conn; [apply emits_ret|].
  cbn [MachineIDRestorer.upsert_all].
  emits_with ltac:(first [apply HP | apply Hdid | apply Hfailed]).
Qed.

Lemma restore_tail_run self ids E w :
  after (MachineIDRestorer.update_sqlite_db self ids ;;
         MachineIDRestorer.update_machine_id_file self
           (dict_get_default "telemetry.devDeviceId" (PStr "") ids) ;;
         MachineIDRestorer.update_system_ids self ids ;;
         say "restore.success" "" ;;
         ret true) E w (fun r w' t => r = Ret true /\ List.Forall no_dump t).
Proof.
  eapply after_emits_with with (P := no_dump) (Q0 := fun r _ _ => r = Ret true).
  - pose proof (fun conn ids =>
      restore_upsert_all_emits no_dump conn ids
        (fun _ _ => eq_refl) (fun _ _ _ => eq_refl) (fun _ _ _ _ => eq_refl))
      as Hupsert.
    emits_with ltac:(cbv beta; reflexivity).
  - step. apply after_total; [apply restore_update_sqlite_db_total|].
    intros b1 w2 t2. cbv beta iota.
    step. apply after_total; [apply restore_update_machine_id_file_total|].
    intros b2 w3 t3. cbv beta iota.
    step. apply after_total; [apply restore_update_system_ids_total|].
    intros b3 w4 t4. cbv beta iota.
    repeat step. reflexivity.
  - intros r w' t Ht Hr. split; assumption.
Qed.

Lemma no_dump_not_in (t : list event) p v :
  List.Forall no_dump t -> ~ In (Did (OpJsonDump p v)) t.
Proof.
  intros Ht Hin. rewrite List.Forall_forall in Ht.
  specialize (Ht _ Hin). discriminate Ht.
Qed.

Ltac no_dump_trace :=
  repeat first
    [ assumption
    | apply List.Forall_nil
    | apply List.Forall_cons; [reflexivity|]
    | apply List.Forall_app; split
    | apply show_ids_no_dump ].

Ltac quiet_leaf :=
  split;
  [ split;
    [ intros Hr; discriminate Hr
    | intros [?v Hin]; exfalso;
      eapply no_dump_not_in; [|exact Hin]; no_dump_trace ]
  | intros Hne; contradiction Hne; cbn [w_fs tick] in *; congruence ].

Lemma restore_machine_ids_run self E w :
  after (MachineIDRestorer.restore_machine_ids self) E w (fun r w' t =>
    (r = Ret true <-> exists v, In (Did (OpJsonDump (db_path self) v)) t)
    /\ (w_fs w' <> w_fs w -> confirmed (w_stdin w))).
Proof.
  unfold MachineIDRestorer.restore_machine_ids.
  do 4 step.
  eapply after_emits_with;
    [apply select_backup_no_dump|apply select_backup_run|].
  cbv beta zeta. intros r w1 t1 Ht1 (Hfs1 & [used1 Hused1] & _).
  destruct r as [[backup|]|e]; cbv beta iota.
  2:{ repeat step. quiet_leaf. }
  2:{ repeat step. quiet_leaf. }
  destruct (is_empty_str backup); [repeat step; quiet_leaf|].
  step.
  eapply after_emits_with;
    [ apply extract_no_dump
    | apply after_and; [apply extract_backup_run|apply extract_keeps_stdin]
    | ].
  cbv beta. intros r w2 t2 Ht2 [(Hfs2 & _ & _) Hin2].
  destruct r as [[ids|]|e]; cbv beta iota.
  2:{ repeat step. quiet_leaf. }
  2:{ repeat step. quiet_leaf. }
  do 3 step.
  apply (after_known _ _ _ _ _ _ _ (show_ids_run ids E w2)).
  do 2 step.
  2:{ repeat step. quiet_leaf. }
  cbn [w_fs w_stdin] in *.
  step.
  { repeat step. quiet_leaf. }
  assert (Hconf : confirmed (w_stdin w)).
  { exists line. split.
    - rewrite Hused1, <- Hin2, Hstdin. apply in_or_app. right. left. reflexivity.
    - apply negb_false_iff, String.eqb_eq in Heqb. exact Heqb. }
  step.
  eapply after_weaken; [apply update_current_file_dump|].
  cbv beta. intros r w3 t3 ([b ->] & Hdump & Honly). cbv beta iota.
  destruct b; cbn [negb]; cbv beta iota.
  - eapply after_weaken; [apply restore_tail_run|].
    cbv beta. intros r w4 t4 [-> Ht4]. cbv beta iota.
    split; [|intros _; exact Hconf].
    split; [intros _|reflexivity].
    destruct (proj1 Hdump eq_refl) as [v Hv]. exists v. find_in.
  - step. split; [|intros _; exact Hconf].
    split; [intros Hr; discriminate Hr|].
    intros [v Hin]. exfalso.
    assert (Hno : forall v, ~ In (Did (OpJsonDump (db_path self) v)) t3).
    { intros v' Hv'. destruct Hdump as [_ Hd].
      discriminate (Hd (ex_intro _ v' Hv')). }
    repeat (apply in_app_or in Hin; destruct Hin as [Hin|Hin]).
    all: try solve [split_in Hin].
    all: try solve [eapply no_dump_not_in; [|exact Hin]; no_dump_trace].
    all: try solve [exact (Hno _ Hin)].
Qed.

(** X19: [restore_machine_ids] never raises.  It returns [True] exactly
    when the storage file has been rewritten: failures of the database,
    machine-id file and system updates that follow do not change the
    result.  It changes no file unless a line that lower-cases to [y]
    has been entered. *)
Theorem restore_true_iff_storage_written (self : storage_paths) (E : env)
  (w : world) :
  let run := MachineIDRestorer.restore_machine_ids self E w in
  (exists b, result_of run = Ret b)
  /\ (result_of run = Ret true <->
      exists v, In (Did (OpJsonDump (db_path self) v)) (trace_of run))
  /\ (w_fs (world_of run) <> w_fs w -> confirmed (w_stdin w)).
Proof.
  cbv zeta. split; [|exact (restore_machine_ids_run self E w)].
  apply try_total. intros e w1. exists false. reflexivity.
Qed.

Example restore_ignores_later_failures :
  let run := MachineIDRestorer.restore_machine_ids storage restore_env
               restore_world in
  let declined := MachineIDRestorer.restore_machine_ids storage restore_env
                    (World (w_fs restore_world) 0 ["1"; "n"]) in
  result_of run = Ret true
  /\ In (Print "restore.sqlite_not_found" (sqlite_path storage)) (trace_of run)
  /\ result_of declined = Ret false
  /\ w_fs (world_of declined) = w_fs restore_world.
Proof.
  cbv zeta. split; [vm_compute; reflexivity|].
  split; [vm_compute; auto 30|].
  split; vm_compute; reflexivity.
Qed.

(** ** The whole reset *)

Lemma reset_machine_ids_run self E w :
  after (MachineIDResetter.reset_machine_ids self) E w (fun r w' t =>
    ((forall stamp,
        ~ In (Did (OpCopy (db_path self) (db_path self +:+ ".bak." +:+ stamp))) t)
     -> r = Ret false /\ w_fs w' = w_fs w)
    /\ (w_fs w !! db_path self = None \/ e_access E (db_path self) = false ->
        r = Ret false /\ w' = w
        /\ exists key arg, t = [Print "reset.checking" ""; Print key arg])).
Proof.
  unfold MachineIDResetter.reset_machine_ids.
  repeat (lazymatch goal with
          | |- after (bind (say "reset.generating" "") _) _ _ _ => fail
          | _ => step
          end).
  all: cbn [w_fs tick set_fs w_step] in *.
  all: bool_hyps.
  all: try absurd_leaf.
  all: try solve
    [ split;
      [ intros _; split; reflexivity
      | intros [Hn|Ha];
        first [ split; [reflexivity|split; [reflexivity|do 2 eexists; reflexivity]]
              | exfalso; congruence
              | exfalso;
                match goal with
                | H : ~ is_Some _ |- _ => apply H; eauto
                | H : is_Some ?x |- _ =>
                    rewrite Hn in H; destruct H; discriminate
                end ] ] ].
  apply after_any. intros r w2 t2.
  assert (Hcopied : forall t,
            (forall stamp,
               ~ In (Did (OpCopy (db_path self)
                            (db_path self +:+ ".bak." +:+ stamp)))
                    ([Print "reset.checking" ""] ++ [] ++ [] ++
                     [Print "reset.reading" ""] ++
                     [Did (OpJsonLoad (db_path self))] ++ [] ++
                     [Print "reset.creating_backup"
                        (db_path self +:+ ".bak." +:+ e_clock E (S (w_step w)))] ++
                     [Did (OpCopy (db_path self)
                             (db_path self +:+ ".bak."
                              +:+ e_clock E (S (w_step w))))] ++ t)) ->
            False).
  { intros t Hno. apply (Hno (e_clock E (S (w_step w)))). find_in. }
  destruct r as [b|e]; cbv beta iota; [|repeat step].
  all: split;
    [ intros Hno; exfalso;
      first [ exact (Hcopied _ Hno)
            | apply (Hcopied (t2 ++ [Print "reset.permission_error" "";
                                     Print "reset.run_as_admin" ""]));
              intros stamp Hin; apply (Hno stamp);
              revert Hin; trace_norm; exact id
            | apply (Hcopied (t2 ++ [Print "reset.process_error" ""]));
              intros stamp Hin; apply (Hno stamp);
              revert Hin; trace_norm; exact id ]
    | intros [Hn|Ha]; exfalso; congruence ].
Qed.

(** X20: [reset_machine_ids] never raises, and it changes nothing before
    the storage file has been copied to its backup: a run without a
    completed copy to [<storage>.bak.<stamp>] returns [False] and leaves
    every file as it was, but for what a failed copy may have left under
    the name of the backup; in a run where no copy failed either, no file
    has changed at all.  When the storage file is missing or not
    accessible, the run prints two messages and attempts nothing. *)
Theorem reset_backs_up_first (self : storage_paths) (E : env) (w : world) :
  let run := MachineIDResetter.reset_machine_ids self E w in
  let backup stamp := db_path self +:+ ".bak." +:+ stamp in
  (exists b, result_of run = Ret b)
  /\ ((forall stamp,
         ~ In (Did (OpCopy (db_path self) (backup stamp))) (trace_of run)) ->
      result_of run = Ret false
      /\ (forall q, (forall stamp, q <> backup stamp) ->
            w_fs (world_of run) !! q = w_fs w !! q)
      /\ ((forall stamp e,
             ~ In (Failed (OpCopy (db_path self) (backup stamp)) e)
                  (trace_of run)) ->
          w_fs (world_of run) = w_fs w))
  /\ (w_fs w !! db_path self = None \/ e_access E (db_path self) = false ->
      result_of run = Ret false /\ world_of run = w
      /\ exists key arg,
           trace_of run = [Print "reset.checking" ""; Print key arg]).
Proof.
  cbv zeta.
  destruct (reset_machine_ids_run self E w) as [Hfirst Hmissing].
  split; [|split; [|exact Hmissing]].
  - apply try_total. intros e w1.
    unfold result_of, bind, say, ret.
    destruct (is_permission_error e); eexists; reflexivity.
  - intros Hno. destruct (Hfirst Hno) as [Hr Hfs].
    split; [exact Hr|]. split; [intros q _; rewrite Hfs; reflexivity|].
    intros _. exact Hfs.
Qed.

(** The storage file is rewritten although the run returns [False]: the
    path of the workbench file cannot be resolved (the operation counted
    21 fails). *)
Example reset_false_after_the_write :
  let run := MachineIDResetter.reset_machine_ids storage
               (failing_at 21 OSError quiet_env) storage_world in
  result_of run = Ret false
  /\ existsb is_json_dump (trace_of run) = true
  /\ In (Failed (OpResolve "workbench_path") OSError) (trace_of run)
  /\ w_fs (world_of run) !! (db_path storage +:+ ".bak.20240101_120000")
     = Some (Json (PDict [("foo", PStr "bar")])).
Proof.
  cbv zeta. split; [vm_compute; reflexivity|].
  split; [vm_compute; reflexivity|].
  split; [vm_compute; auto 40|vm_compute; reflexivity].
Qed.

(** ** The version bypass *)

Ltac step_bypass :=
  first [ lazymatch goal with
          | |- after time_strftime _ _ _ => apply after_now
          end; cbv beta iota
        | step_through ].

Lemma bypass_version_run candidate E w :
  after (bypass_version candidate) E w (fun r w' t =>
    (forall q, w_fs w' !! q <> w_fs w !! q ->
       exists p, candidate E w = Some p
                 /\ (q = p \/ exists stamp, q = p +:+ "." +:+ stamp))
    /\ (r = Ret true ->
        exists p d c,
          candidate E w = Some p
          /\ w_fs w !! p = Some (Json (PDict d))
          /\ product_version d c
          /\ ((0 <= c)%Z /\ w_fs w' = w_fs w
              \/ (c < 0)%Z
                 /\ w_fs w' !! p
                    = Some (Json (PDict (dict_set "version" (PStr "0.48.7") d)))
                 /\ exists stamp,
                      w_fs w' !! (p +:+ "." +:+ stamp) = Some (Json (PDict d))))
    /\ (forall p stamp, In (Did (OpCopy p (p +:+ "." +:+ stamp))) t ->
          w_fs w' !! (p +:+ "." +:+ stamp) = w_fs w !! p)).
Proof.
  unfold bypass_version, get_product_json_path.
  repeat step_bypass.
  all: cbn [w_fs tick set_fs w_step] in *.
  all: bool_hyps.
  all: split; [|split].
  all: try solve [intros q Hq; contradiction Hq; reflexivity].
  all: try solve [intros Hr; discriminate Hr].
  all: try solve [intros p' stamp Hin; split_in Hin].
  all: repeat match goal with
           | H : ?a = Some _, H' : ?a = Some _ |- _ =>
               rewrite H in H'; injection H' as H'; subst
           end.
  all: try match goal with
           | |- context [?p +:+ "." +:+ ?x] =>
               pose proof (suffixed_path_ne p "." x ltac:(discriminate))
                 as Hbak
           end.
  all: try solve
    [ intros q Hq; eexists; split; [reflexivity|];
      lazymatch goal with
      | Hb : ?p +:+ "." +:+ ?x <> ?p |- _ =>
          destruct (decide (q = p)) as [Hqs|Hqs]; [left; exact Hqs|];
          right; exists x;
          destruct (decide (q = p +:+ "." +:+ x)) as [Hqb|Hqb]; [exact Hqb|];
          exfalso; apply Hq; fs_lookup; reflexivity
      end ].
  all: try solve
    [ intros p' stamp Hin; split_in Hin; injection Hin as <- Hin;
      rewrite <- Hin; fs_lookup; symmetry; assumption ].
  - intros _. exists s, d, a. split; [reflexivity|]. split; [assumption|].
    split; [assumption|]. right. apply Z.ltb_lt in Heqb1.
    split; [exact Heqb1|]. split; [apply lookup_insert_eq|].
    eexists. rewrite !lookup_insert_ne by (apply not_eq_sym, Hbak).
    apply lookup_insert_eq.
  - intros _. exists s, d, a. split; [reflexivity|]. split; [assumption|].
    split; [assumption|]. left. apply Z.ltb_ge in Heqb1.
    split; [exact Heqb1|reflexivity].
Qed.

Lemma bypass_version_quiet candidate E w p d c :
  (forall n, e_faults E n = None) ->
  candidate E w = Some p ->
  w_fs w !! p = Some (Json (PDict d)) ->
  e_access E p = true ->
  product_version d c ->
  after (bypass_version candidate) E w (fun r w' t =>
    r = Ret true
    /\ ((0 <= c)%Z -> w_fs w' = w_fs w)
    /\ ((c < 0)%Z ->
        w_fs w' !! p = Some (Json (PDict (dict_set "version" (PStr "0.48.7") d)))
        /\ exists stamp, w_fs w' !! (p +:+ "." +:+ stamp) = Some (Json (PDict d)))).
Proof.
  intros Hnf Hcand Hfile Hacc Hver. unfold product_version in Hver.
  unfold bypass_version, get_product_json_path.
  repeat first [ lazymatch goal with
                 | |- after time_strftime _ _ _ => apply after_now
                 end; cbv beta iota
               | step_quiet Hnf
               | lazymatch goal with
                 | |- match ?x with _ => _ end => destruct x eqn:?
                 end; cbv beta iota ].
  all: cbn [w_fs tick set_fs w_step] in *.
  all: bool_hyps.
  all: repeat match goal with
           | H : ?a = Some _, H' : ?a = Some _ |- _ =>
               rewrite H in H'; injection H' as H'; subst
           | H : ?a = Ret _, H' : ?a = Ret _ |- _ =>
               rewrite H in H'; injection H' as H'; subst
           end.
  all: try absurd_leaf.
  - rewrite copy_target_is_other in Heqb2 by discriminate. discriminate Heqb2.
  - apply Z.ltb_lt in Heqb1. split; [reflexivity|]. split; [lia|]. intros _.
    split; [apply lookup_insert_eq|]. eexists.
    rewrite !lookup_insert_ne
      by (apply not_eq_sym, suffixed_path_ne; discriminate).
    apply lookup_insert_eq.
  - apply Z.ltb_ge in Heqb1. split; [reflexivity|].
    split; [reflexivity|lia].
Qed.

(** X21: [bypass_version] never raises.  It changes no file but
    [product.json] and its backup [product.json.<stamp>], and a backup it
    has copied holds the previous content.  It returns [True] only for a
    [product.json] that holds an object, in one of two ways: the version
    (["0.0.0"] when the key is missing) is not below 0.46.0 and no file
    has changed; or it is below, the file holds the object with
    [version] set to ["0.48.7"], every other key as before, and the
    backup holds the object as it was. *)
Theorem bypass_version_outcomes (candidate : env -> world -> option string)
  (E : env) (w : world) :
  let run := bypass_version candidate E w in
  (exists b, result_of run = Ret b)
  /\ (forall q, w_fs (world_of run) !! q <> w_fs w !! q ->
        exists p, candidate E w = Some p
                  /\ (q = p \/ exists stamp, q = p +:+ "." +:+ stamp))
  /\ (forall p stamp,
        In (Did (OpCopy p (p +:+ "." +:+ stamp))) (trace_of run) ->
        w_fs (world_of run) !! (p +:+ "." +:+ stamp) = w_fs w !! p)
  /\ (result_of run = Ret true ->
      exists p d c,
        candidate E w = Some p
        /\ w_fs w !! p = Some (Json (PDict d))
        /\ product_version d c
        /\ ((0 <= c)%Z /\ w_fs (world_of run) = w_fs w
            \/ (c < 0)%Z
               /\ (exists d',
                     w_fs (world_of run) !! p = Some (Json (PDict d'))
                     /\ dict_get "version" d' = Some (PStr "0.48.7")
                     /\ forall k, k <> "version" ->
                                  dict_get k d' = dict_get k d)
               /\ exists stamp,
                    w_fs (world_of run) !! (p +:+ "." +:+ stamp)
                    = Some (Json (PDict d)))).
Proof.
  cbv zeta.
  destruct (bypass_version_run candidate E w) as (Hconf & Htrue & Hcopy).
  split; [apply try_total; intros e w1; exists false; reflexivity|].
  split; [exact Hconf|]. split; [exact Hcopy|].
  intros Hr. destruct (Htrue Hr) as (p & d & c & Hp & Hd & Hc & Hcases).
  exists p, d, c. split; [exact Hp|]. split; [exact Hd|]. split; [exact Hc|].
  destruct Hcases as [Hsame|(Hlt & Hnew & Hbak)]; [left; exact Hsame|].
  right. split; [exact Hlt|]. split; [|exact Hbak].
  exists (dict_set "version" (PStr "0.48.7") d).
  split; [exact Hnew|]. split; [apply dict_get_set_eq|].
  intros k Hk. apply dict_get_set_ne. apply not_eq_sym, Hk.
Qed.

Lemma updated_version_compares (d : pydict) :
  product_version (dict_set "version" (PStr "0.48.7") d) 1.
Proof.
  unfold product_version, dict_get_default.
  rewrite dict_get_set_eq. vm_compute. reflexivity.
Qed.

(** X22: when no operation fails and [product.json] is writable and
    holds an object, [bypass_version] returns [True]; a version below
    0.46.0 is replaced by ["0.48.7"] after a backup of the file, any
    other version leaves the files alone.  A second run then finds
    nothing to do: it returns [True] and changes no file. *)
Theorem bypass_version_updates_once (candidate : env -> world -> option string)
  (E E2 : env) (w : world) (p : string) (d : pydict) (c : Z) :
  (forall n, e_faults E n = None) ->
  (forall n, e_faults E2 n = None) ->
  candidate E w = Some p ->
  candidate E2 (world_of (bypass_version candidate E w)) = Some p ->
  e_access E p = true -> e_access E2 p = true ->
  w_fs w !! p = Some (Json (PDict d)) ->
  product_version d c ->
  let first := bypass_version candidate E w in
  let second := bypass_version candidate E2 (world_of first) in
  result_of first = Ret true
  /\ ((0 <= c)%Z -> w_fs (world_of first) = w_fs w)
  /\ ((c < 0)%Z ->
      w_fs (world_of first) !! p
      = Some (Json (PDict (dict_set "version" (PStr "0.48.7") d)))
      /\ exists stamp,
           w_fs (world_of first) !! (p +:+ "." +:+ stamp)
           = Some (Json (PDict d)))
  /\ result_of second = Ret true
  /\ w_fs (world_of second) = w_fs (world_of first).
Proof.
  intros Hnf Hnf2 Hp Hp2 Ha Ha2 Hd Hc. cbv zeta.
  destruct (bypass_version_quiet candidate E w p d c Hnf Hp Hd Ha Hc)
    as (Hr & Hsame & Hnew).
  split; [exact Hr|]. split; [exact Hsame|]. split; [exact Hnew|].
  destruct (Z.lt_ge_cases c 0) as [Hlt|Hge].
  - destruct (Hnew Hlt) as [Hfile _].
    destruct (bypass_version_quiet candidate E2 _ p _ 1 Hnf2 Hp2 Hfile Ha2
                (updated_version_compares d)) as (Hr2 & Hsame2 & _).
    split; [exact Hr2|]. apply Hsame2. lia.
  - rewrite <- (Hsame Hge) in Hd.
    destruct (bypass_version_quiet candidate E2 _ p d c Hnf2 Hp2 Hd Ha2 Hc)
      as (Hr2 & Hsame2 & _).
    split; [exact Hr2|]. apply Hsame2. exact Hge.
Qed.

Lemma bypass_version_updates_once_witness :
  let first := bypass_version (fun _ _ => Some product_json) quiet_env
                 product_world in
  result_of first = Ret true
  /\ w_fs (world_of first) !! product_json
     = Some (Json (PDict [("nameShort", PStr "Cursor");
                          ("version", PStr "0.48.7")]))
  /\ w_fs (world_of first) !! (product_json +:+ ".20240101_120000")
     = Some (Json (PDict [("nameShort", PStr "Cursor");
                          ("version", PStr "0.45.11")]))
  /\ w_fs (world_of (bypass_version (fun _ _ => Some product_json) quiet_env
                       (world_of first)))
     = w_fs (world_of first).
Proof.
  cbv zeta.
  destruct (bypass_version_updates_once (fun _ _ => Some product_json)
              quiet_env quiet_env product_world product_json
              [("nameShort", PStr "Cursor"); ("version", PStr "0.45.11")]
              (-1)%Z
              ltac:(intros n; reflexivity) ltac:(intros n; reflexivity)
              eq_refl eq_refl eq_refl eq_refl
              ltac:(vm_compute; reflexivity) ltac:(vm_compute; reflexivity))
    as (Hr & _ & Hnew & _ & Hsame).
  destruct (Hnew ltac:(lia)) as [Hfile _].
  split; [exact Hr|]. split; [exact Hfile|].
  split; [vm_compute; reflexivity|exact Hsame].
Defined.

Example bypass_version_edge_versions :
  let run v :=
    bypass_version (fun _ _ => Some product_json) quiet_env
      (World {[ product_json := Json (PDict v) ]} 0 []) in
  (* the comparison is numeric: 0.100.0 is not below 0.46.0 *)
  result_of (run [("version", PStr "0.100.0")]) = Ret true
  /\ w_fs (world_of (run [("version", PStr "0.100.0")])) !! product_json
     = Some (Json (PDict [("version", PStr "0.100.0")]))
  (* a missing version counts as 0.0.0 *)
  /\ w_fs (world_of (run [("name", PStr "x")])) !! product_json
     = Some (Json (PDict [("name", PStr "x"); ("version", PStr "0.48.7")]))
  (* a version that does not parse, or is not a string: [False] *)
  /\ result_of (run [("version", PStr "v0.45")]) = Ret false
  /\ result_of (run [("version", PInt 45)]) = Ret false
  /\ w_fs (world_of (run [("version", PInt 45)])) !! product_json
     = Some (Json (PDict [("version", PInt 45)])).
Proof. cbv zeta. repeat split; vm_compute; reflexivity. Qed.
